(** * Router connection and caching subsystem: a shallow embedding

    The Python sources embedded here are [services/router.py] (and its
    modular copy under [services/router/]) and
    [services/background_service.py].  Every definition keeps the name of
    the Python function it transcribes.

    Conventions of the embedding.
    - A Python [str] is a [string] whose characters are the code points
      below 256; [str.strip], [str.split], [str.lower] and [str.isdigit]
      are written out for that range.
    - An instant ([datetime.now()]) is an integer number of seconds and a
      method call that reads the clock does so at one instant.  Python
      floats (the retry delays) are rationals: the arithmetic on them
      here is exact, as it is in Python for a float scaled by a power of
      two within the float range; the power [2.0 ** 1024], which leaves
      that range, is the [OverflowError] it is in Python.
    - A raised exception is the [Raise] result of a computation; [str(e)]
      is the message carried by the exception.
    - The pool and the cache guard their state with a lock; an operation
      run under the lock is one step of the embedding. *)

From Stdlib Require Import ZArith QArith Qminmax Qpower Qround List String Ascii Bool Lia.
From Stdlib Require Import Permutation Sorted DecimalString.
Import ListNotations.

Close Scope Q_scope.
Open Scope string_scope.
Open Scope list_scope.
Open Scope Z_scope.

Set Warnings "-register-all".

(* ====================================================================== *)
(** * Python string primitives *)
(* ====================================================================== *)

Module Str.

(** [c.isspace()] for a code point below 256: the ASCII blanks, the four
    separators 0x1c-0x1f, NEL (0x85) and NBSP (0xa0). *)
Definition isspace (c : ascii) : bool :=
  let n := nat_of_ascii c in
  (((9 <=? n) && (n <=? 13)) || ((28 <=? n) && (n <=? 32))
   || (n =? 133) || (n =? 160))%nat.

Definition is_empty (s : string) : bool :=
  match s with EmptyString => true | String _ _ => false end.

(** [s.lstrip()], [s.rstrip()] and [s.strip()]. *)
Fixpoint lstrip (s : string) : string :=
  match s with
  | EmptyString => EmptyString
  | String c r => if isspace c then lstrip r else s
  end.

Fixpoint rstrip (s : string) : string :=
  match s with
  | EmptyString => EmptyString
  | String c r =>
      match rstrip r with
      | EmptyString => if isspace c then EmptyString else String c EmptyString
      | r' => String c r'
      end
  end.

Definition strip (s : string) : string := lstrip (rstrip s).

(** [s.split(sep)] for a one-character separator: never the empty list. *)
Fixpoint split_on (sep : ascii) (s : string) : list string :=
  match s with
  | EmptyString => [EmptyString]
  | String c r =>
      if Ascii.eqb c sep then EmptyString :: split_on sep r
      else match split_on sep r with
           | l :: ls => String c l :: ls
           | [] => [String c EmptyString]
           end
  end.

Definition newline : ascii := ascii_of_nat 10.

(** [s.split('\n')] *)
Definition split_lines (s : string) : list string := split_on newline s.

(** ['\n'.join(ls)] *)
Definition join_lines (ls : list string) : string :=
  String.concat (String newline EmptyString) ls.

(** [s.split()]: maximal runs of non-blank characters. *)
Fixpoint split_ws (s : string) : list string :=
  match s with
  | EmptyString => []
  | String c r =>
      if isspace c then split_ws r
      else match r with
           | EmptyString => [String c EmptyString]
           | String c' _ =>
               if isspace c' then String c EmptyString :: split_ws r
               else match split_ws r with
                    | w :: ws => String c w :: ws
                    | [] => [String c EmptyString]
                    end
           end
  end.

(** [s.startswith(p)] *)
Definition startswith (p s : string) : bool := String.prefix p s.

(** [needle in hay] *)
Fixpoint contains (needle hay : string) : bool :=
  String.prefix needle hay
  || match hay with
     | EmptyString => false
     | String _ r => contains needle r
     end.

(** [s.endswith(c)] for a one-character suffix. *)
Fixpoint endswith_char (c : ascii) (s : string) : bool :=
  match s with
  | EmptyString => false
  | String d EmptyString => Ascii.eqb d c
  | String _ r => endswith_char c r
  end.

(** [c.lower()] below 256: A-Z and the Latin-1 capitals (0xc0-0xde
    without the multiplication sign 0xd7) move up by 32. *)
Definition lower_char (c : ascii) : ascii :=
  let n := nat_of_ascii c in
  if (((65 <=? n) && (n <=? 90))
      || ((192 <=? n) && (n <=? 222) && negb (n =? 215)))%nat
  then ascii_of_nat (n + 32) else c.

Fixpoint lower (s : string) : string :=
  match s with
  | EmptyString => EmptyString
  | String c r => String (lower_char c) (lower r)
  end.

(** A decimal digit, the only characters [int()] accepts here. *)
Definition isdecimal_char (c : ascii) : bool :=
  let n := nat_of_ascii c in ((48 <=? n) && (n <=? 57))%nat.

(** [c.isdigit()] below 256: the decimal digits and the superscripts
    two, three and one (0xb2, 0xb3, 0xb9), which have the Unicode
    property Numeric_Type=Digit without being decimal. *)
Definition isdigit_char (c : ascii) : bool :=
  let n := nat_of_ascii c in
  (isdecimal_char c || (n =? 178) || (n =? 179) || (n =? 185))%nat.

Fixpoint all_chars (p : ascii -> bool) (s : string) : bool :=
  match s with
  | EmptyString => true
  | String c r => p c && all_chars p r
  end.

(** [s.isascii()]: every character is below 128. *)
Definition is_ascii_char (c : ascii) : bool := (nat_of_ascii c <? 128)%nat.

Definition isascii (s : string) : bool := all_chars is_ascii_char s.

(** [s.isdigit()]: at least one character and all of them digits. *)
Definition isdigit (s : string) : bool :=
  negb (is_empty s) && all_chars isdigit_char s.

Fixpoint decimal_value (acc : Z) (s : string) : Z :=
  match s with
  | EmptyString => acc
  | String c r => decimal_value (10 * acc + (Z.of_nat (nat_of_ascii c) - 48)) r
  end.

(** The number of decimal digits [s] starts with. *)
Fixpoint leading_decimals (s : string) : nat :=
  match s with
  | EmptyString => O
  | String c r => if isdecimal_char c then S (leading_decimals r) else O
  end.

(** [int(s)] on a string without blanks, sign or underscore: the value
    when every character is a decimal digit and there are at most 4300 of
    them (the interpreter's default limit), [None] for the [ValueError]
    otherwise. *)
Definition int_of (s : string) : option Z :=
  if negb (is_empty s) && all_chars isdecimal_char s
     && (String.length s <=? 4300)%nat
  then Some (decimal_value 0 s) else None.

End Str.


(* ====================================================================== *)
(** * Python values, exceptions and results *)
(* ====================================================================== *)

(** The payloads kept in the cache: the values that [json.dumps] and
    [json.loads] carry back unchanged. *)
Inductive value : Type :=
| VNone
| VBool (b : bool)
| VInt (n : Z)
| VFloat (q : Q)
| VStr (s : string)
| VList (l : list value)
| VDict (d : list (string * value)).

(** An exception object: its class and the text [str(e)] yields. *)
Record exn : Type := Exception { exn_class : string; exn_msg : string }.

Inductive result (A : Type) : Type :=
| Return (a : A)
| Raise (e : exn).

Arguments Return {A} a.
Arguments Raise {A} e.

Definition is_return {A : Type} (r : result A) : bool :=
  match r with Return _ => true | Raise _ => false end.

(** The decimal text of an integer, as an f-string prints it. *)
Definition decimal_text (n : Z) : string :=
  NilZero.string_of_int (Z.to_int n).

(** [x or default]: [None] and a falsy [x] both give the default. *)
Definition py_or {A : Type} (falsy : A -> bool) (x : option A) (default : A) : A :=
  match x with
  | Some v => if falsy v then default else v
  | None => default
  end.

(* ====================================================================== *)
(** * Configuration constants ([router.py], lines 28-76) *)
(* ====================================================================== *)

Module TIMEOUTS.
Definition connection : Z := 8.
Definition command : Z := 12.
Definition auth : Z := 15.
Definition banner : Z := 10.
Definition read_prompt : Z := 8.
End TIMEOUTS.

Module RETRY_CONFIG.
Definition max_attempts : Z := 3.
Definition base_delay : Q := 3 # 2.
Definition max_delay : Q := 8 # 1.
Definition backoff_multiplier : Q := 2 # 1.
End RETRY_CONFIG.

Module CACHE_TTLS.
Definition interfaces : Z := 45.
Definition pppoe_stats : Z := 20.
Definition system_metrics : Z := 60.
Definition traffic_data : Z := 30.
Definition connection_test : Z := 15.
End CACHE_TTLS.

Module CONNECTION_POOL_CONFIG.
Definition max_connections : nat := 5.
Definition idle_timeout : Z := 300.
Definition max_age : Z := 1800.
End CONNECTION_POOL_CONFIG.

(* ====================================================================== *)
(** * SmartCache ([router.py], lines 366-554) *)
(* ====================================================================== *)

Module Cache.

(** The dictionary [cached_data] built by [set].  The two timestamps are
    kept as instants; Python stores their ISO text and parses it back. *)
Record entry : Type := mk_entry {
  data : value;
  expires_at : Z;
  created_at : Z
}.

(** [self.memory_cache]: a Python dict, insertion-ordered. *)
Definition memory := list (string * entry).

Fixpoint dict_get (key : string) (m : memory) : option entry :=
  match m with
  | [] => None
  | (k, e) :: rest => if String.eqb k key then Some e else dict_get key rest
  end.

(** [m[key] = e]: a present key keeps its place, a new one goes last. *)
Fixpoint dict_set (key : string) (e : entry) (m : memory) : memory :=
  match m with
  | [] => [(key, e)]
  | (k, e') :: rest =>
      if String.eqb k key then (k, e) :: rest else (k, e') :: dict_set key e rest
  end.

(** [del m[key]] *)
Fixpoint dict_del (key : string) (m : memory) : memory :=
  match m with
  | [] => []
  | (k, e) :: rest =>
      if String.eqb k key then rest else (k, e) :: dict_del key rest
  end.

(** The Redis server as the client sees it: under each key the stored
    entry (the JSON text of [cached_data]) and the instant at which Redis
    itself drops the key. *)
Definition remote := list (string * (entry * Z)).

Fixpoint remote_lookup (key : string) (r : remote) : option (entry * Z) :=
  match r with
  | [] => None
  | (k, x) :: rest => if String.eqb k key then Some x else remote_lookup key rest
  end.

(** [redis_client.get(key)] at instant [now]; [up = false] is a call that
    raises (connection refused, socket timeout). *)
Definition redis_get (up : bool) (now : Z) (key : string) (r : remote)
  : result (option entry) :=
  if up then
    match remote_lookup key r with
    | Some (e, deadline) => Return (if now <? deadline then Some e else None)
    | None => Return None
    end
  else Raise (Exception "ConnectionError" "redis unavailable").

(** [redis_client.setex(key, ttl, text)]: Redis refuses a non-positive
    expire time; otherwise the key is overwritten. *)
Definition redis_setex (up : bool) (now : Z) (key : string) (ttl : Z)
                       (e : entry) (r : remote) : result remote :=
  if up then
    if 0 <? ttl then Return ((key, (e, now + ttl)) :: r)
    else Raise (Exception "ResponseError" "invalid expire time in 'setex' command")
  else Raise (Exception "ConnectionError" "redis unavailable").

Record stats : Type := mk_stats {
  hits : Z;
  misses : Z;
  redis_hits : Z;
  memory_hits : Z
}.

Record SmartCache : Type := mk_cache {
  redis_client : option remote;      (* [None]: the ping of [_initialize_redis] failed *)
  memory_cache : memory;
  cache_stats : stats
}.

(** [SmartCache()] when Redis does not answer the ping. *)
Definition empty_local : SmartCache :=
  mk_cache None [] (mk_stats 0 0 0 0).

(** [_is_valid_cache_entry]: [datetime.now() < expires_at]. *)
Definition _is_valid_cache_entry (now : Z) (cached_data : entry) : bool :=
  now <? expires_at cached_data.

(** [sorted(items, key=created_at)]: a stable sort, smallest first. *)
Fixpoint insert_by_created (x : string * entry) (l : memory) : memory :=
  match l with
  | [] => [x]
  | y :: rest =>
      if created_at (snd x) <=? created_at (snd y) then x :: l
      else y :: insert_by_created x rest
  end.

Definition sorted_by_created (l : memory) : memory :=
  fold_right insert_by_created [] l.

(** [items[-n:]] *)
Definition last_n {A : Type} (n : nat) (l : list A) : list A :=
  skipn (List.length l - n) l.

(** [_cleanup_memory_cache]: drop the expired entries, then, above 100
    entries, keep the 50 created last. *)
Definition _cleanup_memory_cache (now : Z) (m : memory) : memory :=
  let m1 := filter (fun kv => _is_valid_cache_entry now (snd kv)) m in
  if (100 <? List.length m1)%nat then last_n 50 (sorted_by_created m1) else m1.

Definition count_hit_redis (s : stats) : stats :=
  mk_stats (hits s + 1) (misses s) (redis_hits s + 1) (memory_hits s).

Definition count_hit_memory (s : stats) : stats :=
  mk_stats (hits s + 1) (misses s) (redis_hits s) (memory_hits s + 1).

Definition count_miss (s : stats) : stats :=
  mk_stats (hits s) (misses s + 1) (redis_hits s) (memory_hits s).

(** The Redis half of [get]: a valid entry read from Redis, or nothing
    (no client, an exception, a miss or an entry past [expires_at]). *)
Definition get_redis_tier (up : bool) (now : Z) (key : string) (c : SmartCache)
  : option entry :=
  match redis_client c with
  | Some r =>
      match redis_get up now key r with
      | Return (Some cached_data) =>
          if _is_valid_cache_entry now cached_data then Some cached_data else None
      | Return None => None
      | Raise _ => None
      end
  | None => None
  end.

(** [SmartCache.get].  The result is the Python value returned, [VNone]
    standing for [None]. *)
Definition get (up : bool) (now : Z) (key : string) (c : SmartCache)
  : value * SmartCache :=
  match get_redis_tier up now key c with
  | Some cached_data =>
      (data cached_data,
       mk_cache (redis_client c) (memory_cache c) (count_hit_redis (cache_stats c)))
  | None =>
      match dict_get key (memory_cache c) with
      | Some cached_data =>
          if _is_valid_cache_entry now cached_data then
            (data cached_data,
             mk_cache (redis_client c) (memory_cache c)
                      (count_hit_memory (cache_stats c)))
          else
            (VNone,
             mk_cache (redis_client c) (dict_del key (memory_cache c))
                      (count_miss (cache_stats c)))
      | None =>
          (VNone,
           mk_cache (redis_client c) (memory_cache c) (count_miss (cache_stats c)))
      end
  end.

(** [SmartCache.set], called at instant [now]. *)
Definition set (up : bool) (now : Z) (key : string) (v : value) (ttl_seconds : Z)
               (c : SmartCache) : SmartCache :=
  let cached_data := mk_entry v (now + ttl_seconds) now in
  let redis' :=
    match redis_client c with
    | Some r =>
        match redis_setex up now key ttl_seconds cached_data r with
        | Return r' => Some r'
        | Raise _ => Some r          (* logged at debug level, nothing else *)
        end
    | None => None
    end in
  mk_cache redis'
           (_cleanup_memory_cache now (dict_set key cached_data (memory_cache c)))
           (cache_stats c).

(** Notions used to state the properties of the local tier. *)

Definition keys (m : memory) : list string := map fst m.

(** How many entries were created at instant [t] or later. *)
Definition recent_count (t : Z) (m : memory) : nat :=
  List.length (filter (fun kv => t <=? created_at (snd kv)) m).

(** The entries of [m] ordered by creation time. *)
Definition by_created (x y : string * entry) : Prop :=
  created_at (snd x) <= created_at (snd y).

(** Redis holds under [key] nothing but the entry [e]. *)
Definition remote_not_stale (key : string) (e : entry) (c : SmartCache) : Prop :=
  forall r x deadline,
    redis_client c = Some r -> remote_lookup key r = Some (x, deadline) -> x = e.

(** [SmartCache()] when Redis answers the ping and holds nothing. *)
Definition empty_with_redis : SmartCache :=
  mk_cache (Some []) [] (mk_stats 0 0 0 0).

(** Sample payloads of the key [pppoe_stats]. *)
Definition pppoe_sample : value :=
  VDict [("active", VInt 5); ("total", VInt 7)].

Definition pppoe_sample_later : value :=
  VDict [("active", VInt 6); ("total", VInt 8)].

End Cache.

(* ====================================================================== *)
(** * Command normalisation and output cleaning
      ([router.py], lines 611-636 and 749-790; [router/utils.py]) *)
(* ====================================================================== *)

(** The test of [_optimize_commands] and the suffix it adds. *)
Definition needs_no_more (cmd : string) : bool :=
  Str.startswith "display" cmd
  && negb (Str.contains "| no-more" cmd)
  && negb (Str.contains "|" cmd).

Definition add_no_more (cmd : string) : string :=
  if needs_no_more cmd then String.append cmd " | no-more" else cmd.

(** [RouterConnection._optimize_commands] and [utils.optimize_commands]
    (the two bodies are the same text). *)
Fixpoint _optimize_commands (commands : list string) : list string :=
  match commands with
  | [] => []
  | cmd :: rest =>
      let cmd := Str.strip cmd in
      if Str.is_empty cmd then _optimize_commands rest
      else add_no_more cmd :: _optimize_commands rest
  end.

Definition optimize_commands : list string -> list string := _optimize_commands.

(** A line [_clean_ssh_output] drops: it ends in a prompt character or is
    empty. *)
Definition ssh_prompt_or_blank (line : string) : bool :=
  Str.endswith_char ">" line || Str.endswith_char "#" line
  || Str.endswith_char "]" line || Str.endswith_char "<" line
  || Str.is_empty line.

(** The loop of [_clean_ssh_output]; [skip_command] is its flag. *)
Fixpoint clean_ssh_lines (command : string) (skip_command : bool)
                         (lines : list string) : list string :=
  match lines with
  | [] => []
  | line :: rest =>
      let line := Str.strip line in
      if skip_command && Str.contains (Str.strip command) line
      then clean_ssh_lines command false rest
      else if ssh_prompt_or_blank line
           then clean_ssh_lines command skip_command rest
           else line :: clean_ssh_lines command skip_command rest
  end.

Definition _clean_ssh_output (output command : string) : string :=
  Str.strip (Str.join_lines (clean_ssh_lines command true (Str.split_lines output))).

Fixpoint clean_telnet_lines (command : string) (lines : list string) : list string :=
  match lines with
  | [] => []
  | line :: rest =>
      let line := Str.strip line in
      if Str.contains (Str.strip command) line
         || Str.endswith_char ">" line || Str.is_empty line
      then clean_telnet_lines command rest
      else line :: clean_telnet_lines command rest
  end.

Definition _clean_telnet_output (output command : string) : string :=
  Str.strip (Str.join_lines (clean_telnet_lines command (Str.split_lines output))).

(** [utils.clean_command_output] *)
Definition clean_command_output (output command protocol : string) : string :=
  if String.eqb protocol "ssh" then _clean_ssh_output output command
  else _clean_telnet_output output command.

(* ====================================================================== *)
(** * The outside world: device, sockets and wall clock *)
(* ====================================================================== *)

(** A live [paramiko.SSHClient] or [telnetlib.Telnet] object. *)
Definition handle := nat.

(** What an observer of the process sees, oldest event first. *)
Inductive event : Type :=
| EvCall (name : string)                 (* a retry wrapper invokes its function *)
| EvSleep (seconds : Q)                  (* [time.sleep(seconds)] returned *)
| EvSend (h : handle) (command : string) (* a command is written to a session *)
| EvClose (h : handle).                  (* [connection.close()] *)

(** The library calls of the program, as transitions of a state [D] the
    program cannot see into.  A call that can raise returns a [result]. *)
Class Environment (D : Type) : Type := {
  clock : D -> Z;                                        (* [datetime.now()] *)
  sleep_for : Q -> D -> D;                               (* [time.sleep] *)
  connect_ssh : D -> result handle * D;                  (* [SSHClient.connect] *)
  connect_telnet : D -> result handle * D;               (* [Telnet(...)] and login *)
  transport_active : handle -> D -> result bool;         (* [get_transport().is_active()] *)
  close_handle : handle -> D -> D;                       (* [close()], errors swallowed *)
  invoke_shell : handle -> D -> result unit * D;         (* [invoke_shell], [settimeout] *)
  wait_for_prompt : handle -> D -> result unit * D;      (* [_wait_for_prompt] *)
  shell_close : handle -> D -> D;                        (* [shell.close()] *)
  ssh_exchange : handle -> string -> D -> result string * D;
      (* [shell.send] and the receive loop of [_read_command_output]:
         the decoded text read back *)
  telnet_exchange : handle -> string -> D -> result string * D;
      (* [write], [read_until] and [decode] *)
  redis_up : D -> bool                                   (* does Redis answer now *)
}.

(** [ConnectionInfo] *)
Record ConnectionInfo : Type := mk_conn {
  connection : handle;
  protocol : string;
  created_at : Z;
  last_used : Z;
  is_healthy : bool;
  usage_count : Z
}.

(** [RouterConnection]: the settings read from the process environment. *)
Record RouterConnection : Type := mk_router {
  host : string;
  username : string;
  password : string;
  router_protocol : string
}.

(** [ConnectionInfo.is_expired], with [now] the instant of the call. *)
Definition is_expired (now : Z) (ci : ConnectionInfo) : bool :=
  let idle_time := now - last_used ci in
  let age := now - created_at ci in
  (idle_time >? CONNECTION_POOL_CONFIG.idle_timeout)
  || (age >? CONNECTION_POOL_CONFIG.max_age).

(** [ConnectionInfo.mark_used] *)
Definition mark_used (now : Z) (ci : ConnectionInfo) : ConnectionInfo :=
  mk_conn (connection ci) (protocol ci) (created_at ci) now
          (is_healthy ci) (usage_count ci + 1).

Definition mark_unhealthy (ci : ConnectionInfo) : ConnectionInfo :=
  mk_conn (connection ci) (protocol ci) (created_at ci) (last_used ci)
          false (usage_count ci).

Section Router.

Context {D : Type} `{Environment D}.

(** The process state: the outside world, the idle queue of the
    connection pool (front first) and the events so far. *)
Record World : Type := mk_world {
  env : D;
  pool : list ConnectionInfo;
  trace : list event
}.

Definition M (A : Type) : Type := World -> result A * World.

Definition set_env (d : D) (w : World) : World := mk_world d (pool w) (trace w).
Definition set_pool (q : list ConnectionInfo) (w : World) : World :=
  mk_world (env w) q (trace w).
Definition emit (ev : event) (w : World) : World :=
  mk_world (env w) (pool w) (trace w ++ [ev]).

Definition now (w : World) : Z := clock (env w).

(** [time.sleep]: a negative argument is a [ValueError]. *)
Definition time_sleep (seconds : Q) : M unit :=
  fun w =>
    if Qle_bool 0 seconds
    then (Return tt, emit (EvSleep seconds) (set_env (sleep_for seconds (env w)) w))
    else (Raise (Exception "ValueError" "sleep length must be non-negative"), w).

(* ---------------------------------------------------------------------- *)
(** ** Decorators ([router.py], lines 83-141) *)

(** [RETRY_CONFIG['backoff_multiplier'] ** attempt]: a power of the
    float 2.0.  From [attempt = 1024] on it is out of the float range,
    and Python raises an [OverflowError]. *)
Definition backoff_power (attempt : nat) : result Q :=
  if (1024 <=? attempt)%nat
  then Raise (Exception "OverflowError" "(34, 'Numerical result out of range')")
  else Return (RETRY_CONFIG.backoff_multiplier ^ Z.of_nat attempt)%Q.

(** [min(base_delay * (backoff_multiplier ** attempt), max_delay)] *)
Definition retry_delay (base_delay : Q) (attempt : nat) : result Q :=
  match backoff_power attempt with
  | Return power => Return (Qmin (base_delay * power)%Q RETRY_CONFIG.max_delay)
  | Raise e => Raise e
  end.

(** [raise last_exception]; raising [None] is a [TypeError]. *)
Definition raise_last {A : Type} (last_exception : option exn) : M A :=
  fun w =>
    match last_exception with
    | Some e => (Raise e, w)
    | None => (Raise (Exception "TypeError" "exceptions must derive from BaseException"), w)
    end.

(** The [for attempt in range(attempts)] loop of the wrapper; [todo] is
    what is left of the range. *)
Fixpoint retry_loop {A : Type} (name : string) (func : M A) (attempts : Z)
                    (base_delay : Q) (todo : list nat)
                    (last_exception : option exn) : M A :=
  fun w =>
    match todo with
    | [] => raise_last last_exception w
    | attempt :: rest =>
        match func (emit (EvCall name) w) with
        | (Return a, w1) => (Return a, w1)
        | (Raise e, w1) =>
            if Z.of_nat attempt =? attempts - 1 then raise_last (Some e) w1
            else
              match retry_delay base_delay attempt with
              | Raise e' => (Raise e', w1)
              | Return seconds =>
                  match time_sleep seconds w1 with
                  | (Return _, w2) =>
                      retry_loop name func attempts base_delay rest (Some e) w2
                  | (Raise e', w2) => (Raise e', w2)
                  end
              end
        end
    end.

(** [retry_on_failure(max_attempts, delay)(func)] *)
Definition retry_on_failure {A : Type} (max_attempts : option Z) (delay : option Q)
                            (name : string) (func : M A) : M A :=
  let attempts := py_or (Z.eqb 0) max_attempts RETRY_CONFIG.max_attempts in
  let base_delay := py_or (Qeq_bool 0) delay RETRY_CONFIG.base_delay in
  retry_loop name func attempts base_delay (seq 0 (Z.to_nat attempts)) None.

(** [with_timeout(timeout_seconds)(func)].  The worker thread always runs
    [func] to its end (leaving the [with] block joins it); when that took
    longer than the budget, its outcome is replaced by a [TimeoutError]
    whose text names the function and the budget. *)
Definition with_timeout {A : Type} (timeout_seconds : Z) (name : string)
                        (func : M A) : M A :=
  fun w =>
    let started := now w in
    let (r, w1) := func w in
    if timeout_seconds <? now w1 - started
    then (Raise (Exception "TimeoutError"
                   (String.append name
                      (String.append " excedeu timeout de "
                         (String.append (decimal_text timeout_seconds) "s")))), w1)
    else (r, w1).

(* ---------------------------------------------------------------------- *)
(** ** ConnectionPool ([router.py], lines 174-359) *)

(** [_close_connection]: both protocols call [close()]. *)
Definition _close_connection (conn_info : ConnectionInfo) (w : World) : World :=
  emit (EvClose (connection conn_info))
       (set_env (close_handle (connection conn_info) (env w)) w).

(** [_test_connection_health]: any exception counts as unhealthy. *)
Definition _test_connection_health (conn_info : ConnectionInfo) (w : World) : bool :=
  if String.eqb (protocol conn_info) "ssh" then
    match transport_active (connection conn_info) (env w) with
    | Return b => b
    | Raise _ => false
    end
  else true.

(** [_create_new_connection] *)
Definition _create_new_connection (router_connection : RouterConnection)
  : M ConnectionInfo :=
  fun w =>
    if String.eqb (router_protocol router_connection) "ssh" then
      match connect_ssh (env w) with
      | (Return h, d) =>
          (Return (mk_conn h "ssh" (clock d) (clock d) true 0), set_env d w)
      | (Raise e, d) => (Raise e, set_env d w)
      end
    else
      match connect_telnet (env w) with
      | (Return h, d) =>
          (Return (mk_conn h "telnet" (clock d) (clock d) true 0), set_env d w)
      | (Raise e, d) => (Raise e, set_env d w)
      end.

(** [Queue.put_nowait] on a queue of [max_connections] places; [None] is
    the [Full] exception. *)
Definition put_nowait (conn_info : ConnectionInfo) (w : World) : option World :=
  if (List.length (pool w) <? CONNECTION_POOL_CONFIG.max_connections)%nat
  then Some (set_pool (pool w ++ [conn_info]) w)
  else None.

(** The first loop of [_cleanup_expired_connections]: empty the queue,
    keep the connections that are neither expired nor unhealthy, close
    the others. *)
Fixpoint drain_pool (queue active : list ConnectionInfo) (w : World)
  : list ConnectionInfo * World :=
  match queue with
  | [] => (active, w)
  | conn_info :: rest =>
      let w1 := set_pool rest w in
      if negb (is_expired (now w1) conn_info) && is_healthy conn_info
      then drain_pool rest (active ++ [conn_info]) w1
      else drain_pool rest active (_close_connection conn_info w1)
  end.

(** Its second loop: put the kept connections back. *)
Fixpoint refill_pool (active : list ConnectionInfo) (w : World) : World :=
  match active with
  | [] => w
  | conn_info :: rest =>
      match put_nowait conn_info w with
      | Some w1 => refill_pool rest w1
      | None => refill_pool rest (_close_connection conn_info w)
      end
  end.

Definition _cleanup_expired_connections (w : World) : World :=
  let (active, w1) := drain_pool (pool w) [] w in
  refill_pool active w1.

(** [get_connection] up to its [yield]: pop the front of the queue and
    keep it unless it is expired or fails the health probe; otherwise
    create a connection; mark the result used.  An exception here leaves
    [conn_info] unset, so the [finally] clause does nothing. *)
Definition acquire (router_connection : RouterConnection) : M ConnectionInfo :=
  fun w =>
    let (popped, w1) :=
      match pool w with
      | [] => (None, w)
      | conn_info :: rest =>
          let w0 := set_pool rest w in
          if is_expired (now w0) conn_info
             || negb (_test_connection_health conn_info w0)
          then (None, _close_connection conn_info w0)
          else (Some conn_info, w0)
      end in
    match popped with
    | Some conn_info => (Return (mark_used (now w1) conn_info), w1)
    | None =>
        match _create_new_connection router_connection w1 with
        | (Return conn_info, w2) => (Return (mark_used (now w2) conn_info), w2)
        | (Raise e, w2) => (Raise e, w2)
        end
    end.

(** [get_connection] after its [yield]: the [except] clause marks the
    connection unhealthy when the caller's block raised; the [finally]
    clause queues a healthy, unexpired connection and closes any other. *)
Definition release (conn_info : ConnectionInfo) (raised : bool) (w : World) : World :=
  let conn_info := if raised then mark_unhealthy conn_info else conn_info in
  if is_healthy conn_info && negb (is_expired (now w) conn_info) then
    match put_nowait conn_info w with
    | Some w1 => w1
    | None => _close_connection conn_info w
    end
  else _close_connection conn_info w.

(** [with self.connection_pool.get_connection(self) as conn_info: body] *)
Definition get_connection {A : Type} (router_connection : RouterConnection)
                          (body : ConnectionInfo -> M A) : M A :=
  fun w =>
    match acquire router_connection w with
    | (Raise e, w1) => (Raise e, w1)
    | (Return conn_info, w1) =>
        match body conn_info w1 with
        | (Return a, w2) => (Return a, release conn_info false w2)
        | (Raise e, w2) => (Raise e, release conn_info true w2)
        end
    end.

(* ---------------------------------------------------------------------- *)
(** ** RouterConnection ([router.py], lines 561-829) *)

(** The [for command in commands] loop of [_execute_ssh_commands]. *)
Fixpoint ssh_command_loop (ssh_client : handle) (commands results : list string)
  : M (list string) :=
  fun w =>
    match commands with
    | [] => (Return results, w)
    | command :: rest =>
        let w1 := emit (EvSend ssh_client command) w in
        match ssh_exchange ssh_client command (env w1) with
        | (Return raw, d) =>
            ssh_command_loop ssh_client rest
              (results ++ [_clean_ssh_output raw command]) (set_env d w1)
        | (Raise e, d) => (Raise e, set_env d w1)
        end
    end.

(** [_execute_ssh_commands]: the [except] clause re-raises, the [finally]
    clause closes the shell once it exists. *)
Definition _execute_ssh_commands (ssh_client : handle) (commands : list string)
  : M (list string) :=
  fun w =>
    match invoke_shell ssh_client (env w) with
    | (Raise e, d) => (Raise e, set_env d w)
    | (Return _, d) =>
        let w1 := set_env d w in
        let (r, w3) :=
          match wait_for_prompt ssh_client (env w1) with
          | (Raise e, d2) => (Raise e, set_env d2 w1)
          | (Return _, d2) => ssh_command_loop ssh_client commands [] (set_env d2 w1)
          end in
        (r, set_env (shell_close ssh_client (env w3)) w3)
    end.

(** [_execute_telnet_commands] *)
Fixpoint telnet_command_loop (telnet_conn : handle) (commands results : list string)
  : M (list string) :=
  fun w =>
    match commands with
    | [] => (Return results, w)
    | command :: rest =>
        let w1 := emit (EvSend telnet_conn command) w in
        match telnet_exchange telnet_conn command (env w1) with
        | (Return raw, d) =>
            telnet_command_loop telnet_conn rest
              (results ++ [_clean_telnet_output raw command]) (set_env d w1)
        | (Raise e, d) => (Raise e, set_env d w1)
        end
    end.

Definition _execute_telnet_commands (telnet_conn : handle) (commands : list string)
  : M (list string) :=
  telnet_command_loop telnet_conn commands [].

(** What the [with] block of [execute_commands] runs on the connection. *)
Definition run_batch (optimized_commands : list string) (conn_info : ConnectionInfo)
  : M (list string) :=
  if String.eqb (protocol conn_info) "ssh"
  then _execute_ssh_commands (connection conn_info) optimized_commands
  else _execute_telnet_commands (connection conn_info) optimized_commands.

(** The undecorated body of [execute_commands]: every exception of the
    [with] block becomes the one-element list [["Error: ..."]]. *)
Definition execute_commands_body (self : RouterConnection) (commands : list string)
  : M (list string) :=
  fun w =>
    match commands with
    | [] => (Return [], w)
    | _ :: _ =>
        let optimized_commands := _optimize_commands commands in
        match get_connection self (run_batch optimized_commands) w with
        | (Return results, w1) => (Return results, w1)
        | (Raise e, w1) => (Return [String.append "Error: " (exn_msg e)], w1)
        end
    end.

(** [execute_commands], under [@retry_on_failure()] and
    [@with_timeout(TIMEOUTS['command'] * 2)]. *)
Definition execute_commands (self : RouterConnection) (commands : list string)
  : M (list string) :=
  retry_on_failure None None "execute_commands"
    (with_timeout (TIMEOUTS.command * 2) "execute_commands"
       (execute_commands_body self commands)).

(** The undecorated body of [test_connection]. *)
Definition test_connection_body (self : RouterConnection) : M bool :=
  fun w =>
    match execute_commands self ["display version"] w with
    | (Return result, w1) =>
        match result with
        | first :: _ => (Return (negb (Str.contains "Error:" first)), w1)
        | [] => (Return false, w1)
        end
    | (Raise _, w1) => (Return false, w1)
    end.

(** [test_connection], under [@retry_on_failure(max_attempts=2)]. *)
Definition test_connection (self : RouterConnection) : M bool :=
  retry_on_failure (Some 2) None "test_connection" (test_connection_body self).

(** The loop of [execute_router_commands] over its commands;
    [format_target target cmd] stands for [cmd.format(target=target)],
    which raises on any other brace field. *)
Fixpoint format_commands (format_target : string -> string -> result string)
                         (target : string) (commands : list string)
  : result (list string) :=
  match commands with
  | [] => Return []
  | cmd :: rest =>
      let formatted_cmd :=
        if Str.contains "{target}" cmd then format_target target cmd else Return cmd in
      match formatted_cmd with
      | Raise e => Raise e
      | Return c =>
          match format_commands format_target target rest with
          | Return cs => Return (c :: cs)
          | Raise e => Raise e
          end
      end
  end.

(** [execute_router_commands].  [settings] is the outcome of
    [RouterConnection()], which raises a [ValueError] when host, user or
    password is missing from the process environment; the new object
    owns a new, empty pool, dropped with it on return. *)
Definition execute_router_commands (format_target : string -> string -> result string)
                                   (settings : result RouterConnection)
                                   (target : string) (commands : list string)
  : M (list string) :=
  fun w =>
    match format_commands format_target target commands with
    | Raise e => (Return [String.append "Error: " (exn_msg e)], w)
    | Return formatted_commands =>
        match settings with
        | Raise e => (Return [String.append "Error: " (exn_msg e)], w)
        | Return router =>
            match execute_commands router formatted_commands (set_pool [] w) with
            | (Return results, w1) => (Return results, set_pool (pool w) w1)
            | (Raise e, w1) =>
                (Return [String.append "Error: " (exn_msg e)], set_pool (pool w) w1)
            end
        end
    end.

End Router.

Arguments World D : clear implicits.
Arguments M D A : clear implicits.

(* ====================================================================== *)
(** * Parsers ([router.py], lines 985-1093) *)
(* ====================================================================== *)

Module Parsers.

Record InterfaceRecord : Type := mk_interface {
  name : string;
  status : string;
  protocol : string;
  ip_address : string;
  description : string;
  utilization_in : Z;
  utilization_out : Z;
  last_update : Z
}.

(** [' '.join(parts)] *)
Definition join_spaces (parts : list string) : string := String.concat " " parts.

(** One turn of the loop of [parse_interface_output_optimized]. *)
Definition parse_interface_line (now : Z) (line : string) : option InterfaceRecord :=
  let line := Str.strip line in
  if Str.is_empty line || Str.contains "Interface" line || Str.contains "------" line
  then None
  else
    let parts := Str.split_ws line in
    if (3 <=? List.length parts)%nat then
      Some (mk_interface
              (nth 0 parts EmptyString)
              (if (1 <? List.length parts)%nat then nth 1 parts EmptyString else "Unknown")
              (if (2 <? List.length parts)%nat then nth 2 parts EmptyString else "Unknown")
              (if (3 <? List.length parts)%nat then nth 3 parts EmptyString else EmptyString)
              (if (4 <? List.length parts)%nat then join_spaces (skipn 4 parts) else EmptyString)
              0 0 now)
    else None.

Fixpoint parse_interface_lines (now : Z) (lines : list string) : list InterfaceRecord :=
  match lines with
  | [] => []
  | line :: rest =>
      match parse_interface_line now line with
      | Some interface => interface :: parse_interface_lines now rest
      | None => parse_interface_lines now rest
      end
  end.

Definition parse_interface_output_optimized (now : Z) (output : string)
  : list InterfaceRecord :=
  if Str.is_empty output || Str.contains "Error:" output then []
  else parse_interface_lines now (Str.split_lines output).

Record PppoeStats : Type := mk_pppoe {
  total : Z;
  active : Z;
  peak : Z;
  authenticated : Z;
  stats_last_update : Z
}.

(** The [ValueError] of [int(part)] for a [part] made of digit
    characters: more than 4300 leading decimal digits exceed the
    interpreter's limit; otherwise the literal is invalid, and the
    message quotes it ([repr] of a text of digit characters is the text
    between single quotes). *)
Definition int_error (part : string) : exn :=
  if (4300 <? Str.leading_decimals part)%nat then
    Exception "ValueError"
      (String.append "Exceeds the limit (4300 digits) for integer string conversion: value has "
         (String.append (decimal_text (Z.of_nat (Str.leading_decimals part)))
            " digits; use sys.set_int_max_str_digits() to increase the limit"))
  else
    Exception "ValueError"
      (String.append "invalid literal for int() with base 10: '"
         (String.append part "'")).

(** [for part in parts: if part.isdigit(): ... = int(part); break] *)
Fixpoint first_number (parts : list string) : result (option Z) :=
  match parts with
  | [] => Return None
  | part :: rest =>
      if Str.isdigit part then
        match Str.int_of part with
        | Some n => Return (Some n)
        | None => Raise (int_error part)
        end
      else first_number rest
  end.

Definition with_total (n : Z) (s : PppoeStats) : PppoeStats :=
  mk_pppoe n (active s) (peak s) (authenticated s) (stats_last_update s).

Definition with_active (n : Z) (s : PppoeStats) : PppoeStats :=
  mk_pppoe (total s) n (peak s) (authenticated s) (stats_last_update s).

(** The loop over the lines of one result. *)
Fixpoint pppoe_lines (lines : list string) (stats : PppoeStats) : result PppoeStats :=
  match lines with
  | [] => Return stats
  | line :: rest =>
      let line := Str.lower (Str.strip line) in
      if Str.contains "total" line && Str.contains "user" line then
        match first_number (Str.split_ws line) with
        | Raise e => Raise e
        | Return (Some n) => pppoe_lines rest (with_total n stats)
        | Return None => pppoe_lines rest stats
        end
      else if Str.contains "active" line && Str.contains "session" line then
        match first_number (Str.split_ws line) with
        | Raise e => Raise e
        | Return (Some n) => pppoe_lines rest (with_active n stats)
        | Return None => pppoe_lines rest stats
        end
      else pppoe_lines rest stats
  end.

(** The loop over the results. *)
Fixpoint pppoe_results (results : list string) (stats : PppoeStats) : result PppoeStats :=
  match results with
  | [] => Return stats
  | r :: rest =>
      if Str.is_empty r || Str.contains "Error:" r then pppoe_results rest stats
      else
        match pppoe_lines (Str.split_lines r) stats with
        | Return stats' => pppoe_results rest stats'
        | Raise e => Raise e
        end
  end.

Definition zeroed (now : Z) : PppoeStats := mk_pppoe 0 0 0 0 now.

Definition parse_pppoe_stats_optimized (now : Z) (results : list string)
  : result PppoeStats :=
  pppoe_results results (zeroed now).

End Parsers.

(* ====================================================================== *)
(** * RouterBackgroundService ([background_service.py]) *)
(* ====================================================================== *)

Section Poller.

Context {D : Type} `{Environment D}.

(** The poller's router and the module-level [router_cache]. *)
Record PollerState : Type := mk_poller {
  world : World D;
  router_cache : Cache.SmartCache
}.

(** [router_cache.set(key, data, ttl)] from the poller's thread. *)
Definition router_cache_set (key : string) (v : value) (ttl : Z) (p : PollerState)
  : PollerState :=
  mk_poller (world p)
    (Cache.set (redis_up (env (world p))) (now (world p)) key v ttl (router_cache p)).

(** The dictionary [fallback_data], in its order of insertion. *)
Definition fallback_data : list (string * value) :=
  [ ("router_interfaces", VList []);
    ("pppoe_stats",
       VDict [("total", VInt 0); ("active", VInt 0); ("peak", VInt 0);
              ("max_users", VInt 0)]);
    ("system_metrics",
       VDict [("cpu", VInt 0); ("memory", VInt 0); ("uptime", VStr "Unknown");
              ("version", VStr "Unknown"); ("serial", VStr "Unknown");
              ("temperature", VInt 0); ("power_status", VStr "Normal");
              ("model", VStr "NE8000")]);
    ("network_traffic",
       VDict [("inbound", VFloat 0); ("outbound", VFloat 0); ("total", VFloat 0);
              ("peak_in", VFloat 0); ("peak_out", VFloat 0)]) ].

Definition offline_status : value :=
  VDict [("online", VBool false); ("last_error", VStr "Connection failed")].

(** [_set_fallback_data] *)
Definition _set_fallback_data (p : PollerState) : PollerState :=
  let p1 := fold_left (fun q kv => router_cache_set (fst kv) (snd kv) 60 q)
                      fallback_data p in
  router_cache_set "router_status" offline_status 60 p1.

(** The keys of [self.update_intervals]. *)
Definition data_types : list string :=
  ["interfaces"; "pppoe_stats"; "system_metrics"; "traffic_data"].

(** [_update_data_type] catches every exception of the update it
    dispatches to; the updates themselves are left abstract. *)
Variable _update_data_type : string -> PollerState -> PollerState.

(** One turn of the collection loop: the update, then [time.sleep(2)]. *)
Definition collect_one (p : PollerState) (data_type : string) : PollerState :=
  let p1 := _update_data_type data_type p in
  mk_poller (snd (time_sleep (2 # 1) (world p1))) (router_cache p1).

(** [_initial_data_collection] *)
Definition _initial_data_collection (router : RouterConnection) (p : PollerState)
  : result unit * PollerState :=
  match test_connection router (world p) with
  | (Raise e, w1) => (Raise e, mk_poller w1 (router_cache p))
  | (Return false, w1) =>
      (Return tt, _set_fallback_data (mk_poller w1 (router_cache p)))
  | (Return true, w1) =>
      (Return tt, fold_left collect_one data_types (mk_poller w1 (router_cache p)))
  end.

End Poller.

Arguments PollerState D : clear implicits.

(* ====================================================================== *)
(** * The specification's wording, for comparison with the code *)
(* ====================================================================== *)

(** "Lacking any output-paging suppression": the command does not carry
    the paging-disable modifier. *)
Definition lacks_paging_suppression (cmd : string) : bool :=
  negb (Str.contains "| no-more" cmd).

(** Normalisation as the specification words it: trim, drop the empty
    commands, add the suffix to the display commands that lack it. *)
Definition normalize_as_specified (commands : list string) : list string :=
  map (fun cmd =>
         if Str.startswith "display" cmd && lacks_paging_suppression cmd
         then String.append cmd " | no-more" else cmd)
      (filter (fun cmd => negb (Str.is_empty cmd)) (map Str.strip commands)).

(** "Already-clean output": no line echoes the command and the last line
    is not a prompt. *)
Definition already_clean_as_specified (output command : string) : bool :=
  forallb (fun line => negb (Str.contains (Str.strip command) line))
          (Str.split_lines output)
  && negb (let line := last (Str.split_lines output) EmptyString in
           Str.endswith_char ">" line || Str.endswith_char "#" line
           || Str.endswith_char "]" line || Str.endswith_char "<" line).

(** A line that [_clean_ssh_output] keeps as it is: free of surrounding
    blanks, not empty, no prompt, and not an echo of the command. *)
Definition kept_as_is (command line : string) : bool :=
  String.eqb (Str.strip line) line
  && negb (ssh_prompt_or_blank line)
  && negb (Str.contains (Str.strip command) line).

(** An output made of such lines only (or empty). *)
Definition is_clean (command output : string) : bool :=
  Str.is_empty output || forallb (kept_as_is command) (Str.split_lines output).

(** The text ["a\nb..."] of a list of lines. *)
Definition text (lines : list string) : string := Str.join_lines lines.

(** First and last character of a text, and the tests on them used to
    describe trimmed lines. *)
Definition head_char (s : string) : option ascii :=
  match s with
  | EmptyString => None
  | String c _ => Some c
  end.

Fixpoint last_char (s : string) : option ascii :=
  match s with
  | EmptyString => None
  | String c EmptyString => Some c
  | String _ r => last_char r
  end.

Definition nonblank (o : option ascii) : bool :=
  match o with
  | Some c => negb (Str.isspace c)
  | None => false
  end.

Fixpoint has_char (c : ascii) (s : string) : bool :=
  match s with
  | EmptyString => false
  | String d r => Ascii.eqb d c || has_char c r
  end.

(** A line as [_clean_ssh_output] emits it: trimmed, not empty, no
    prompt, on one line. *)
Definition emitted_line (line : string) : Prop :=
  Str.strip line = line
  /\ ssh_prompt_or_blank line = false
  /\ has_char Str.newline line = false.

(* ====================================================================== *)
(** * Notions used to state the properties of the decorators and the pool *)
(* ====================================================================== *)

(** The calls of wrapped functions and the sleeps recorded in a trace. *)
Definition is_call (ev : event) : bool :=
  match ev with EvCall _ => true | _ => false end.

Definition call_count (evs : list event) : nat :=
  List.length (filter is_call evs).

Fixpoint sleeps_of (evs : list event) : list Q :=
  match evs with
  | [] => []
  | EvSleep d :: rest => d :: sleeps_of rest
  | _ :: rest => sleeps_of rest
  end.

Fixpoint sends_of (evs : list event) : list string :=
  match evs with
  | [] => []
  | EvSend _ command :: rest => command :: sends_of rest
  | _ :: rest => sends_of rest
  end.

Fixpoint closed_of (evs : list event) : list handle :=
  match evs with
  | [] => []
  | EvClose h :: rest => h :: closed_of rest
  | _ :: rest => closed_of rest
  end.

(** The delay after the failure of attempt number [i] (counted from 0),
    as a number: [min(base_delay * backoff_multiplier^i, max_delay)]. *)
Definition backoff_delay (base_delay : Q) (i : nat) : Q :=
  Qmin (base_delay * RETRY_CONFIG.backoff_multiplier ^ Z.of_nat i)%Q
       RETRY_CONFIG.max_delay.

(** What [n] failed attempts of a function that leaves the trace alone
    leave in it, the first of them being attempt number [first] of the
    loop: a call, the delay, a call, ... *)
Fixpoint failure_events (name : string) (base_delay : Q) (first n : nat) : list event :=
  match n with
  | O => []
  | S O => [EvCall name]
  | S n' =>
      EvCall name :: EvSleep (backoff_delay base_delay first)
        :: failure_events name base_delay (S first) n'
  end.

Section Notions.

Context {D : Type} `{Environment D}.

(** The number of attempts and the base delay the wrapper works with. *)
Definition effective_attempts (max_attempts : option Z) : Z :=
  py_or (Z.eqb 0) max_attempts RETRY_CONFIG.max_attempts.

Definition effective_delay (delay : option Q) : Q :=
  py_or (Qeq_bool 0) delay RETRY_CONFIG.base_delay.

(** The decorator is configured with [n] attempts: [max_attempts=n] for
    an [n] other than 0, or the default of [RETRY_CONFIG] when the
    argument is left out or is 0. *)
Definition configured_attempts (max_attempts : option Z) (n : Z) : Prop :=
  (max_attempts = Some n /\ n <> 0)
  \/ ((max_attempts = None \/ max_attempts = Some 0)
      /\ n = RETRY_CONFIG.max_attempts).

(** It is configured with the base delay [d]; a delay of 0 stands for the
    default as well. *)
Definition configured_delay (delay : option Q) (d : Q) : Prop :=
  (delay = Some d /\ Qeq_bool 0 d = false)
  \/ ((delay = None \/ exists z, delay = Some z /\ Qeq_bool 0 z = true)
      /\ d = RETRY_CONFIG.base_delay).

(** The state a completed [time.sleep(seconds)] leaves. *)
Definition slept (seconds : Q) (w : World D) : World D :=
  emit (EvSleep seconds) (set_env (sleep_for seconds (env w)) w).

(** The state in which the wrapper calls [func] for attempt number
    [first + i], every attempt from [first] on having failed so far and
    [w] being the state in which the loop reaches attempt [first]: the
    call is announced; between two attempts lies the sleep of the
    delay. *)
Fixpoint attempt_world_from {A : Type} (name : string) (func : M D A)
                            (base_delay : Q) (first i : nat) (w : World D) : World D :=
  match i with
  | O => emit (EvCall name) w
  | S j =>
      emit (EvCall name)
        (slept (backoff_delay base_delay (first + j))
           (snd (func (attempt_world_from name func base_delay first j w))))
  end.

(** The state in which attempt number [i] (from 0) of a wrapper entered
    in state [w] calls [func]. *)
Definition attempt_world {A : Type} (name : string) (func : M D A)
                         (base_delay : Q) (i : nat) (w : World D) : World D :=
  attempt_world_from name func base_delay 0 i w.

(** The state in which attempt number [i] of [execute_commands] runs the
    batch, and the test that a run of the batch started in [w_i] took
    longer than the budget of [TIMEOUTS['command'] * 2] seconds. *)
Definition batch_attempt (self : RouterConnection) (commands : list string)
                         (i : nat) (w : World D) : World D :=
  attempt_world "execute_commands"
    (with_timeout (TIMEOUTS.command * 2) "execute_commands"
       (execute_commands_body self commands))
    RETRY_CONFIG.base_delay i w.

Definition over_budget (self : RouterConnection) (commands : list string)
                       (w_i : World D) : Prop :=
  TIMEOUTS.command * 2
  < now (snd (execute_commands_body self commands w_i)) - now w_i.

(** [func] only adds to the trace, as every function of the program
    does. *)
Definition appends {A : Type} (func : M D A) : Prop :=
  forall w, exists evs, trace (snd (func w)) = trace w ++ evs.

(** What a call of [func] in state [w] adds to the trace. *)
Definition emitted_by {A : Type} (func : M D A) (w : World D) : list event :=
  skipn (List.length (trace w)) (trace (snd (func w))).

(** The events of the attempts 0 to [i]: each attempt is the wrapper's
    call followed by what the function did, and between two attempts
    lies the sleep of the delay. *)
Fixpoint attempts_log {A : Type} (name : string) (func : M D A)
                      (base_delay : Q) (i : nat) (w : World D) : list event :=
  match i with
  | O => EvCall name :: emitted_by func (attempt_world name func base_delay 0 w)
  | S j =>
      attempts_log name func base_delay j w
      ++ EvSleep (backoff_delay base_delay j)
         :: EvCall name
         :: emitted_by func (attempt_world name func base_delay (S j) w)
  end.

(** [func] itself calls no wrapped function and does not sleep (it may
    well send commands and close connections). *)
Definition unwrapped {A : Type} (func : M D A) : Prop :=
  forall w, call_count (emitted_by func w) = 0%nat
            /\ sleeps_of (emitted_by func w) = [].

(** The outside world after [close()] on each of [handles], in order. *)
Definition close_all (handles : list handle) (d : D) : D :=
  fold_left (fun d' h => close_handle h d') handles d.

(** What can happen to a pool over time: a caller enters
    [get_connection], a caller leaves it, the cleanup thread sweeps, or
    the outside world moves on (time passes, sessions die). *)
Inductive pool_step : Type :=
| StepAcquire
| StepRelease (conn_info : ConnectionInfo) (raised : bool)
| StepSweep
| StepWorld (f : D -> D).

(** A run of the pool; its first component lists what was yielded to
    callers, each with the instant of the yield. *)
Fixpoint run_pool (self : RouterConnection) (steps : list pool_step) (w : World D)
  : list (Z * ConnectionInfo) * World D :=
  match steps with
  | [] => ([], w)
  | StepAcquire :: rest =>
      match acquire self w with
      | (Return conn_info, w1) =>
          let (yields, w2) := run_pool self rest w1 in
          ((now w1, conn_info) :: yields, w2)
      | (Raise _, w1) => run_pool self rest w1
      end
  | StepRelease conn_info raised :: rest =>
      run_pool self rest (release conn_info raised w)
  | StepSweep :: rest => run_pool self rest (_cleanup_expired_connections w)
  | StepWorld f :: rest => run_pool self rest (set_env (f (env w)) w)
  end.

End Notions.

Arguments pool_step D : clear implicits.

(* ====================================================================== *)
(** * A scripted device, to run the program on concrete inputs *)
(* ====================================================================== *)

(** The device is reachable or not, takes [sim_latency] seconds to answer
    a command and drops the session on the command [sim_breaks_on]. *)
Record sim : Type := mk_sim {
  sim_clock : Z;
  sim_reachable : bool;
  sim_latency : Z;
  sim_breaks_on : string;
  sim_next_handle : nat
}.

Definition sim_tick (seconds : Z) (d : sim) : sim :=
  mk_sim (sim_clock d + seconds) (sim_reachable d) (sim_latency d)
         (sim_breaks_on d) (sim_next_handle d).

Definition sim_connect (d : sim) : result handle * sim :=
  if sim_reachable d
  then (Return (sim_next_handle d),
        mk_sim (sim_clock d) true (sim_latency d) (sim_breaks_on d)
               (S (sim_next_handle d)))
  else (Raise (Exception "TimeoutError" "timed out"), d).

Definition sim_exchange (h : handle) (command : string) (d : sim)
  : result string * sim :=
  if String.eqb command (sim_breaks_on d)
  then (Raise (Exception "OSError" "Socket is closed"), sim_tick (sim_latency d) d)
  else (Return (text [command; String.append "reply to " command; "<HUAWEI>"]),
        sim_tick (sim_latency d) d).

#[export] Instance sim_environment : Environment sim := {
  clock := sim_clock;
  sleep_for := fun seconds d => sim_tick (Qfloor seconds) d;
  connect_ssh := sim_connect;
  connect_telnet := sim_connect;
  transport_active := fun _ _ => Return true;
  close_handle := fun _ d => d;
  invoke_shell := fun _ d => (Return tt, d);
  wait_for_prompt := fun _ d => (Return tt, d);
  shell_close := fun _ d => d;
  ssh_exchange := sim_exchange;
  telnet_exchange := sim_exchange;
  redis_up := fun _ => false
}.

(** A process that starts at instant 0 with an empty pool. *)
Definition sim_world (reachable : bool) (latency : Z) (breaks_on : string) : World sim :=
  mk_world (mk_sim 0 reachable latency breaks_on 1) [] [].

Definition ssh_router : RouterConnection := mk_router "10.0.0.1" "admin" "secret" "ssh".

(** A function that raises whenever it is called. *)
Definition failing {A : Type} (message : string) : M sim A :=
  fun w => (Raise (Exception "RuntimeError" message), w).

(** A process at instant 2000 whose queue holds one connection opened
    and last used at instant 0. *)
Definition stale_connection : ConnectionInfo := mk_conn 1%nat "ssh" 0 0 true 3.

Definition sim_world_stale_pool : World sim :=
  mk_world (mk_sim 2000 true 1 EmptyString 2) [stale_connection] [].

(** The scripted device with a record of the handles closed on it, in
    the order of the calls of [close()]. *)
Record audited : Type := mk_audited {
  device : sim;
  closed_handles : list handle
}.

Definition audited_lift {A : Type} (f : sim -> A * sim) (a : audited) : A * audited :=
  let (r, d) := f (device a) in (r, mk_audited d (closed_handles a)).

Definition audited_environment : Environment audited := {|
  clock := fun a => sim_clock (device a);
  sleep_for := fun seconds a =>
                 mk_audited (sim_tick (Qfloor seconds) (device a)) (closed_handles a);
  connect_ssh := audited_lift sim_connect;
  connect_telnet := audited_lift sim_connect;
  transport_active := fun _ _ => Return true;
  close_handle := fun h a => mk_audited (device a) (closed_handles a ++ [h]);
  invoke_shell := fun _ a => (Return tt, a);
  wait_for_prompt := fun _ a => (Return tt, a);
  shell_close := fun _ a => a;
  ssh_exchange := fun h command => audited_lift (sim_exchange h command);
  telnet_exchange := fun h command => audited_lift (sim_exchange h command);
  redis_up := fun _ => false
|}.

(** The process of [sim_world_stale_pool] on the recording device. *)
Definition audited_world_stale_pool : World audited :=
  mk_world (mk_audited (mk_sim 2000 true 1 EmptyString 2) []) [stale_connection] [].

(** The one-character text SUPERSCRIPT TWO (U+00B2). *)
Definition superscript_two : string := String (ascii_of_nat 178) EmptyString.

(** The poller of a process whose device does not answer. *)
Definition sim_poller_unreachable : PollerState sim :=
  mk_poller (sim_world false 1 EmptyString) Cache.empty_local.

(* ====================================================================== *)
(** * Further notions: normalised commands and cleaned lines *)
(* ====================================================================== *)

(** A command as [_optimize_commands] emits it: trimmed, not empty, and
    carrying a pipe whenever it is a display command. *)
Definition normalised_command (cmd : string) : Prop :=
  Str.strip cmd = cmd
  /\ Str.is_empty cmd = false
  /\ (Str.startswith "display" cmd = true -> Str.contains "|" cmd = true).

(** A line as [_clean_telnet_output] emits it: trimmed, not empty, not
    ended by [>], on one line and free of the trimmed command. *)
Definition telnet_line (command line : string) : Prop :=
  Str.strip line = line
  /\ Str.is_empty line = false
  /\ Str.endswith_char ">" line = false
  /\ has_char Str.newline line = false
  /\ Str.contains (Str.strip command) line = false.

(* ====================================================================== *)
(** * SmartCache.clear ([router.py], lines 524-554) *)
(* ====================================================================== *)

Module CacheAdmin.

Import Cache.

(** [for key in keys_to_remove: del self.memory_cache[key]] *)
Definition delete_keys (keys_to_remove : list string) (m : memory) : memory :=
  fold_left (fun acc key => dict_del key acc) keys_to_remove m.

(** [keys = redis_client.keys(pattern)] then [redis_client.delete] on
    them: Redis removes the keys its own glob matcher [glob_match]
    selects; an entry shadowed by a later write of the same key goes
    with it. *)
Definition redis_delete_matching (glob_match : string -> string -> bool)
                                 (pattern : string) (r : remote) : remote :=
  filter (fun kx => negb (glob_match pattern (fst kx))) r.

(** [SmartCache.clear(pattern)].  An absent or empty pattern empties both
    tiers; otherwise Redis drops the keys its glob matcher selects and
    the local tier the keys that contain the pattern.  [up = false] is a
    Redis call that raises; the exception is logged and nothing else. *)
Definition clear (glob_match : string -> string -> bool) (up : bool)
                 (pattern : option string) (c : SmartCache) : SmartCache :=
  match pattern with
  | Some (String a p) =>
      let pattern := String a p in
      let redis' :=
        match redis_client c with
        | Some r => Some (if up then redis_delete_matching glob_match pattern r else r)
        | None => None
        end in
      let keys_to_remove :=
        filter (fun k => Str.contains pattern k) (keys (memory_cache c)) in
      mk_cache redis' (delete_keys keys_to_remove (memory_cache c)) (cache_stats c)
  | _ =>
      let redis' :=
        match redis_client c with
        | Some r => Some (if up then [] else r)
        | None => None
        end in
      mk_cache redis' [] (cache_stats c)
  end.

(** The number of requests [get_stats] reports: hits plus misses. *)
Definition total_requests (c : SmartCache) : Z :=
  hits (cache_stats c) + misses (cache_stats c).

End CacheAdmin.

(* ====================================================================== *)
(** * Further notions: words *)
(* ====================================================================== *)

(** A word: at least one character and no blank. *)
Definition word (s : string) : Prop :=
  Str.is_empty s = false
  /\ Str.all_chars (fun c => negb (Str.isspace c)) s = true.

(** What a run of the PPPoE parser keeps of the record it starts from. *)
Definition pppoe_kept (s s' : Parsers.PppoeStats) : Prop :=
  Parsers.peak s' = Parsers.peak s
  /\ Parsers.authenticated s' = Parsers.authenticated s
  /\ Parsers.stats_last_update s' = Parsers.stats_last_update s
  /\ (0 <= Parsers.total s -> 0 <= Parsers.total s')
  /\ (0 <= Parsers.active s -> 0 <= Parsers.active s').

(** The test of the cleanup sweep: [not conn_info.is_expired() and
    conn_info.is_healthy], at instant [t]. *)
Definition worth_keeping (t : Z) (conn_info : ConnectionInfo) : bool :=
  negb (is_expired t conn_info) && is_healthy conn_info.

(* ====================================================================== *)
(** * ConnectionPool.shutdown ([router.py], lines 348-359) *)
(* ====================================================================== *)

Section PoolShutdown.

Context {D : Type} `{Environment D}.

(** [while not self._pool.empty(): conn_info = self._pool.get_nowait();
    self._close_connection(conn_info)] *)
Fixpoint shutdown_loop (queue : list ConnectionInfo) (w : World D) : World D :=
  match queue with
  | [] => w
  | conn_info :: rest => shutdown_loop rest (_close_connection conn_info (set_pool rest w))
  end.

Definition shutdown (w : World D) : World D := shutdown_loop (pool w) w.

End PoolShutdown.

(* ====================================================================== *)
(** * The poller's updates ([background_service.py], lines 155-230) *)
(* ====================================================================== *)

(** [results and not any("Error:" in str(r) for r in results)] *)
Definition batch_ok (results : list string) : bool :=
  match results with
  | [] => false
  | _ :: _ => forallb (fun r => negb (Str.contains "Error:" r)) results
  end.

Section PollerUpdates.

Context {D : Type} `{Environment D}.

(** [datetime.now().isoformat()] and [_parse_interface_utilization],
    which adds the utilisation fields to the interfaces it is given. *)
Variable isoformat : Z -> string.
Variable _parse_interface_utilization : value -> string -> value.

(** A call [name(argument)] of a function declared without parameters.
    The retry wrapper takes any arguments and passes them on; the call of
    the function itself raises a [TypeError], inside the wrapper's
    [try]. *)
Definition call_with_argument {A : Type} (name : string) : M D A :=
  fun w =>
    (Raise (Exception "TypeError"
              (String.append name "() takes 0 positional arguments but 1 was given")),
     w).

(** [_update_interfaces]: the getter [get_interfaces_optimized], declared
    without parameters under [@retry_on_failure()], is called with
    [results[0]]. *)
Definition _update_interfaces (router : RouterConnection) (p : PollerState D)
  : PollerState D :=
  let commands :=
    ["display interface brief"; "display interface | include utilization"] in
  match execute_commands router commands (world p) with
  | (Return results, w1) =>
      if batch_ok results then
        match retry_on_failure None None "get_interfaces_optimized"
                (call_with_argument "get_interfaces_optimized") w1 with
        | (Return interfaces, w2) =>
            let interfaces :=
              if ((1 <? List.length results)%nat
                  && negb (Str.is_empty (nth 1 results EmptyString)))%bool
              then _parse_interface_utilization interfaces (nth 1 results EmptyString)
              else interfaces in
            let p1 := router_cache_set "router_interfaces" interfaces 300
                        (mk_poller w2 (router_cache p)) in
            router_cache_set "interfaces_last_update"
              (VStr (isoformat (now (world p1)))) 300 p1
        | (Raise _, w2) => mk_poller w2 (router_cache p)
        end
      else mk_poller w1 (router_cache p)
  | (Raise _, w1) => mk_poller w1 (router_cache p)
  end.

(** [_update_pppoe_stats] *)
Definition _update_pppoe_stats (router : RouterConnection) (p : PollerState D)
  : PollerState D :=
  let commands :=
    ["display access-user online-total"; "display access-user statistics"] in
  match execute_commands router commands (world p) with
  | (Return results, w1) =>
      if batch_ok results then
        match retry_on_failure None None "get_pppoe_stats_optimized"
                (call_with_argument "get_pppoe_stats_optimized") w1 with
        | (Return stats, w2) =>
            let p1 := router_cache_set "pppoe_stats" stats 180
                        (mk_poller w2 (router_cache p)) in
            router_cache_set "pppoe_last_update"
              (VStr (isoformat (now (world p1)))) 180 p1
        | (Raise _, w2) => mk_poller w2 (router_cache p)
        end
      else mk_poller w1 (router_cache p)
  | (Raise _, w1) => mk_poller w1 (router_cache p)
  end.

(** [_update_system_metrics] *)
Definition _update_system_metrics (router : RouterConnection) (p : PollerState D)
  : PollerState D :=
  let commands :=
    ["display cpu-usage"; "display memory-usage"; "display device";
     "display version"] in
  match execute_commands router commands (world p) with
  | (Return results, w1) =>
      if batch_ok results then
        match retry_on_failure None None "get_system_metrics_optimized"
                (call_with_argument "get_system_metrics_optimized") w1 with
        | (Return metrics, w2) =>
            let p1 := router_cache_set "system_metrics" metrics 240
                        (mk_poller w2 (router_cache p)) in
            router_cache_set "system_last_update"
              (VStr (isoformat (now (world p1)))) 240 p1
        | (Raise _, w2) => mk_poller w2 (router_cache p)
        end
      else mk_poller w1 (router_cache p)
  | (Raise _, w1) => mk_poller w1 (router_cache p)
  end.

End PollerUpdates.

(* ====================================================================== *)
(** * get_interfaces_optimized ([router.py], lines 843-884) *)
(* ====================================================================== *)

Module OPTIMIZED_COMMANDS.
Definition interfaces : list string :=
  ["display interface brief | no-more"; "display interface statistics | no-more"].
Definition pppoe : list string :=
  ["display access-user online | no-more"; "display access-user statistics | no-more"].
End OPTIMIZED_COMMANDS.

(** [bool(v)]: what [if cached_data:] tests. *)
Definition truthy (v : value) : bool :=
  match v with
  | VNone => false
  | VBool b => b
  | VInt n => negb (n =? 0)
  | VFloat q => negb (Qeq_bool q 0)
  | VStr s => negb (Str.is_empty s)
  | VList l => match l with [] => false | _ :: _ => true end
  | VDict d => match d with [] => false | _ :: _ => true end
  end.

Section Getters.

Context {D : Type} `{Environment D}.

Variable isoformat : Z -> string.

(** The dictionary built for one interface. *)
Definition interface_value (r : Parsers.InterfaceRecord) : value :=
  VDict [ ("name", VStr (Parsers.name r));
          ("status", VStr (Parsers.status r));
          ("protocol", VStr (Parsers.protocol r));
          ("ip_address", VStr (Parsers.ip_address r));
          ("description", VStr (Parsers.description r));
          ("utilization_in", VInt (Parsers.utilization_in r));
          ("utilization_out", VInt (Parsers.utilization_out r));
          ("last_update", VStr (isoformat (Parsers.last_update r))) ].

(** [router_cache.get(key)] from a module-level function. *)
Definition router_cache_get (key : string) (p : PollerState D) : value * PollerState D :=
  let (v, c) := Cache.get (redis_up (env (world p))) (now (world p)) key (router_cache p) in
  (v, mk_poller (world p) c).

(** The undecorated body of [get_interfaces_optimized]; the retry
    wrapper around it runs it again when it raises, which only the
    constructor [RouterConnection()] can make it do.  [settings] is the
    outcome of that constructor; the new object works on a pool of its
    own.  [add_utilization_data] changes nothing (its loop body is
    [pass]). *)
Definition get_interfaces_optimized_body (settings : result RouterConnection)
                                         (p : PollerState D)
  : result value * PollerState D :=
  let (cached_data, p0) := router_cache_get "router_interfaces" p in
  if truthy cached_data then (Return cached_data, p0)
  else
    match settings with
    | Raise e => (Raise e, p0)
    | Return router =>
        let (outcome, w1) :=
          execute_commands router OPTIMIZED_COMMANDS.interfaces
                           (set_pool [] (world p0)) in
        let p1 := mk_poller (set_pool (pool (world p0)) w1) (router_cache p0) in
        match outcome with
        | Return results =>
            if batch_ok results then
              let interfaces :=
                VList (map interface_value
                         (Parsers.parse_interface_output_optimized
                            (now w1) (nth 0 results EmptyString))) in
              (Return interfaces,
               router_cache_set "router_interfaces" interfaces CACHE_TTLS.interfaces p1)
            else (Return (VList []), p1)
        | Raise _ => (Return (VList []), p1)
        end
    end.

(** The dictionary of the parsed PPPoE statistics. *)
Definition pppoe_value (s : Parsers.PppoeStats) : value :=
  VDict [ ("total", VInt (Parsers.total s));
          ("active", VInt (Parsers.active s));
          ("peak", VInt (Parsers.peak s));
          ("authenticated", VInt (Parsers.authenticated s));
          ("last_update", VStr (isoformat (Parsers.stats_last_update s))) ].

(** The text of the [error] field; it has an a-tilde (0xe3) and an
    i-acute (0xed). *)
Definition data_unavailable : string :=
  String.append "Dados n"
    (String (ascii_of_nat 227)
       (String.append "o dispon" (String (ascii_of_nat 237) "veis"))).

(** The default the PPPoE getter returns when it has no data. *)
Definition pppoe_unavailable (t : Z) : value :=
  VDict [ ("total", VInt 0); ("active", VInt 0); ("peak", VInt 0);
          ("authenticated", VInt 0); ("last_update", VStr (isoformat t));
          ("error", VStr data_unavailable) ].

(** The undecorated body of [get_pppoe_stats_optimized]
    ([router.py], lines 887-930): the parser runs inside the [try]. *)
Definition get_pppoe_stats_optimized_body (settings : result RouterConnection)
                                          (p : PollerState D)
  : result value * PollerState D :=
  let (cached_data, p0) := router_cache_get "pppoe_stats" p in
  if truthy cached_data then (Return cached_data, p0)
  else
    match settings with
    | Raise e => (Raise e, p0)
    | Return router =>
        let (outcome, w1) :=
          execute_commands router OPTIMIZED_COMMANDS.pppoe (set_pool [] (world p0)) in
        let p1 := mk_poller (set_pool (pool (world p0)) w1) (router_cache p0) in
        match outcome with
        | Return results =>
            if batch_ok results then
              match Parsers.parse_pppoe_stats_optimized (now w1) results with
              | Return stats =>
                  (Return (pppoe_value stats),
                   router_cache_set "pppoe_stats" (pppoe_value stats)
                                    CACHE_TTLS.pppoe_stats p1)
              | Raise _ => (Return (pppoe_unavailable (now w1)), p1)
              end
            else (Return (pppoe_unavailable (now w1)), p1)
        | Raise _ => (Return (pppoe_unavailable (now w1)), p1)
        end
    end.

End Getters.

(* ====================================================================== *)
(** * Further sample inputs *)
(* ====================================================================== *)

(** A function that raises until the clock has reached [ready_at] and
    answers with the instant of the call from then on. *)
Definition flaky_until (ready_at : Z) : M sim Z :=
  fun w =>
    if now w <? ready_at
    then (Raise (Exception "RuntimeError" "not ready"), w)
    else (Return (now w), w).

(** A connection opened at instant 0 and used three times since. *)
Definition used_connection : ConnectionInfo := mk_conn 1%nat "ssh" 0 0 true 3.

(** A local tier with an entry of [pppoe_stats] that expires at instant
    20 and an entry of [router_status] that expires at instant 60, and a
    Redis that holds the first of them. *)
Definition cache_two_keys : Cache.SmartCache :=
  Cache.mk_cache
    (Some [("pppoe_stats", (Cache.mk_entry Cache.pppoe_sample 20 0, 20))])
    [("pppoe_stats", Cache.mk_entry Cache.pppoe_sample 20 0);
     ("router_status", Cache.mk_entry (VBool true) 60 0)]
    (Cache.mk_stats 0 0 0 0).

(** The same local tier without a Redis client. *)
Definition cache_two_keys_local : Cache.SmartCache :=
  Cache.mk_cache None (Cache.memory_cache cache_two_keys) (Cache.mk_stats 0 0 0 0).

(** Redis' matcher on patterns without wildcard: the key itself. *)
Definition exact_match (pattern key : string) : bool := String.eqb pattern key.

(** A cached list of one interface name. *)
Definition interfaces_sample : value := VList [VStr "GigabitEthernet0/0/1"].

(** [RouterConnection()] without [ROUTER_HOST] in the process
    environment; the message has a c-cedilla (0xe7) and an o-tilde (0xf5). *)
Definition incomplete_settings : exn :=
  Exception "ValueError"
    (String.append "Configura"
       (String (ascii_of_nat 231)
          (String (ascii_of_nat 245)
             "es de router incompletas (HOST, USERNAME, PASSWORD)"))).

Definition missing_settings : result RouterConnection := Raise incomplete_settings.

(** A local tier of 101 entries, the entry of key [i] created at instant
    [i] and valid until instant 1000. *)
Definition memory_101 : Cache.memory :=
  map (fun i => (decimal_text (Z.of_nat i),
                 Cache.mk_entry VNone 1000 (Z.of_nat i)))
      (seq 0 101).

(** A device that answers every command with a total of users written
    with a superscript digit. *)
Definition garbled_exchange (h : handle) (command : string) (d : sim)
  : result string * sim :=
  (Return (text [command; String.append "Total users: " superscript_two; "<HUAWEI>"]),
   sim_tick (sim_latency d) d).

Definition garbled_environment : Environment sim := {|
  clock := sim_clock;
  sleep_for := fun seconds d => sim_tick (Qfloor seconds) d;
  connect_ssh := sim_connect;
  connect_telnet := sim_connect;
  transport_active := fun _ _ => Return true;
  close_handle := fun _ d => d;
  invoke_shell := fun _ d => (Return tt, d);
  wait_for_prompt := fun _ d => (Return tt, d);
  shell_close := fun _ d => d;
  ssh_exchange := garbled_exchange;
  telnet_exchange := garbled_exchange;
  redis_up := fun _ => false
|}.


(** A device that takes 30 seconds to answer a command until instant 20
    and one second from then on. *)
Definition slow_start_exchange (h : handle) (command : string) (d : sim)
  : result string * sim :=
  (Return (text [command; String.append "reply to " command; "<HUAWEI>"]),
   sim_tick (if sim_clock d <? 20 then 30 else 1) d).

Definition slow_start_environment : Environment sim := {|
  clock := sim_clock;
  sleep_for := fun seconds d => sim_tick (Qfloor seconds) d;
  connect_ssh := sim_connect;
  connect_telnet := sim_connect;
  transport_active := fun _ _ => Return true;
  close_handle := fun _ d => d;
  invoke_shell := fun _ d => (Return tt, d);
  wait_for_prompt := fun _ d => (Return tt, d);
  shell_close := fun _ d => d;
  ssh_exchange := slow_start_exchange;
  telnet_exchange := slow_start_exchange;
  redis_up := fun _ => false
|}.

(* ====================================================================== *)
(** * Facts about the string primitives *)
(* ====================================================================== *)

Lemma prefix_contains (p s : string) :
  String.prefix p s = true -> Str.contains p s = true.
Proof.
  intros Hp. destruct s; cbn [Str.contains]; rewrite Hp; reflexivity.
Qed.

Lemma contains_cons (p : string) (c : ascii) (s : string) :
  Str.contains p s = true -> Str.contains p (String c s) = true.
Proof.
  intros Hs. simpl. rewrite Hs. apply orb_true_r.
Qed.

(** A text that contains ["| no-more"] contains a pipe. *)
Lemma no_more_has_pipe (s : string) :
  Str.contains "| no-more" s = true -> Str.contains "|" s = true.
Proof.
  induction s as [|c s IH]; cbn [Str.contains].
  - discriminate.
  - intros Hc. apply orb_true_iff in Hc. apply orb_true_iff.
    destruct Hc as [Hp | Hr]; [left | right; exact (IH Hr)].
    cbn [String.prefix] in *.
    destruct (Ascii.ascii_dec "|" c); [destruct s; reflexivity | discriminate].
Qed.

(* ====================================================================== *)
(** * Command normalisation *)
(* ====================================================================== *)

(** The test of the code reduces to: a display command without any pipe. *)
Lemma needs_no_more_spec (cmd : string) :
  needs_no_more cmd = Str.startswith "display" cmd && negb (Str.contains "|" cmd).
Proof.
  unfold needs_no_more.
  destruct (Str.contains "| no-more" cmd) eqn:Hn.
  - rewrite (no_more_has_pipe _ Hn). cbn [negb].
    rewrite !andb_false_r. reflexivity.
  - cbn [negb]. rewrite andb_true_r. reflexivity.
Qed.

Lemma optimize_commands_as_map (commands : list string) :
  _optimize_commands commands =
  map add_no_more (filter (fun cmd => negb (Str.is_empty cmd)) (map Str.strip commands)).
Proof.
  induction commands as [|cmd rest IH]; simpl.
  - reflexivity.
  - destruct (Str.is_empty (Str.strip cmd)); simpl; rewrite IH; reflexivity.
Qed.

(** C6, as the code has it.  Normalisation trims every command, drops
    those that are empty once trimmed and keeps the others in their
    order; it appends [" | no-more"] to exactly the trimmed commands that
    start with [display] and contain no pipe character at all, and
    returns every other trimmed command unchanged - a display command
    already piped into another filter included. *)
Theorem optimize_commands_normal_form (commands : list string) :
  _optimize_commands commands =
    map add_no_more
        (filter (fun cmd => negb (Str.is_empty cmd)) (map Str.strip commands))
  /\ (forall cmd : string,
        add_no_more cmd =
          if Str.startswith "display" cmd && negb (Str.contains "|" cmd)
          then String.append cmd " | no-more" else cmd)
  /\ optimize_commands commands = _optimize_commands commands.
Proof.
  split; [apply optimize_commands_as_map | split; [|reflexivity]].
  intros cmd. unfold add_no_more. rewrite needs_no_more_spec. reflexivity.
Qed.

(** C6 as worded fails on a display command that is piped into a filter
    other than [no-more]: it lacks the paging suppression, and the code
    leaves it alone. *)
Lemma optimize_commands_piped_display_unchanged :
  lacks_paging_suppression "display interface | include utilization" = true
  /\ _optimize_commands ["display interface | include utilization"]
     = ["display interface | include utilization"]
  /\ _optimize_commands ["display interface | include utilization"]
     <> normalize_as_specified ["display interface | include utilization"].
Proof.
  split; [reflexivity | split; [reflexivity | discriminate]].
Qed.

(* ====================================================================== *)
(** * Trimming, splitting and joining *)
(* ====================================================================== *)

Lemma rstrip_tail_blank (s : string) :
  Str.rstrip s = EmptyString \/ nonblank (last_char (Str.rstrip s)) = true.
Proof.
  induction s as [|c r IH]; cbn [Str.rstrip].
  - left; reflexivity.
  - destruct (Str.rstrip r) as [|d r'] eqn:Hr.
    + destruct (Str.isspace c) eqn:Hc; [left; reflexivity | right].
      cbn. rewrite Hc. reflexivity.
    + right. destruct IH as [IH | IH]; [discriminate|].
      cbn [last_char]. exact IH.
Qed.

Lemma lstrip_head_blank (s : string) :
  Str.lstrip s = EmptyString \/ nonblank (head_char (Str.lstrip s)) = true.
Proof.
  induction s as [|c r IH]; cbn [Str.lstrip].
  - left; reflexivity.
  - destruct (Str.isspace c) eqn:Hc; [exact IH | right].
    cbn. rewrite Hc. reflexivity.
Qed.

Lemma lstrip_last_char (s : string) :
  Str.lstrip s <> EmptyString -> last_char (Str.lstrip s) = last_char s.
Proof.
  induction s as [|c r IH]; cbn [Str.lstrip]; intros Hne.
  - reflexivity.
  - destruct (Str.isspace c) eqn:Hc; [|reflexivity].
    rewrite (IH Hne). cbn [last_char].
    destruct r; [exfalso; apply Hne; reflexivity | reflexivity].
Qed.

(** A trimmed text is empty or has no blank at either end. *)
Lemma strip_tight (s : string) :
  Str.strip s = EmptyString
  \/ (nonblank (head_char (Str.strip s)) = true
      /\ nonblank (last_char (Str.strip s)) = true).
Proof.
  unfold Str.strip.
  destruct (lstrip_head_blank (Str.rstrip s)) as [He | Hh]; [left; exact He | right].
  split; [exact Hh|].
  assert (Hne : Str.lstrip (Str.rstrip s) <> EmptyString).
  { intros E. rewrite E in Hh. discriminate. }
  rewrite (lstrip_last_char _ Hne).
  destruct (rstrip_tail_blank s) as [He | Hl]; [|exact Hl].
  rewrite He in Hne. exfalso; apply Hne; reflexivity.
Qed.

Lemma lstrip_fixed (s : string) :
  nonblank (head_char s) = true -> Str.lstrip s = s.
Proof.
  destruct s as [|c r]; cbn; [discriminate|].
  intros Hc. apply negb_true_iff in Hc. rewrite Hc. reflexivity.
Qed.

Lemma rstrip_fixed (s : string) :
  nonblank (last_char s) = true -> Str.rstrip s = s.
Proof.
  induction s as [|c r IH]; [discriminate|].
  cbn [last_char Str.rstrip]. destruct r as [|d r'].
  - cbn. intros Hc. apply negb_true_iff in Hc. rewrite Hc. reflexivity.
  - intros Hl. rewrite (IH Hl). reflexivity.
Qed.

Lemma strip_fixed (s : string) :
  nonblank (head_char s) = true -> nonblank (last_char s) = true ->
  Str.strip s = s.
Proof.
  intros Hh Hl. unfold Str.strip. rewrite (rstrip_fixed _ Hl). apply lstrip_fixed, Hh.
Qed.

Lemma strip_idempotent (s : string) : Str.strip (Str.strip s) = Str.strip s.
Proof.
  destruct (strip_tight s) as [He | [Hh Hl]].
  - rewrite He. reflexivity.
  - apply strip_fixed; assumption.
Qed.

Lemma head_char_append (a b : string) :
  a <> EmptyString -> head_char (String.append a b) = head_char a.
Proof. destruct a; [intros E; exfalso; apply E; reflexivity | reflexivity]. Qed.

Lemma last_char_append (a b : string) :
  b <> EmptyString -> last_char (String.append a b) = last_char b.
Proof.
  intros Hb. induction a as [|c a IH]; [reflexivity|].
  cbn [String.append last_char]. rewrite IH.
  destruct (String.append a b) eqn:E; [|reflexivity].
  destruct a; cbn in E; [contradiction | discriminate].
Qed.

Lemma text_cons2 (l l' : string) (ls : list string) :
  text (l :: l' :: ls)
  = String.append l (String Str.newline (text (l' :: ls))).
Proof. reflexivity. Qed.

Lemma text_nonempty (l : string) (ls : list string) :
  l <> EmptyString -> text (l :: ls) <> EmptyString.
Proof.
  intros Hl. destruct ls as [|l' ls]; [exact Hl|].
  rewrite text_cons2. destruct l; [contradiction | discriminate].
Qed.

Lemma head_char_text (l : string) (ls : list string) :
  l <> EmptyString -> head_char (text (l :: ls)) = head_char l.
Proof.
  intros Hl. destruct ls as [|l' ls]; [reflexivity|].
  rewrite text_cons2. apply head_char_append, Hl.
Qed.

Lemma last_char_text (l : string) (ls : list string) :
  Forall (fun x => x <> EmptyString) (l :: ls) ->
  last_char (text (l :: ls)) = last_char (last (l :: ls) EmptyString).
Proof.
  revert l. induction ls as [|l' ls IH]; intros l Hall; [reflexivity|].
  rewrite text_cons2. inversion Hall as [|? ? Hl Hrest]; subst.
  rewrite last_char_append by discriminate.
  cbn [last_char].
  pose proof (text_nonempty l' ls (Forall_inv Hrest)) as Hne.
  destruct (text (l' :: ls)) eqn:E; [contradiction|].
  rewrite <- E. rewrite (IH l' Hrest). reflexivity.
Qed.

Lemma split_on_nonempty (sep : ascii) (s : string) : Str.split_on sep s <> [].
Proof.
  induction s as [|c r IH]; cbn [Str.split_on]; [discriminate|].
  destruct (Ascii.eqb c sep); [discriminate|].
  destruct (Str.split_on sep r); [contradiction | discriminate].
Qed.

(** Joining the lines of a text gives the text back. *)
Lemma text_split_lines (s : string) : text (Str.split_lines s) = s.
Proof.
  unfold Str.split_lines.
  induction s as [|c r IH]; cbn [Str.split_on]; [reflexivity|].
  destruct (Ascii.eqb c Str.newline) eqn:Hc.
  - apply Ascii.eqb_eq in Hc. subst c.
    pose proof (split_on_nonempty Str.newline r) as Hne.
    destruct (Str.split_on Str.newline r) as [|l ls] eqn:E; [contradiction|].
    rewrite text_cons2, IH. reflexivity.
  - pose proof (split_on_nonempty Str.newline r) as Hne.
    destruct (Str.split_on Str.newline r) as [|l ls] eqn:E; [contradiction|].
    rewrite <- IH. destruct ls as [|l' ls]; reflexivity.
Qed.

Lemma split_on_append (sep : ascii) (l rest : string) :
  has_char sep l = false ->
  Str.split_on sep (String.append l (String sep rest)) = l :: Str.split_on sep rest.
Proof.
  induction l as [|c l IH]; cbn [has_char String.append Str.split_on]; intros Hl.
  - rewrite Ascii.eqb_refl. reflexivity.
  - apply orb_false_iff in Hl. destruct Hl as [Hc Hl].
    rewrite Hc, (IH Hl). reflexivity.
Qed.

Lemma split_on_single (sep : ascii) (l : string) :
  has_char sep l = false -> Str.split_on sep l = [l].
Proof.
  induction l as [|c l IH]; cbn [has_char Str.split_on]; intros Hl; [reflexivity|].
  apply orb_false_iff in Hl. destruct Hl as [Hc Hl].
  rewrite Hc, (IH Hl). reflexivity.
Qed.

(** Splitting the text of one-line lines gives the lines back. *)
Lemma split_lines_text (l : string) (ls : list string) :
  Forall (fun x => has_char Str.newline x = false) (l :: ls) ->
  Str.split_lines (text (l :: ls)) = l :: ls.
Proof.
  unfold Str.split_lines. revert l.
  induction ls as [|l' ls IH]; intros l Hall.
  - apply split_on_single. exact (Forall_inv Hall).
  - rewrite text_cons2.
    rewrite (split_on_append _ _ _ (Forall_inv Hall)).
    rewrite (IH l' (Forall_inv_tail Hall)). reflexivity.
Qed.

Lemma split_on_no_sep (sep : ascii) (s : string) :
  Forall (fun x => has_char sep x = false) (Str.split_on sep s).
Proof.
  induction s as [|c r IH]; cbn [Str.split_on].
  - constructor; [reflexivity | constructor].
  - destruct (Ascii.eqb c sep) eqn:Hc.
    + constructor; [reflexivity | exact IH].
    + destruct (Str.split_on sep r) as [|l ls].
      * constructor; [cbn; rewrite Hc; reflexivity | constructor].
      * inversion IH; subst. constructor; [|assumption].
        cbn [has_char]. rewrite Hc. assumption.
Qed.

Lemma lstrip_no_char (c : ascii) (s : string) :
  has_char c s = false -> has_char c (Str.lstrip s) = false.
Proof.
  induction s as [|d r IH]; cbn [Str.lstrip has_char]; intros Hs; [reflexivity|].
  apply orb_false_iff in Hs. destruct Hs as [Hd Hr].
  destruct (Str.isspace d); [exact (IH Hr)|].
  cbn [has_char]. rewrite Hd. exact Hr.
Qed.

Lemma rstrip_no_char (c : ascii) (s : string) :
  has_char c s = false -> has_char c (Str.rstrip s) = false.
Proof.
  induction s as [|d r IH]; cbn [Str.rstrip has_char]; intros Hs; [reflexivity|].
  apply orb_false_iff in Hs. destruct Hs as [Hd Hr].
  specialize (IH Hr).
  destruct (Str.rstrip r) as [|e r'].
  - destruct (Str.isspace d); [reflexivity|]. cbn. rewrite Hd. reflexivity.
  - cbn [has_char] in *. rewrite Hd. exact IH.
Qed.

Lemma strip_no_char (c : ascii) (s : string) :
  has_char c s = false -> has_char c (Str.strip s) = false.
Proof. intros Hs. apply lstrip_no_char, rstrip_no_char, Hs. Qed.

(* ====================================================================== *)
(** * Output cleaning *)
(* ====================================================================== *)

(** Every line the loop emits is trimmed, not empty, no prompt and on one
    line. *)
Lemma clean_ssh_lines_emitted (command : string) (lines : list string) :
  Forall (fun x => has_char Str.newline x = false) lines ->
  forall skip, Forall emitted_line (clean_ssh_lines command skip lines).
Proof.
  induction 1 as [|line rest Hline Hrest IH]; intros skip; cbn [clean_ssh_lines].
  - constructor.
  - destruct (skip && Str.contains (Str.strip command) (Str.strip line)).
    + apply IH.
    + destruct (ssh_prompt_or_blank (Str.strip line)) eqn:Hp.
      * apply IH.
      * constructor; [|apply IH].
        repeat split.
        -- apply strip_idempotent.
        -- exact Hp.
        -- apply strip_no_char, Hline.
Qed.

(** The loop leaves alone a list of lines it would emit as they are,
    none of which echoes the command. *)
Lemma clean_ssh_lines_fixed (command : string) (lines : list string) (skip : bool) :
  Forall (fun line => kept_as_is command line = true) lines ->
  clean_ssh_lines command skip lines = lines.
Proof.
  induction 1 as [|line rest Hline Hrest IH]; cbn [clean_ssh_lines]; [reflexivity|].
  unfold kept_as_is in Hline.
  apply andb_true_iff in Hline. destruct Hline as [Hline Hecho].
  apply andb_true_iff in Hline. destruct Hline as [Hstrip Hprompt].
  apply String.eqb_eq in Hstrip. rewrite Hstrip.
  apply negb_true_iff in Hecho, Hprompt. rewrite Hecho, Hprompt, andb_false_r.
  rewrite IH. reflexivity.
Qed.

Lemma emitted_line_tight (line : string) :
  emitted_line line ->
  line <> EmptyString
  /\ nonblank (head_char line) = true /\ nonblank (last_char line) = true.
Proof.
  intros (Hs & Hp & _).
  assert (Hne : line <> EmptyString).
  { intros ->. cbn in Hp. discriminate. }
  split; [exact Hne|].
  destruct (strip_tight line) as [He | Ht]; rewrite Hs in *; [contradiction | exact Ht].
Qed.

Lemma last_in_cons {A : Type} (x : A) (l : list A) (d : A) : In (last (x :: l) d) (x :: l).
Proof.
  revert x. induction l as [|y l IH]; intros x; [left; reflexivity|].
  right. exact (IH y).
Qed.

(** Trimming the text of emitted lines changes nothing. *)
Lemma strip_text_emitted (lines : list string) :
  Forall emitted_line lines -> Str.strip (text lines) = text lines.
Proof.
  intros Hall. destruct lines as [|l ls]; [reflexivity|].
  assert (Hne : Forall (fun x => x <> EmptyString) (l :: ls)).
  { eapply Forall_impl; [|exact Hall]. intros x Hx. apply (emitted_line_tight _ Hx). }
  apply strip_fixed.
  - rewrite head_char_text by exact (Forall_inv Hne).
    apply (emitted_line_tight _ (Forall_inv Hall)).
  - rewrite last_char_text by exact Hne.
    assert (Hlast : emitted_line (last (l :: ls) EmptyString)).
    { apply (proj1 (Forall_forall _ _) Hall). apply last_in_cons. }
    apply (emitted_line_tight _ Hlast).
Qed.

Lemma clean_empty_output (command : string) : _clean_ssh_output EmptyString command = EmptyString.
Proof.
  unfold _clean_ssh_output.
  cbn [Str.split_lines Str.split_on clean_ssh_lines Str.strip Str.rstrip Str.lstrip].
  destruct (true && Str.contains (Str.strip command) EmptyString); reflexivity.
Qed.

Lemma clean_fixed (output command : string) :
  is_clean command output = true -> _clean_ssh_output output command = output.
Proof.
  unfold is_clean. intros Hc. apply orb_true_iff in Hc. destruct Hc as [He | Hall].
  - destruct output; [apply clean_empty_output | discriminate].
  - unfold _clean_ssh_output.
    pose proof (proj1 (forallb_forall _ _) Hall) as Hall'.
    clear Hall. rename Hall' into Hall.
    assert (Hkept : Forall (fun line => kept_as_is command line = true)
                           (Str.split_lines output)).
    { apply Forall_forall. exact Hall. }
    rewrite (clean_ssh_lines_fixed _ _ _ Hkept).
    change (Str.join_lines (Str.split_lines output)) with (text (Str.split_lines output)).
    rewrite strip_text_emitted; [apply text_split_lines|].
    apply Forall_forall. intros line Hin.
    pose proof (Hall line Hin) as Hk. unfold kept_as_is in Hk.
    apply andb_true_iff in Hk. destruct Hk as [Hk _].
    apply andb_true_iff in Hk. destruct Hk as [Hs Hp].
    repeat split.
    + apply String.eqb_eq, Hs.
    + apply negb_true_iff, Hp.
    + exact (proj1 (Forall_forall _ _) (split_on_no_sep Str.newline output) line Hin).
Qed.

Lemma clean_twice (output command : string) :
  forallb (fun line => negb (Str.contains (Str.strip command) line))
          (Str.split_lines (_clean_ssh_output output command)) = true ->
  _clean_ssh_output (_clean_ssh_output output command) command
  = _clean_ssh_output output command.
Proof.
  intros Hecho. apply clean_fixed. revert Hecho.
  unfold _clean_ssh_output at 1 2.
  pose proof (clean_ssh_lines_emitted command (Str.split_lines output)
                (split_on_no_sep Str.newline output) true) as Hem.
  change (Str.join_lines ?l) with (text l).
  rewrite (strip_text_emitted _ Hem).
  destruct (clean_ssh_lines command true (Str.split_lines output)) as [|l ls] eqn:E.
  - intros _. reflexivity.
  - assert (Hnl : Forall (fun x => has_char Str.newline x = false) (l :: ls)).
    { eapply Forall_impl; [|exact Hem]. intros x (_ & _ & Hx). exact Hx. }
    rewrite (split_lines_text l ls Hnl). intros Hecho.
    unfold is_clean. apply orb_true_iff. right.
    rewrite (split_lines_text l ls Hnl).
    apply forallb_forall. intros line Hin.
    pose proof (proj1 (forallb_forall _ _) Hecho line Hin) as Hne.
    pose proof (proj1 (Forall_forall _ _) Hem line Hin) as (Hs & Hp & _).
    unfold kept_as_is. rewrite Hs, String.eqb_refl, Hp, Hne. reflexivity.
Qed.

(** C9, as the code has it.  For every command and every output whose
    lines are each free of surrounding blanks, non-empty, not ended by a
    prompt character ([>], [#], [[]]] or [<]) and free of the trimmed
    command (or whose text is empty), [_clean_ssh_output] returns the
    output unchanged; and cleaning a cleaned output a second time with
    the same command is the identity whenever no line of the cleaned
    output still contains the trimmed command. *)
Theorem clean_ssh_output_fixed_points (output command : string) :
  (is_clean command output = true -> _clean_ssh_output output command = output)
  /\ (forallb (fun line => negb (Str.contains (Str.strip command) line))
              (Str.split_lines (_clean_ssh_output output command)) = true ->
      _clean_ssh_output (_clean_ssh_output output command) command
      = _clean_ssh_output output command).
Proof.
  split; [apply clean_fixed | apply clean_twice].
Qed.

Lemma clean_ssh_output_fixed_points_witness :
  is_clean "display version"
           (text ["Huawei Versatile Routing Platform"; "uptime is 3 days"]) = true
  /\ _clean_ssh_output
       (text ["Huawei Versatile Routing Platform"; "uptime is 3 days"])
       "display version"
     = text ["Huawei Versatile Routing Platform"; "uptime is 3 days"]
  /\ _clean_ssh_output
       (_clean_ssh_output
          (text ["Huawei Versatile Routing Platform"; "uptime is 3 days"])
          "display version")
       "display version"
     = _clean_ssh_output
         (text ["Huawei Versatile Routing Platform"; "uptime is 3 days"])
         "display version".
Proof.
  destruct (clean_ssh_output_fixed_points
              (text ["Huawei Versatile Routing Platform"; "uptime is 3 days"])
              "display version") as [Hfix Htwice].
  split; [reflexivity | split; [apply Hfix; reflexivity | apply Htwice; reflexivity]].
Defined.

(** C9 as worded fails twice.  An output with a blank line has no echoed
    command and no trailing prompt, yet cleaning removes the blank line;
    and when the command text occurs on two lines, the first cleaning
    removes one of them and the second cleaning the other. *)
Lemma clean_ssh_output_not_idempotent :
  (already_clean_as_specified (text ["CPU usage: 12%"; EmptyString; "Memory usage: 40%"])
                              "display cpu-usage" = true
   /\ _clean_ssh_output (text ["CPU usage: 12%"; EmptyString; "Memory usage: 40%"])
                        "display cpu-usage"
      <> text ["CPU usage: 12%"; EmptyString; "Memory usage: 40%"])
  /\ _clean_ssh_output
       (_clean_ssh_output
          (text ["display version"; "Info: display version done"; "VRP 8.180"])
          "display version")
       "display version"
     <> _clean_ssh_output
          (text ["display version"; "Info: display version done"; "VRP 8.180"])
          "display version".
Proof.
  split; [split; [reflexivity | discriminate] | discriminate].
Qed.

(* ====================================================================== *)
(** * The local tier of the cache as a dictionary *)
(* ====================================================================== *)

Section CacheFacts.

Import Cache.

Lemma dict_get_set_same (key : string) (e : entry) (m : memory) :
  dict_get key (dict_set key e m) = Some e.
Proof.
  induction m as [|[k e'] rest IH]; cbn [dict_set dict_get].
  - rewrite String.eqb_refl. reflexivity.
  - destruct (String.eqb k key) eqn:Hk; cbn [dict_get]; rewrite Hk; [reflexivity | exact IH].
Qed.

Lemma dict_get_In (key : string) (e : entry) (m : memory) :
  dict_get key m = Some e -> In (key, e) m.
Proof.
  induction m as [|[k e'] rest IH]; cbn [dict_get]; [discriminate|].
  destruct (String.eqb k key) eqn:Hk.
  - apply String.eqb_eq in Hk. intros [= ->]. subst. left; reflexivity.
  - intros Hg. right. exact (IH Hg).
Qed.

Lemma In_keys (key : string) (e : entry) (m : memory) :
  In (key, e) m -> In key (keys m).
Proof. intros Hin. apply (in_map fst) in Hin. exact Hin. Qed.

(** In a dictionary (no key twice) membership decides the lookup. *)
Lemma In_dict_get (key : string) (e : entry) (m : memory) :
  NoDup (keys m) -> In (key, e) m -> dict_get key m = Some e.
Proof.
  induction m as [|[k e'] rest IH]; cbn [keys map fst dict_get]; intros Hnd Hin.
  - contradiction.
  - inversion Hnd as [|? ? Hk Hrest]; subst.
    destruct Hin as [[= -> ->] | Hin].
    + rewrite String.eqb_refl. reflexivity.
    + destruct (String.eqb k key) eqn:E.
      * apply String.eqb_eq in E. subst. exfalso. apply Hk.
        exact (In_keys _ _ _ Hin).
      * exact (IH Hrest Hin).
Qed.

Lemma keys_dict_set_In (key k : string) (e : entry) (m : memory) :
  In k (keys (dict_set key e m)) -> k = key \/ In k (keys m).
Proof.
  induction m as [|[k' e'] rest IH]; cbn [dict_set keys map fst In].
  - intros [<- | []]. left; reflexivity.
  - destruct (String.eqb k' key) eqn:E; cbn [map fst In].
    + intros [<- | Hin]; right; [left; reflexivity | right; exact Hin].
    + intros [<- | Hin]; [right; left; reflexivity|].
      destruct (IH Hin) as [-> | Hr]; [left; reflexivity | right; right; exact Hr].
Qed.

Lemma dict_set_NoDup (key : string) (e : entry) (m : memory) :
  NoDup (keys m) -> NoDup (keys (dict_set key e m)).
Proof.
  induction m as [|[k e'] rest IH]; cbn [dict_set keys map fst]; intros Hnd.
  - constructor; [intros [] | constructor].
  - inversion Hnd as [|? ? Hk Hrest]; subst.
    destruct (String.eqb k key) eqn:E; cbn [map fst].
    + constructor; assumption.
    + constructor; [|exact (IH Hrest)].
      intros Hin. destruct (keys_dict_set_In _ _ _ _ Hin) as [-> | Hr].
      * rewrite String.eqb_refl in E. discriminate.
      * exact (Hk Hr).
Qed.

Lemma dict_set_In (key : string) (e : entry) (x : string * entry) (m : memory) :
  In x (dict_set key e m) -> x = (key, e) \/ In x m.
Proof.
  induction m as [|[k e'] rest IH]; cbn [dict_set In].
  - intros [<- | []]. left; reflexivity.
  - destruct (String.eqb k key) eqn:E; cbn [In].
    + apply String.eqb_eq in E. subst.
      intros [<- | Hin]; [left; reflexivity | right; right; exact Hin].
    + intros [<- | Hin]; [right; left; reflexivity|].
      destruct (IH Hin) as [-> | Hr]; [left; reflexivity | right; right; exact Hr].
Qed.

Lemma dict_get_del_same (key : string) (m : memory) :
  NoDup (keys m) -> dict_get key (dict_del key m) = None.
Proof.
  induction m as [|[k e] rest IH]; cbn [keys map fst dict_del dict_get]; intros Hnd.
  - reflexivity.
  - inversion Hnd as [|? ? Hk Hrest]; subst.
    destruct (String.eqb k key) eqn:E.
    + apply String.eqb_eq in E. subst.
      destruct (dict_get key rest) as [e'|] eqn:G; [|reflexivity].
      exfalso. apply Hk. exact (In_keys _ _ _ (dict_get_In _ _ _ G)).
    + cbn [dict_get]. rewrite E. exact (IH Hrest).
Qed.

(** Setting a key adds at most one recent entry. *)
Lemma recent_count_dict_set (t : Z) (key : string) (e : entry) (m : memory) :
  (recent_count t (dict_set key e m) <= S (recent_count t m))%nat.
Proof.
  unfold recent_count.
  induction m as [|[k e'] rest IH]; cbn [dict_set filter snd].
  - destruct (t <=? created_at e); cbn; lia.
  - destruct (String.eqb k key); cbn [filter snd].
    + destruct (t <=? created_at e), (t <=? created_at e'); cbn [List.length]; lia.
    + destruct (t <=? created_at e'); cbn [List.length]; lia.
Qed.

End CacheFacts.

(* ====================================================================== *)
(** * Eviction: what [_cleanup_memory_cache] keeps *)
(* ====================================================================== *)

Section EvictionFacts.

Import Cache.

Lemma insert_by_created_perm (x : string * entry) (l : memory) :
  Permutation (x :: l) (insert_by_created x l).
Proof.
  induction l as [|y rest IH]; cbn [insert_by_created]; [apply Permutation_refl|].
  destruct (created_at (snd x) <=? created_at (snd y)); [apply Permutation_refl|].
  eapply Permutation_trans; [apply perm_swap | apply perm_skip, IH].
Qed.

Lemma sorted_by_created_perm (l : memory) : Permutation l (sorted_by_created l).
Proof.
  induction l as [|x rest IH]; cbn [sorted_by_created fold_right]; [constructor|].
  eapply Permutation_trans; [apply perm_skip, IH | apply insert_by_created_perm].
Qed.

Lemma insert_by_created_sorted (x : string * entry) (l : memory) :
  StronglySorted by_created l -> StronglySorted by_created (insert_by_created x l).
Proof.
  induction 1 as [|y rest Hs IH Hy]; cbn [insert_by_created].
  - constructor; constructor.
  - destruct (created_at (snd x) <=? created_at (snd y)) eqn:E.
    + apply Z.leb_le in E. constructor; [constructor; assumption|].
      constructor; [exact E|].
      eapply Forall_impl; [|exact Hy]. intros z Hz. unfold by_created in *. lia.
    + apply Z.leb_gt in E. constructor; [exact IH|].
      apply (Permutation_Forall (insert_by_created_perm x rest)).
      constructor; [unfold by_created; lia | exact Hy].
Qed.

Lemma sorted_by_created_sorted (l : memory) :
  StronglySorted by_created (sorted_by_created l).
Proof.
  induction l as [|x rest IH]; cbn [sorted_by_created fold_right]; [constructor|].
  apply insert_by_created_sorted, IH.
Qed.

(** In a sorted list every element of a prefix is below every element of
    the suffix that follows it. *)
Lemma sorted_app_le (pre suf : memory) :
  StronglySorted by_created (pre ++ suf) ->
  forall a b, In a pre -> In b suf -> by_created a b.
Proof.
  induction pre as [|p pre IH]; cbn [app]; intros Hs a b Ha Hb; [contradiction|].
  inversion Hs as [|? ? Hrest Hp]; subst.
  destruct Ha as [<- | Ha].
  - apply (proj1 (Forall_forall _ _) Hp). apply in_or_app. right. exact Hb.
  - exact (IH Hrest a b Ha Hb).
Qed.

Lemma filter_length_perm (f : string * entry -> bool) (l l' : memory) :
  Permutation l l' -> List.length (filter f l) = List.length (filter f l').
Proof.
  induction 1 as [| x l l' _ IH | x y l | l l' l'' _ IH1 _ IH2]; cbn [filter].
  - reflexivity.
  - destruct (f x); cbn [List.length]; rewrite IH; reflexivity.
  - destruct (f x), (f y); reflexivity.
  - rewrite IH1. exact IH2.
Qed.

Lemma filter_length_all (f : string * entry -> bool) (l : memory) :
  (forall x, In x l -> f x = true) -> List.length (filter f l) = List.length l.
Proof.
  induction l as [|x rest IH]; cbn [filter]; intros Hall; [reflexivity|].
  rewrite (Hall x (or_introl eq_refl)). cbn [List.length].
  rewrite IH; [reflexivity|]. intros y Hy. apply Hall. right. exact Hy.
Qed.

Lemma filter_length_In (f : string * entry -> bool) (x : string * entry) (l : memory) :
  In x l -> f x = true -> (1 <= List.length (filter f l))%nat.
Proof.
  induction l as [|y rest IH]; cbn [filter In]; intros Hin Hf; [contradiction|].
  destruct Hin as [-> | Hin].
  - rewrite Hf. cbn [List.length]. lia.
  - specialize (IH Hin Hf). destruct (f y); cbn [List.length]; lia.
Qed.

(** An entry outlives the cut to the [n] newest entries when at most [n]
    entries are as new as it is. *)
Lemma last_n_sorted_keeps (n : nat) (x : string * entry) (l : memory) :
  In x l ->
  (recent_count (created_at (snd x)) l <= n)%nat ->
  In x (last_n n (sorted_by_created l)).
Proof.
  intros Hin Hcount. unfold last_n.
  set (s := sorted_by_created l) in *.
  assert (Hperm : Permutation l s) by apply sorted_by_created_perm.
  assert (Hx : In x s) by exact (Permutation_in _ Hperm Hin).
  set (k := (List.length s - n)%nat).
  rewrite <- (firstn_skipn k s) in Hx.
  apply in_app_or in Hx. destruct Hx as [Hpre | Hsuf]; [exfalso | exact Hsuf].
  assert (Hsorted : StronglySorted by_created (firstn k s ++ skipn k s)).
  { rewrite firstn_skipn. apply sorted_by_created_sorted. }
  pose (f := fun kv : string * entry => created_at (snd x) <=? created_at (snd kv)).
  assert (Hk : (0 < k)%nat).
  { destruct k; [cbn in Hpre; contradiction | lia]. }
  assert (Hlen : List.length (skipn k s) = n).
  { rewrite length_skipn. unfold k in *. lia. }
  assert (Hsufall : List.length (filter f (skipn k s)) = n).
  { rewrite filter_length_all; [exact Hlen|].
    intros y Hy. unfold f. apply Z.leb_le.
    exact (sorted_app_le _ _ Hsorted x y Hpre Hy). }
  assert (Hpre1 : (1 <= List.length (filter f (firstn k s)))%nat).
  { apply (filter_length_In f x); [exact Hpre|]. unfold f. apply Z.leb_refl. }
  unfold recent_count in Hcount. fold f in Hcount.
  rewrite (filter_length_perm f _ _ Hperm) in Hcount.
  rewrite <- (firstn_skipn k s), filter_app, length_app in Hcount.
  lia.
Qed.

Lemma NoDup_keys_perm (l l' : memory) :
  Permutation l l' -> NoDup (keys l) -> NoDup (keys l').
Proof.
  intros Hp. apply Permutation_NoDup. apply Permutation_map. exact Hp.
Qed.

Lemma NoDup_keys_skipn (k : nat) (l : memory) :
  NoDup (keys l) -> NoDup (keys (skipn k l)).
Proof.
  revert l. induction k as [|k IH]; intros l Hnd; [exact Hnd|].
  destruct l as [|x rest]; [exact Hnd|].
  cbn [skipn]. apply IH. inversion Hnd; assumption.
Qed.

Lemma NoDup_keys_filter (f : string * entry -> bool) (l : memory) :
  NoDup (keys l) -> NoDup (keys (filter f l)).
Proof.
  induction l as [|x rest IH]; cbn [filter keys map]; intros Hnd; [constructor|].
  inversion Hnd as [|? ? Hx Hrest]; subst.
  destruct (f x); cbn [keys map]; [|exact (IH Hrest)].
  constructor; [|exact (IH Hrest)].
  intros Hin. apply Hx. unfold keys in *. apply in_map_iff in Hin.
  destruct Hin as (y & Hy & Hyin). apply in_map_iff. exists y.
  split; [exact Hy | exact (proj1 (proj1 (filter_In _ _ _) Hyin))].
Qed.

Lemma cleanup_NoDup (now : Z) (m : memory) :
  NoDup (keys m) -> NoDup (keys (_cleanup_memory_cache now m)).
Proof.
  intros Hnd. unfold _cleanup_memory_cache.
  set (m1 := filter _ m).
  assert (H1 : NoDup (keys m1)) by (apply NoDup_keys_filter, Hnd).
  destruct (100 <? List.length m1)%nat; [|exact H1].
  unfold last_n. apply NoDup_keys_skipn.
  exact (NoDup_keys_perm _ _ (sorted_by_created_perm m1) H1).
Qed.

Lemma cleanup_In (now : Z) (x : string * entry) (m : memory) :
  In x (_cleanup_memory_cache now m) -> In x m.
Proof.
  unfold _cleanup_memory_cache.
  set (m1 := filter _ m).
  assert (H1 : In x m1 -> In x m).
  { intros Hx. exact (proj1 (proj1 (filter_In _ _ _) Hx)). }
  destruct (100 <? List.length m1)%nat; [|exact H1].
  intros Hx. apply H1. unfold last_n in Hx.
  apply (Permutation_in _ (Permutation_sym (sorted_by_created_perm m1))).
  rewrite <- (firstn_skipn (List.length (sorted_by_created m1) - 50) (sorted_by_created m1)).
  apply in_or_app. right. exact Hx.
Qed.

Lemma recent_count_filter (t : Z) (f : string * entry -> bool) (m : memory) :
  (recent_count t (filter f m) <= recent_count t m)%nat.
Proof.
  unfold recent_count.
  induction m as [|x rest IH]; cbn [filter]; [lia|].
  destruct (f x); cbn [filter]; destruct (t <=? created_at (snd x)); cbn [List.length]; lia.
Qed.

Lemma recent_count_cleanup (t now : Z) (m : memory) :
  (recent_count t (_cleanup_memory_cache now m) <= recent_count t m)%nat.
Proof.
  unfold _cleanup_memory_cache.
  set (valid := fun kv : string * entry => _is_valid_cache_entry now (snd kv)).
  set (m1 := filter valid m).
  assert (H1 : (recent_count t m1 <= recent_count t m)%nat) by apply recent_count_filter.
  destruct (100 <? List.length m1)%nat; [|exact H1].
  unfold last_n, recent_count in *.
  set (s := sorted_by_created m1) in *.
  set (f := fun kv : string * entry => t <=? created_at (snd kv)) in *.
  rewrite (filter_length_perm f _ _ (sorted_by_created_perm m1)) in H1. fold s in H1.
  rewrite <- (firstn_skipn (List.length s - 50) s) in H1 at 1.
  rewrite filter_app, length_app in H1. lia.
Qed.

(** The eviction keeps a valid entry when at most 50 entries are as new
    as it is. *)
Lemma cleanup_keeps (now : Z) (key : string) (e : entry) (m : memory) :
  NoDup (keys m) ->
  dict_get key m = Some e ->
  _is_valid_cache_entry now e = true ->
  (recent_count (created_at e) m <= 50)%nat ->
  dict_get key (_cleanup_memory_cache now m) = Some e.
Proof.
  intros Hnd Hget Hvalid Hcount.
  apply In_dict_get; [apply cleanup_NoDup, Hnd|].
  unfold _cleanup_memory_cache.
  set (valid := fun kv : string * entry => _is_valid_cache_entry now (snd kv)).
  set (m1 := filter valid m).
  assert (Hin1 : In (key, e) m1).
  { apply filter_In. split; [exact (dict_get_In _ _ _ Hget) | exact Hvalid]. }
  destruct (100 <? List.length m1)%nat; [|exact Hin1].
  apply last_n_sorted_keeps; [exact Hin1|].
  cbn [snd]. pose proof (recent_count_filter (created_at e) valid m). fold m1 in H. lia.
Qed.

End EvictionFacts.

(* ====================================================================== *)
(** * SmartCache: TTL and tiering *)
(* ====================================================================== *)

Section CacheTheorems.

Import Cache.

(** After [set] the local tier holds the entry just written, provided
    its TTL is positive and fewer than 50 entries are as new. *)
Lemma set_stores_locally (c : SmartCache) (up : bool) (key : string) (v : value)
                         (ttl set_time : Z) :
  NoDup (keys (memory_cache c)) ->
  (recent_count set_time (memory_cache c) < 50)%nat ->
  0 < ttl ->
  dict_get key (memory_cache (set up set_time key v ttl c))
  = Some (mk_entry v (set_time + ttl) set_time).
Proof.
  intros Hnd Hrecent Httl. cbn [set memory_cache].
  apply cleanup_keeps.
  - apply dict_set_NoDup, Hnd.
  - apply dict_get_set_same.
  - unfold _is_valid_cache_entry. cbn [expires_at]. apply Z.ltb_lt. lia.
  - cbn [created_at].
    pose proof (recent_count_dict_set set_time key
                  (mk_entry v (set_time + ttl) set_time) (memory_cache c)). lia.
Qed.

(** Whatever [set] leaves under the key is the entry just written. *)
Lemma set_nothing_else (c : SmartCache) (up : bool) (key : string) (v : value)
                       (ttl set_time : Z) (e : entry) :
  NoDup (keys (memory_cache c)) ->
  dict_get key (memory_cache (set up set_time key v ttl c)) = Some e ->
  e = mk_entry v (set_time + ttl) set_time.
Proof.
  intros Hnd Hget. cbn [set memory_cache] in Hget.
  apply dict_get_In, cleanup_In in Hget.
  apply (In_dict_get _ _ _ (dict_set_NoDup key _ _ Hnd)) in Hget.
  rewrite dict_get_set_same in Hget. congruence.
Qed.

Lemma set_memory_NoDup (c : SmartCache) (up : bool) (key : string) (v : value)
                       (ttl set_time : Z) :
  NoDup (keys (memory_cache c)) ->
  NoDup (keys (memory_cache (set up set_time key v ttl c))).
Proof.
  intros Hnd. cbn [set memory_cache]. apply cleanup_NoDup, dict_set_NoDup, Hnd.
Qed.

(** What the Redis tier answers when it holds nothing stale. *)
Lemma redis_tier_fresh (c : SmartCache) (up : bool) (now : Z) (key : string)
                       (e x : entry) :
  remote_not_stale key e c ->
  get_redis_tier up now key c = Some x ->
  x = e /\ _is_valid_cache_entry now e = true.
Proof.
  unfold remote_not_stale, get_redis_tier, redis_get. intros Hfresh.
  destruct (redis_client c) as [r|]; [|discriminate].
  destruct up; [|discriminate].
  destruct (remote_lookup key r) as [[y deadline]|] eqn:Hl; [|discriminate].
  destruct (now <? deadline); [|discriminate].
  destruct (_is_valid_cache_entry now y) eqn:Hv; [|discriminate].
  intros [= <-]. pose proof (Hfresh r y deadline eq_refl Hl) as Hy.
  subst y. split; [reflexivity | exact Hv].
Qed.

(** A read of a cache that holds [e] under the key in its local tier and
    nothing stale in Redis. *)
Lemma get_fresh_entry (c : SmartCache) (up : bool) (now : Z) (key : string) (e : entry) :
  remote_not_stale key e c ->
  dict_get key (memory_cache c) = Some e ->
  _is_valid_cache_entry now e = true ->
  fst (get up now key c) = data e
  /\ memory_cache (snd (get up now key c)) = memory_cache c
  /\ redis_client (snd (get up now key c)) = redis_client c
  /\ hits (cache_stats (snd (get up now key c))) = hits (cache_stats c) + 1
  /\ misses (cache_stats (snd (get up now key c))) = misses (cache_stats c)
  /\ redis_hits (cache_stats (snd (get up now key c)))
     + memory_hits (cache_stats (snd (get up now key c)))
     = redis_hits (cache_stats c) + memory_hits (cache_stats c) + 1.
Proof.
  intros Hfresh Hget Hvalid. unfold get.
  destruct (get_redis_tier up now key c) as [x|] eqn:Hr.
  - destruct (redis_tier_fresh _ _ _ _ _ _ Hfresh Hr) as [-> _].
    cbn. repeat split; try reflexivity; lia.
  - rewrite Hget, Hvalid. cbn. repeat split; try reflexivity; lia.
Qed.

(** A read when whatever the tiers hold under the key is the expired [e]. *)
Lemma get_expired_entry (c : SmartCache) (up : bool) (now : Z) (key : string) (e : entry) :
  remote_not_stale key e c ->
  (forall e', dict_get key (memory_cache c) = Some e' -> e' = e) ->
  _is_valid_cache_entry now e = false ->
  fst (get up now key c) = VNone
  /\ redis_client (snd (get up now key c)) = redis_client c
  /\ (memory_cache (snd (get up now key c)) = memory_cache c
      \/ memory_cache (snd (get up now key c)) = dict_del key (memory_cache c)).
Proof.
  intros Hfresh Honly Hexp. unfold get.
  destruct (get_redis_tier up now key c) as [x|] eqn:Hr.
  - destruct (redis_tier_fresh _ _ _ _ _ _ Hfresh Hr) as [_ Hv]. congruence.
  - destruct (dict_get key (memory_cache c)) as [e'|] eqn:Hg.
    + rewrite (Honly e' eq_refl), Hexp. cbn. auto.
    + cbn. auto.
Qed.

Lemma remote_not_stale_same (key : string) (e : entry) (c c' : SmartCache) :
  redis_client c' = redis_client c ->
  remote_not_stale key e c -> remote_not_stale key e c'.
Proof.
  unfold remote_not_stale. intros Heq Hfresh r x d Hr. rewrite Heq in Hr.
  exact (Hfresh r x d Hr).
Qed.

(** A write that reaches Redis leaves nothing stale there; without a
    Redis client there is nothing to be stale. *)
Lemma remote_not_stale_after_write (c : SmartCache) (key : string) (v : value)
                                   (ttl set_time : Z) :
  0 < ttl ->
  remote_not_stale key (mk_entry v (set_time + ttl) set_time)
                   (set true set_time key v ttl c).
Proof.
  intros Httl r x d. cbn [set redis_client]. unfold redis_setex.
  replace (0 <? ttl) with true by (symmetry; apply Z.ltb_lt; exact Httl).
  destruct (redis_client c) as [r0|]; [|discriminate].
  intros [= <-]. cbn [remote_lookup]. rewrite String.eqb_refl.
  intros [= <- _]. reflexivity.
Qed.

Lemma dict_del_NoDup (key : string) (m : memory) :
  NoDup (keys m) -> NoDup (keys (dict_del key m)).
Proof.
  induction m as [|[k e] rest IH]; cbn [dict_del keys map fst]; intros Hnd.
  - constructor.
  - inversion Hnd as [|? ? Hk Hrest]; subst.
    destruct (String.eqb k key); [exact Hrest|].
    cbn [keys map fst]. constructor; [|exact (IH Hrest)].
    intros Hin. apply Hk. clear - Hin.
    induction rest as [|[k' e'] rest IH]; cbn [dict_del keys map fst] in *; [exact Hin|].
    destruct (String.eqb k' key); cbn [map fst In] in *.
    + right. exact Hin.
    + destruct Hin as [-> | Hin]; [left; reflexivity | right; exact (IH Hin)].
Qed.

(** The local tier stays a dictionary under reads and writes. *)
Lemma get_memory_NoDup (c : SmartCache) (up : bool) (now : Z) (key : string) :
  NoDup (keys (memory_cache c)) ->
  NoDup (keys (memory_cache (snd (get up now key c)))).
Proof.
  intros Hnd. unfold get.
  destruct (get_redis_tier up now key c); [exact Hnd|].
  destruct (dict_get key (memory_cache c)) as [e|]; [|exact Hnd].
  destruct (_is_valid_cache_entry now e); [exact Hnd|].
  cbn [snd memory_cache]. apply dict_del_NoDup, Hnd.
Qed.

(** C1, as the code has it.  Take a cache whose local tier is a
    dictionary with fewer than 50 entries created at [set_time] or later.
    After [set(key, v, ttl)] at [set_time], and as long as Redis holds
    under the key nothing but the entry this [set] wrote, a [get(key)] at
    an instant [now >= set_time] returns [v] when [now < set_time + ttl]
    and [None] when [now >= set_time + ttl].  A read of the unexpired
    entry leaves the entries of both tiers and the miss counter as they
    are; the statistics count it as one hit, of one tier.  Repeating the
    read at the same instant gives the same answer. *)
Theorem cache_ttl_correct (c : SmartCache) (up_set up_get up_again : bool)
                          (key : string) (v : value) (ttl set_time now : Z) :
  NoDup (keys (memory_cache c)) ->
  (recent_count set_time (memory_cache c) < 50)%nat ->
  set_time <= now ->
  remote_not_stale key (mk_entry v (set_time + ttl) set_time)
                   (set up_set set_time key v ttl c) ->
  (now < set_time + ttl ->
     fst (get up_get now key (set up_set set_time key v ttl c)) = v
     /\ memory_cache (snd (get up_get now key (set up_set set_time key v ttl c)))
        = memory_cache (set up_set set_time key v ttl c)
     /\ redis_client (snd (get up_get now key (set up_set set_time key v ttl c)))
        = redis_client (set up_set set_time key v ttl c)
     /\ hits (cache_stats (snd (get up_get now key (set up_set set_time key v ttl c))))
        = hits (cache_stats (set up_set set_time key v ttl c)) + 1
     /\ misses (cache_stats (snd (get up_get now key (set up_set set_time key v ttl c))))
        = misses (cache_stats (set up_set set_time key v ttl c))
     /\ redis_hits (cache_stats
                      (snd (get up_get now key (set up_set set_time key v ttl c))))
        + memory_hits (cache_stats
                         (snd (get up_get now key (set up_set set_time key v ttl c))))
        = redis_hits (cache_stats (set up_set set_time key v ttl c))
          + memory_hits (cache_stats (set up_set set_time key v ttl c)) + 1)
  /\ (set_time + ttl <= now ->
        fst (get up_get now key (set up_set set_time key v ttl c)) = VNone)
  /\ fst (get up_again now key
             (snd (get up_get now key (set up_set set_time key v ttl c))))
     = fst (get up_get now key (set up_set set_time key v ttl c)).
Proof.
  intros Hnd Hrecent Hafter Hfresh.
  set (c1 := set up_set set_time key v ttl c) in *.
  set (e := mk_entry v (set_time + ttl) set_time) in *.
  assert (Hnd1 : NoDup (keys (memory_cache c1))) by (apply set_memory_NoDup, Hnd).
  assert (Honly : forall e', dict_get key (memory_cache c1) = Some e' -> e' = e).
  { intros e' He'. exact (set_nothing_else _ _ _ _ _ _ _ Hnd He'). }
  destruct (Z.lt_ge_cases now (set_time + ttl)) as [Hlive | Hdead].
  - assert (Hvalid : _is_valid_cache_entry now e = true).
    { apply Z.ltb_lt. exact Hlive. }
    assert (Hget : dict_get key (memory_cache c1) = Some e).
    { apply set_stores_locally; [exact Hnd | exact Hrecent | lia]. }
    destruct (get_fresh_entry c1 up_get now key e Hfresh Hget Hvalid)
      as (Hv & Hm & Hr & Hh & Hmiss & Htier).
    split; [intros _; repeat split; assumption|].
    split; [intros Hge; lia|].
    rewrite Hv.
    apply (get_fresh_entry (snd (get up_get now key c1)) up_again now key e).
    + exact (remote_not_stale_same _ _ _ _ Hr Hfresh).
    + rewrite Hm. exact Hget.
    + exact Hvalid.
  - assert (Hexp : _is_valid_cache_entry now e = false).
    { apply Z.ltb_ge. exact Hdead. }
    destruct (get_expired_entry c1 up_get now key e Hfresh Honly Hexp)
      as (Hv & Hr & Hm).
    split; [intros Hlt; lia|].
    split; [intros _; exact Hv|].
    rewrite Hv.
    apply (get_expired_entry (snd (get up_get now key c1)) up_again now key e).
    + exact (remote_not_stale_same _ _ _ _ Hr Hfresh).
    + destruct Hm as [-> | ->]; [exact Honly|].
      rewrite (dict_get_del_same key _ Hnd1). discriminate.
    + exact Hexp.
Qed.

Lemma cache_ttl_correct_witness :
  fst (get false 19 "pppoe_stats"
         (set false 0 "pppoe_stats" pppoe_sample CACHE_TTLS.pppoe_stats empty_local))
  = pppoe_sample
  /\ fst (get false 21 "pppoe_stats"
            (set false 0 "pppoe_stats" pppoe_sample CACHE_TTLS.pppoe_stats empty_local))
     = VNone
  /\ fst (get false 21 "pppoe_stats"
            (snd (get false 19 "pppoe_stats"
                    (set false 0 "pppoe_stats" pppoe_sample CACHE_TTLS.pppoe_stats
                         empty_local))))
     = VNone
  /\ fst (get true 19 "pppoe_stats"
            (set true 0 "pppoe_stats" pppoe_sample CACHE_TTLS.pppoe_stats
                 empty_with_redis))
     = pppoe_sample
  /\ hits (cache_stats
             (snd (get false 19 "pppoe_stats"
                     (set false 0 "pppoe_stats" pppoe_sample CACHE_TTLS.pppoe_stats
                          empty_local)))) = 1
  /\ misses (cache_stats
               (snd (get false 19 "pppoe_stats"
                       (set false 0 "pppoe_stats" pppoe_sample CACHE_TTLS.pppoe_stats
                            empty_local)))) = 0
  /\ memory_cache (snd (get false 19 "pppoe_stats"
                          (set false 0 "pppoe_stats" pppoe_sample CACHE_TTLS.pppoe_stats
                               empty_local)))
     = [("pppoe_stats", mk_entry pppoe_sample 20 0)].
Proof.
  assert (Hnd : NoDup (keys (memory_cache empty_local))) by constructor.
  assert (Hrecent : (recent_count 0 (memory_cache empty_local) < 50)%nat)
    by (cbn; lia).
  assert (Hfresh : remote_not_stale "pppoe_stats"
                     (mk_entry pppoe_sample (0 + CACHE_TTLS.pppoe_stats) 0)
                     (set false 0 "pppoe_stats" pppoe_sample CACHE_TTLS.pppoe_stats
                          empty_local)).
  { intros r x d Hr. discriminate Hr. }
  destruct (cache_ttl_correct empty_local false false false "pppoe_stats" pppoe_sample
              CACHE_TTLS.pppoe_stats 0 19 Hnd Hrecent ltac:(lia) Hfresh)
    as (Hlive & _ & _).
  destruct (cache_ttl_correct empty_local false false false "pppoe_stats" pppoe_sample
              CACHE_TTLS.pppoe_stats 0 21 Hnd Hrecent ltac:(lia) Hfresh)
    as (_ & Hdead & _).
  destruct (cache_ttl_correct empty_with_redis true true true "pppoe_stats" pppoe_sample
              CACHE_TTLS.pppoe_stats 0 19 Hnd Hrecent ltac:(lia)
              (remote_not_stale_after_write empty_with_redis "pppoe_stats" pppoe_sample
                 CACHE_TTLS.pppoe_stats 0 eq_refl))
    as (Hredis & _ & _).
  destruct (Hlive ltac:(unfold CACHE_TTLS.pppoe_stats; lia))
    as (Hvalue & Hmemory & _ & Hhits & Hmisses & _).
  split; [|split; [|split; [|split; [|split; [|split]]]]].
  - exact Hvalue.
  - apply Hdead. unfold CACHE_TTLS.pppoe_stats. lia.
  - reflexivity.
  - apply Hredis. unfold CACHE_TTLS.pppoe_stats. lia.
  - rewrite Hhits. reflexivity.
  - rewrite Hmisses. reflexivity.
  - rewrite Hmemory. reflexivity.
Defined.

(** C1 as worded fails without the two side conditions.
    An older entry in Redis: Redis holds the entry written at instant 0
    with a TTL of 180 seconds, and the write of instant 10 with a TTL of
    20 seconds reaches the local tier only.  The reads at instants 15
    and 31 are both answered by Redis with the value of instant 0: not
    the value written, before its expiry at instant 30, and not [None]
    after it.
    A crowded local tier: the tier holds 101 entries of later creation
    instants; the [set] at instant 0 with a TTL of 20 seconds evicts the
    entry it has just stored, and the read at instant 5 returns [None]. *)
Lemma cache_ttl_side_conditions_needed :
  fst (get true 15 "pppoe_stats"
         (set false 10 "pppoe_stats" pppoe_sample_later 20
            (set true 0 "pppoe_stats" pppoe_sample 180 empty_with_redis)))
  = pppoe_sample
  /\ pppoe_sample <> pppoe_sample_later
  /\ fst (get true 31 "pppoe_stats"
            (set false 10 "pppoe_stats" pppoe_sample_later 20
               (set true 0 "pppoe_stats" pppoe_sample 180 empty_with_redis)))
     = pppoe_sample
  /\ pppoe_sample <> VNone
  /\ ~ remote_not_stale "pppoe_stats" (mk_entry pppoe_sample_later (10 + 20) 10)
        (set false 10 "pppoe_stats" pppoe_sample_later 20
           (set true 0 "pppoe_stats" pppoe_sample 180 empty_with_redis))
  /\ fst (get false 5 "pppoe_stats"
            (set false 0 "pppoe_stats" pppoe_sample 20
               (mk_cache None memory_101 (mk_stats 0 0 0 0))))
     = VNone
  /\ recent_count 0 memory_101 = 101%nat
  /\ NoDup (keys memory_101).
Proof.
  split; [vm_compute; reflexivity|].
  split; [discriminate|].
  split; [vm_compute; reflexivity|].
  split; [discriminate|].
  split.
  { intros Hfresh.
    pose proof (Hfresh _ _ _ eq_refl eq_refl) as Hsame. discriminate Hsame. }
  split; [vm_compute; reflexivity|].
  split; [vm_compute; reflexivity|].
  assert (Hkeys : nodup string_dec (keys memory_101) = keys memory_101)
    by (vm_compute; reflexivity).
  rewrite <- Hkeys. apply NoDup_nodup.
Qed.

(** C5, as the code has it.  When Redis raises during [set] (or there is
    no Redis client), the entry is stored in the local tier all the same
    and Redis is left as it was; neither [set] nor [get] raises.  A
    [get] before expiry returns [v] from the local tier whenever the
    Redis tier gives no valid entry for the key at that moment - it is
    down, raises, misses or holds an expired entry; when Redis does give
    a valid entry, the value of that entry is returned. *)
Theorem cache_local_fallback (c : SmartCache) (up_get : bool) (key : string)
                             (v : value) (ttl set_time now : Z) :
  NoDup (keys (memory_cache c)) ->
  (recent_count set_time (memory_cache c) < 50)%nat ->
  set_time <= now ->
  now < set_time + ttl ->
  dict_get key (memory_cache (set false set_time key v ttl c))
  = Some (mk_entry v (set_time + ttl) set_time)
  /\ redis_client (set false set_time key v ttl c) = redis_client c
  /\ (get_redis_tier up_get now key (set false set_time key v ttl c) = None ->
      fst (get up_get now key (set false set_time key v ttl c)) = v)
  /\ (forall x,
        get_redis_tier up_get now key (set false set_time key v ttl c) = Some x ->
        fst (get up_get now key (set false set_time key v ttl c)) = data x)
  /\ fst (get false now key (set false set_time key v ttl c)) = v.
Proof.
  intros Hnd Hrecent Hafter Hlive.
  assert (Hget : dict_get key (memory_cache (set false set_time key v ttl c))
                 = Some (mk_entry v (set_time + ttl) set_time)).
  { apply set_stores_locally; [exact Hnd | exact Hrecent | lia]. }
  assert (Hvalid : _is_valid_cache_entry now (mk_entry v (set_time + ttl) set_time) = true).
  { apply Z.ltb_lt. exact Hlive. }
  assert (Hlocal : forall up,
             get_redis_tier up now key (set false set_time key v ttl c) = None ->
             fst (get up now key (set false set_time key v ttl c)) = v).
  { intros up Hnone. unfold get. rewrite Hnone, Hget, Hvalid. reflexivity. }
  split; [exact Hget|].
  split; [cbn [set redis_client redis_setex]; destruct (redis_client c); reflexivity|].
  split; [apply Hlocal|].
  split; [intros x Hx; unfold get; rewrite Hx; reflexivity|].
  apply Hlocal. unfold get_redis_tier, redis_get.
  destruct (redis_client (set false set_time key v ttl c)); reflexivity.
Qed.

Lemma cache_local_fallback_witness :
  dict_get "pppoe_stats"
    (memory_cache (set false 0 "pppoe_stats" pppoe_sample 20 empty_with_redis))
  = Some (mk_entry pppoe_sample 20 0)
  /\ fst (get false 19 "pppoe_stats"
            (set false 0 "pppoe_stats" pppoe_sample 20 empty_with_redis))
     = pppoe_sample.
Proof.
  destruct (cache_local_fallback empty_with_redis true "pppoe_stats" pppoe_sample 20 0 19)
    as (Hstored & _ & _ & _ & Hread).
  - constructor.
  - cbn. lia.
  - lia.
  - lia.
  - split; [exact Hstored | exact Hread].
Defined.

(** C5 as worded fails when Redis still holds an older, unexpired entry
    for the key: the write at instant 10 reaches the local tier only, and
    the read at instant 15 is answered by Redis with the value written at
    instant 0. *)
Lemma cache_stale_remote_wins :
  fst (get true 15 "pppoe_stats"
         (set false 10 "pppoe_stats" pppoe_sample_later 180
            (set true 0 "pppoe_stats" pppoe_sample 180 empty_with_redis)))
  = pppoe_sample
  /\ fst (get true 15 "pppoe_stats"
            (set false 10 "pppoe_stats" pppoe_sample_later 180
               (set true 0 "pppoe_stats" pppoe_sample 180 empty_with_redis)))
     <> pppoe_sample_later.
Proof.
  split; [reflexivity | discriminate].
Qed.

End CacheTheorems.

(* ====================================================================== *)
(** * The retry decorator *)
(* ====================================================================== *)


Lemma backoff_power_nonneg (attempt : nat) :
  (0 <= RETRY_CONFIG.backoff_multiplier ^ Z.of_nat attempt)%Q.
Proof. apply Qpower_0_le. unfold RETRY_CONFIG.backoff_multiplier. discriminate. Qed.

Lemma backoff_delay_nonneg (base_delay : Q) (i : nat) :
  (0 <= base_delay)%Q -> (0 <= backoff_delay base_delay i)%Q.
Proof.
  intros Hb. unfold backoff_delay. apply Q.min_glb.
  - apply Qmult_le_0_compat; [exact Hb | apply backoff_power_nonneg].
  - unfold RETRY_CONFIG.max_delay. discriminate.
Qed.


(** Below attempt 1024 the delay the code computes is the number
    [min(base_delay * multiplier^attempt, max_delay)]; from there on the
    computation raises. *)
Lemma retry_delay_in_range (base_delay : Q) (attempt : nat) :
  (attempt < 1024)%nat ->
  retry_delay base_delay attempt = Return (backoff_delay base_delay attempt).
Proof.
  intros Hlt. unfold retry_delay, backoff_power.
  replace (1024 <=? attempt)%nat with false by (symmetry; apply Nat.leb_gt; exact Hlt).
  reflexivity.
Qed.

Lemma retry_delay_out_of_range (base_delay : Q) (attempt : nat) :
  (1024 <= attempt)%nat ->
  retry_delay base_delay attempt
  = Raise (Exception "OverflowError" "(34, 'Numerical result out of range')").
Proof.
  intros Hge. unfold retry_delay, backoff_power.
  replace (1024 <=? attempt)%nat with true by (symmetry; apply Nat.leb_le; exact Hge).
  reflexivity.
Qed.

Lemma call_count_app (evs evs' : list event) :
  call_count (evs ++ evs') = (call_count evs + call_count evs')%nat.
Proof. unfold call_count. rewrite filter_app, length_app. reflexivity. Qed.

Lemma sleeps_of_app (evs evs' : list event) :
  sleeps_of (evs ++ evs') = sleeps_of evs ++ sleeps_of evs'.
Proof.
  induction evs as [|ev evs IH]; [reflexivity|].
  destruct ev; cbn [app sleeps_of]; rewrite IH; reflexivity.
Qed.

Lemma call_count_failure_events (name : string) (base_delay : Q) (first n : nat) :
  call_count (failure_events name base_delay first n) = n.
Proof.
  revert first. induction n as [|n IH]; intros first; [reflexivity|].
  destruct n as [|n]; [reflexivity|].
  change (failure_events name base_delay first (S (S n)))
    with (EvCall name :: EvSleep (backoff_delay base_delay first)
            :: failure_events name base_delay (S first) (S n)).
  unfold call_count in *. cbn [filter is_call List.length].
  rewrite (IH (S first)). reflexivity.
Qed.

Lemma sleeps_of_failure_events (name : string) (base_delay : Q) (first n : nat) :
  sleeps_of (failure_events name base_delay first n)
  = map (backoff_delay base_delay) (seq first (n - 1)).
Proof.
  revert first. induction n as [|n IH]; intros first; [reflexivity|].
  destruct n as [|n]; [reflexivity|].
  change (failure_events name base_delay first (S (S n)))
    with (EvCall name :: EvSleep (backoff_delay base_delay first)
            :: failure_events name base_delay (S first) (S n)).
  cbn [sleeps_of]. rewrite (IH (S first)).
  replace (S (S n) - 1)%nat with (S n) by lia.
  replace (S n - 1)%nat with n by lia. reflexivity.
Qed.

(** What a configuration stands for is what [x or default] computes. *)
Lemma configured_attempts_in_force (max_attempts : option Z) (n : Z) :
  configured_attempts max_attempts n ->
  py_or (Z.eqb 0) max_attempts RETRY_CONFIG.max_attempts = n.
Proof.
  intros [[-> Hn] | [[-> | ->] ->]]; [|reflexivity | reflexivity].
  unfold py_or. destruct (0 =? n) eqn:E; [|reflexivity].
  apply Z.eqb_eq in E. congruence.
Qed.

Lemma configured_delay_in_force (delay : option Q) (d : Q) :
  configured_delay delay d ->
  py_or (Qeq_bool 0) delay RETRY_CONFIG.base_delay = d.
Proof.
  intros [[-> Hd] | [[-> | (z & -> & Hz)] ->]].
  - unfold py_or. rewrite Hd. reflexivity.
  - reflexivity.
  - unfold py_or. rewrite Hz. reflexivity.
Qed.

Section RetryFacts.

Context {D : Type} `{Environment D}.

Lemma retry_loop_cons {A : Type} (name : string) (func : M D A) (attempts : Z)
      (base_delay : Q) (attempt : nat) (rest : list nat)
      (last_exception : option exn) (w : World D) :
  retry_loop name func attempts base_delay (attempt :: rest) last_exception w
  = match func (emit (EvCall name) w) with
    | (Return a, w1) => (Return a, w1)
    | (Raise e, w1) =>
        if Z.of_nat attempt =? attempts - 1 then raise_last (Some e) w1
        else
          match retry_delay base_delay attempt with
          | Raise e' => (Raise e', w1)
          | Return seconds =>
              match time_sleep seconds w1 with
              | (Return _, w2) =>
                  retry_loop name func attempts base_delay rest (Some e) w2
              | (Raise e', w2) => (Raise e', w2)
              end
          end
    end.
Proof. reflexivity. Qed.

Lemma time_sleep_nonneg (seconds : Q) (w : World D) :
  (0 <= seconds)%Q ->
  time_sleep seconds w = (Return tt, slept seconds w).
Proof.
  intros Hs. unfold time_sleep, slept.
  replace (Qle_bool 0 seconds) with true by (symmetry; apply Qle_bool_iff, Hs).
  reflexivity.
Qed.

(** The attempts from [first] on, seen from the second of them. *)
Lemma attempt_world_from_shift {A : Type} (name : string) (func : M D A)
      (base_delay : Q) (first j : nat) (w : World D) :
  attempt_world_from name func base_delay first (S j) w
  = attempt_world_from name func base_delay (S first) j
      (slept (backoff_delay base_delay first) (snd (func (emit (EvCall name) w)))).
Proof.
  induction j as [|j IH].
  - cbn [attempt_world_from]. rewrite Nat.add_0_r. reflexivity.
  - change (attempt_world_from name func base_delay first (S (S j)) w)
      with (emit (EvCall name)
              (slept (backoff_delay base_delay (first + S j))
                 (snd (func (attempt_world_from name func base_delay first (S j) w))))).
    rewrite IH. cbn [attempt_world_from].
    replace (first + S j)%nat with (S first + j)%nat by lia. reflexivity.
Qed.

(** The run of the loop.  With the attempts [first, ..., first + m] left
    to make: when the first [k] of them raise and attempt [first + k]
    either returns or is the last one, the loop ends with the outcome
    and in the state of that attempt - it has called the function
    [k + 1] times, slept between the calls, and done nothing after. *)
Lemma retry_loop_run {A : Type} (name : string) (func : M D A)
      (attempts : Z) (base_delay : Q) :
  (0 <= base_delay)%Q ->
  forall (k m first : nat) (last_exception : option exn) (w : World D),
    attempts = Z.of_nat (first + S m) ->
    (k <= m)%nat ->
    (first + k <= 1024)%nat ->
    (forall i, (i < k)%nat ->
               is_return (fst (func (attempt_world_from name func base_delay first i w)))
               = false) ->
    (is_return (fst (func (attempt_world_from name func base_delay first k w))) = true
     \/ k = m) ->
    retry_loop name func attempts base_delay (seq first (S m)) last_exception w
    = func (attempt_world_from name func base_delay first k w).
Proof.
  intros Hbase. induction k as [|k IH];
    intros m first last_exception w Hatt Hkm Hbound Hfail Hend;
    cbn [seq]; rewrite retry_loop_cons.
  - cbn [attempt_world_from] in *.
    destruct (func (emit (EvCall name) w)) as [[a|e] w1]; [reflexivity|].
    destruct Hend as [Hret | <-]; [discriminate Hret|].
    replace (Z.of_nat first =? attempts - 1) with true
      by (symmetry; apply Z.eqb_eq; lia).
    reflexivity.
  - destruct m as [|m]; [lia|].
    pose proof (Hfail 0%nat ltac:(lia)) as Hfirst. cbn [attempt_world_from] in Hfirst.
    rewrite (attempt_world_from_shift name func base_delay first k w).
    destruct (func (emit (EvCall name) w)) as [[a|e] w1] eqn:Hf; [discriminate Hfirst|].
    replace (Z.of_nat first =? attempts - 1) with false
      by (symmetry; apply Z.eqb_neq; lia).
    rewrite (retry_delay_in_range base_delay first ltac:(lia)).
    rewrite (time_sleep_nonneg _ w1 (backoff_delay_nonneg base_delay first Hbase)).
    cbn [snd].
    apply (IH m (S first) (Some e)); [lia | lia | lia | |].
    + intros i Hi. specialize (Hfail (S i) ltac:(lia)).
      rewrite (attempt_world_from_shift name func base_delay first i w), Hf in Hfail.
      exact Hfail.
    + destruct Hend as [Hret | Hlast]; [left | right; lia].
      rewrite (attempt_world_from_shift name func base_delay first k w), Hf in Hret.
      exact Hret.
Qed.

Lemma emitted_by_appends {A : Type} (func : M D A) (w : World D) :
  appends func -> trace (snd (func w)) = trace w ++ emitted_by func w.
Proof.
  intros Happ. unfold emitted_by. destruct (Happ w) as [evs ->].
  rewrite skipn_app, skipn_all, Nat.sub_diag. reflexivity.
Qed.

Lemma emitted_by_trace {A : Type} (func : M D A) (w : World D) (evs : list event) :
  trace (snd (func w)) = trace w ++ evs -> emitted_by func w = evs.
Proof.
  intros Ht. unfold emitted_by. rewrite Ht, skipn_app, skipn_all, Nat.sub_diag.
  reflexivity.
Qed.

(** The trace after attempt [i] of a function that only adds to it. *)
Lemma attempts_log_trace {A : Type} (name : string) (func : M D A)
      (base_delay : Q) (w : World D) :
  appends func ->
  forall i,
    trace (snd (func (attempt_world name func base_delay i w)))
    = trace w ++ attempts_log name func base_delay i w.
Proof.
  intros Happ. induction i as [|i IH].
  - rewrite (emitted_by_appends func _ Happ). cbn [attempts_log].
    unfold attempt_world. cbn [attempt_world_from trace emit].
    rewrite <- app_assoc. reflexivity.
  - rewrite (emitted_by_appends func _ Happ). cbn [attempts_log].
    unfold attempt_world in *. cbn [attempt_world_from trace emit slept set_env].
    rewrite IH, <- !app_assoc. reflexivity.
Qed.

(** In the log of a function that neither calls a wrapped function nor
    sleeps, the calls and the sleeps are those of the wrapper. *)
Lemma attempts_log_counts {A : Type} (name : string) (func : M D A)
      (base_delay : Q) (w : World D) :
  unwrapped func ->
  forall i,
    call_count (attempts_log name func base_delay i w) = S i
    /\ sleeps_of (attempts_log name func base_delay i w)
       = map (backoff_delay base_delay) (seq 0 i).
Proof.
  intros Hun. induction i as [|i [IHc IHs]]; cbn [attempts_log].
  - destruct (Hun (attempt_world name func base_delay 0 w)) as [Hc Hs].
    split.
    + change (call_count (EvCall name :: ?l)) with (S (call_count l)). rewrite Hc.
      reflexivity.
    + cbn [sleeps_of]. exact Hs.
  - destruct (Hun (attempt_world name func base_delay (S i) w)) as [Hc Hs].
    split.
    + rewrite call_count_app, IHc.
      change (call_count (EvSleep ?d :: EvCall name :: ?l)) with (S (call_count l)).
      rewrite Hc. lia.
    + rewrite sleeps_of_app, IHs. cbn [sleeps_of]. rewrite Hs.
      rewrite seq_S, map_app. reflexivity.
Qed.

End RetryFacts.

Section RetryTheorems.

Context {D : Type} `{Environment D}.


(** The attempts the wrapper works with: the configured number unless it
    is 0 or missing. *)
Lemma effective_attempts_configured (n : Z) :
  n <> 0 -> effective_attempts (Some n) = n.
Proof.
  intros Hn. unfold effective_attempts, py_or.
  destruct (0 =? n) eqn:E; [apply Z.eqb_eq in E; congruence | reflexivity].
Qed.

End RetryTheorems.


(* ====================================================================== *)
(** * The command executor *)
(* ====================================================================== *)

Section ExecutorFacts.

Context {D : Type} `{Environment D}.

(** The undecorated body turns every exception into a result. *)
Lemma execute_commands_body_returns (self : RouterConnection)
      (commands : list string) (w : World D) :
  is_return (fst (execute_commands_body self commands w)) = true.
Proof.
  unfold execute_commands_body. destruct commands as [|c rest]; [reflexivity|].
  destruct (get_connection self (run_batch (_optimize_commands (c :: rest))) w)
    as [[results | e] w1]; reflexivity.
Qed.

Lemma execute_commands_body_error (self : RouterConnection)
      (commands : list string) (w : World D) (e : exn) :
  commands <> [] ->
  fst (get_connection self (run_batch (_optimize_commands commands)) w) = Raise e ->
  fst (execute_commands_body self commands w)
  = Return [String.append "Error: " (exn_msg e)].
Proof.
  intros Hne Hraise. unfold execute_commands_body.
  destruct commands as [|c rest]; [contradiction|].
  destruct (get_connection self (run_batch (_optimize_commands (c :: rest))) w)
    as [[results | e'] w1]; cbn [fst] in *; congruence.
Qed.

(** Under [with_timeout] a function that never raises can only raise the
    [TimeoutError] of the wrapper. *)
Lemma with_timeout_raises {A : Type} (timeout_seconds : Z) (name : string)
      (func : M D A) (w : World D) (e : exn) :
  is_return (fst (func w)) = true ->
  fst (with_timeout timeout_seconds name func w) = Raise e ->
  exn_class e = "TimeoutError"
  /\ timeout_seconds < now (snd (func w)) - now w.
Proof.
  unfold with_timeout. intros Hret.
  destruct (func w) as [r w1]. cbn [fst snd] in *.
  destruct (timeout_seconds <? now w1 - now w) eqn:Ht; cbn [fst].
  - intros [= <-]. split; [reflexivity | apply Z.ltb_lt, Ht].
  - intros ->. discriminate.
Qed.

Lemma with_timeout_in_time {A : Type} (timeout_seconds : Z) (name : string)
      (func : M D A) (w : World D) :
  now (snd (func w)) - now w <= timeout_seconds ->
  with_timeout timeout_seconds name func w = func w.
Proof.
  unfold with_timeout. intros Hin. destruct (func w) as [r w1]. cbn [snd] in Hin.
  replace (timeout_seconds <? now w1 - now w) with false
    by (symmetry; apply Z.ltb_ge; lia).
  reflexivity.
Qed.

(** What the retry loop raises is what the wrapped function raised (or
    the exception it already holds), as long as the attempts stay below
    number 1024. *)
Lemma retry_loop_raises {A : Type} (P : exn -> Prop) (name : string)
      (func : M D A) (attempts : Z) (base_delay : Q) :
  (0 <= base_delay)%Q ->
  (forall w e, fst (func w) = Raise e -> P e) ->
  forall (todo : list nat) (last_exception : option exn) (w : World D) (e : exn),
    Forall (fun attempt => (attempt < 1024)%nat) todo ->
    (todo = [] -> exists e0, last_exception = Some e0 /\ P e0) ->
    fst (retry_loop name func attempts base_delay todo last_exception w) = Raise e ->
    P e.
Proof.
  intros Hbase Hfunc. induction todo as [|attempt rest IH];
    intros last_exception w e Hsmall Hlast.
  - destruct (Hlast eq_refl) as (e0 & -> & He0). cbn. intros [= <-]. exact He0.
  - rewrite retry_loop_cons.
    inversion Hsmall as [|? ? Hattempt Hrest]; subst.
    pose proof (Hfunc (emit (EvCall name) w)) as Hf.
    destruct (func (emit (EvCall name) w)) as [[a | e1] w1]; cbn [fst] in *.
    + discriminate.
    + specialize (Hf e1 eq_refl).
      destruct (Z.of_nat attempt =? attempts - 1).
      * cbn. intros [= <-]. exact Hf.
      * rewrite (retry_delay_in_range base_delay attempt Hattempt).
        rewrite (time_sleep_nonneg _ _ (backoff_delay_nonneg _ attempt Hbase)).
        apply IH; [exact Hrest|]. intros _. exists e1. split; [reflexivity | exact Hf].
Qed.

(** A command loop that raises has sent the commands up to the failing
    one, in order, and none of those after it. *)
Lemma ssh_command_loop_stops (h : handle) (commands : list string) :
  forall (results : list string) (w w' : World D) (e : exn),
    ssh_command_loop h commands results w = (Raise e, w') ->
    exists sent failed skipped,
      commands = sent ++ failed :: skipped
      /\ trace w' = trace w ++ map (EvSend h) (sent ++ [failed])
      /\ pool w' = pool w.
Proof.
  induction commands as [|command rest IH]; intros results w w' e;
    cbn [ssh_command_loop]; [discriminate|].
  destruct (ssh_exchange h command (env (emit (EvSend h command) w)))
    as [[raw | e1] d] eqn:Hx.
  - intros Hloop. destruct (IH _ _ _ _ Hloop) as (sent & failed & skipped & Hc & Ht & Hp).
    exists (command :: sent), failed, skipped. split; [rewrite Hc; reflexivity|].
    split; [|exact Hp].
    rewrite Ht. cbn [set_env emit trace map app]. rewrite <- app_assoc. reflexivity.
  - intros [= <- <-]. exists [], command, rest. repeat split.
Qed.

Lemma telnet_command_loop_stops (h : handle) (commands : list string) :
  forall (results : list string) (w w' : World D) (e : exn),
    telnet_command_loop h commands results w = (Raise e, w') ->
    exists sent failed skipped,
      commands = sent ++ failed :: skipped
      /\ trace w' = trace w ++ map (EvSend h) (sent ++ [failed])
      /\ pool w' = pool w.
Proof.
  induction commands as [|command rest IH]; intros results w w' e;
    cbn [telnet_command_loop]; [discriminate|].
  destruct (telnet_exchange h command (env (emit (EvSend h command) w)))
    as [[raw | e1] d] eqn:Hx.
  - intros Hloop. destruct (IH _ _ _ _ Hloop) as (sent & failed & skipped & Hc & Ht & Hp).
    exists (command :: sent), failed, skipped. split; [rewrite Hc; reflexivity|].
    split; [|exact Hp].
    rewrite Ht. cbn [set_env emit trace map app]. rewrite <- app_assoc. reflexivity.
  - intros [= <- <-]. exists [], command, rest. repeat split.
Qed.

(** Within the time budget the decorated function is one call of its
    body: nothing it does is ever retried. *)
Lemma execute_commands_once (self : RouterConnection) (commands : list string)
      (w : World D) :
  now (snd (execute_commands_body self commands (emit (EvCall "execute_commands") w)))
  - now (emit (EvCall "execute_commands") w) <= TIMEOUTS.command * 2 ->
  execute_commands self commands w
  = execute_commands_body self commands (emit (EvCall "execute_commands") w).
Proof.
  intros Hin. unfold execute_commands, retry_on_failure.
  change (seq 0 (Z.to_nat (py_or (Z.eqb 0) None RETRY_CONFIG.max_attempts)))
    with [0; 1; 2]%nat.
  rewrite retry_loop_cons, (with_timeout_in_time _ _ _ _ Hin).
  pose proof (execute_commands_body_returns self commands
                (emit (EvCall "execute_commands") w)) as Hret.
  destruct (execute_commands_body self commands (emit (EvCall "execute_commands") w))
    as [[results | e] w1]; [reflexivity | discriminate].
Qed.

Lemma with_timeout_late {A : Type} (timeout_seconds : Z) (name : string)
      (func : M D A) (w : World D) :
  timeout_seconds < now (snd (func w)) - now w ->
  with_timeout timeout_seconds name func w
  = (Raise (Exception "TimeoutError"
              (String.append name
                 (String.append " excedeu timeout de "
                    (String.append (decimal_text timeout_seconds) "s")))),
     snd (func w)).
Proof.
  unfold with_timeout. intros Hlate. destruct (func w) as [r w1]. cbn [snd] in *.
  replace (timeout_seconds <? now w1 - now w) with true
    by (symmetry; apply Z.ltb_lt; exact Hlate).
  reflexivity.
Qed.

(** A run of the batch that overran the budget is a failed attempt of
    the retry wrapper; a run within the budget is a successful one. *)
Lemma batch_attempt_fails (self : RouterConnection) (commands : list string)
      (w_i : World D) :
  over_budget self commands w_i ->
  is_return (fst (with_timeout (TIMEOUTS.command * 2) "execute_commands"
                    (execute_commands_body self commands) w_i)) = false.
Proof. intros Hover. rewrite (with_timeout_late _ _ _ _ Hover). reflexivity. Qed.

Lemma batch_attempt_succeeds (self : RouterConnection) (commands : list string)
      (w_i : World D) :
  ~ over_budget self commands w_i ->
  with_timeout (TIMEOUTS.command * 2) "execute_commands"
    (execute_commands_body self commands) w_i
  = execute_commands_body self commands w_i.
Proof.
  intros Hin. apply with_timeout_in_time. unfold over_budget in Hin. lia.
Qed.

(** The attempts of [execute_commands]: the first run of the batch that
    stays within the budget ends the call with its result. *)
Lemma execute_commands_reattempts (self : RouterConnection) (commands : list string)
      (w : World D) (k : nat) :
  (k < 3)%nat ->
  (forall i, (i < k)%nat -> over_budget self commands (batch_attempt self commands i w)) ->
  ~ over_budget self commands (batch_attempt self commands k w) ->
  execute_commands self commands w
  = execute_commands_body self commands (batch_attempt self commands k w).
Proof.
  intros Hk Hover Hin.
  rewrite <- (batch_attempt_succeeds self commands _ Hin).
  unfold execute_commands, retry_on_failure, batch_attempt, attempt_world.
  change (py_or (Z.eqb 0) None RETRY_CONFIG.max_attempts) with 3.
  change (py_or (Qeq_bool 0) None RETRY_CONFIG.base_delay) with RETRY_CONFIG.base_delay.
  change (seq 0 (Z.to_nat 3)) with (seq 0 3).
  apply (retry_loop_run "execute_commands" _ 3 RETRY_CONFIG.base_delay
           ltac:(vm_compute; discriminate) k 2 0 None w eq_refl); [lia | lia | |].
  - intros i Hi. apply batch_attempt_fails. exact (Hover i Hi).
  - left. fold (attempt_world "execute_commands"
                  (with_timeout (TIMEOUTS.command * 2) "execute_commands"
                     (execute_commands_body self commands))
                  RETRY_CONFIG.base_delay k w).
    fold (batch_attempt self commands k w).
    rewrite (batch_attempt_succeeds self commands _ Hin).
    apply execute_commands_body_returns.
Qed.

(** When all three runs overran the budget, the call ends as the third
    one does, with the [TimeoutError] of the wrapper. *)
Lemma execute_commands_gives_up (self : RouterConnection) (commands : list string)
      (w : World D) :
  (forall i, (i < 3)%nat -> over_budget self commands (batch_attempt self commands i w)) ->
  execute_commands self commands w
  = (Raise (Exception "TimeoutError" "execute_commands excedeu timeout de 24s"),
     snd (execute_commands_body self commands (batch_attempt self commands 2 w))).
Proof.
  intros Hover.
  transitivity (with_timeout (TIMEOUTS.command * 2) "execute_commands"
                  (execute_commands_body self commands)
                  (batch_attempt self commands 2 w));
    [|rewrite (with_timeout_late (TIMEOUTS.command * 2) "execute_commands"
                 (execute_commands_body self commands) _ (Hover 2%nat ltac:(lia)));
      f_equal].
  unfold execute_commands, retry_on_failure, batch_attempt, attempt_world.
  change (py_or (Z.eqb 0) None RETRY_CONFIG.max_attempts) with 3.
  change (py_or (Qeq_bool 0) None RETRY_CONFIG.base_delay) with RETRY_CONFIG.base_delay.
  change (seq 0 (Z.to_nat 3)) with (seq 0 3).
  apply (retry_loop_run "execute_commands" _ 3 RETRY_CONFIG.base_delay
           ltac:(vm_compute; discriminate) 2 2 0 None w eq_refl);
    [lia | lia | | right; reflexivity].
  intros i Hi. apply batch_attempt_fails. apply Hover. lia.
Qed.

End ExecutorFacts.

Section ExecutorTheorems.

Context {D : Type} `{Environment D}.

(** C2, what the code does.  When a command of a non-empty batch raises
    a transport exception [e] and the batch stays within its time
    budget, [execute_commands] is exactly one run of its body - the
    retry wrapper sees a normal return and never runs the batch again -
    and the caller receives the one-element list [["Error: " + str(e)]].
    A command loop that raises has sent the commands up to the failing
    one and none of those after it. *)
Theorem transport_failure_not_retried (self : RouterConnection)
        (commands : list string) (w : World D) (e : exn) :
  commands <> [] ->
  now (snd (execute_commands_body self commands (emit (EvCall "execute_commands") w)))
  - now (emit (EvCall "execute_commands") w) <= TIMEOUTS.command * 2 ->
  fst (get_connection self (run_batch (_optimize_commands commands))
         (emit (EvCall "execute_commands") w)) = Raise e ->
  execute_commands self commands w
  = execute_commands_body self commands (emit (EvCall "execute_commands") w)
  /\ fst (execute_commands self commands w)
     = Return [String.append "Error: " (exn_msg e)]
  /\ (forall h batch results w0 w1 e1,
        ssh_command_loop h batch results w0 = (Raise e1, w1)
        \/ telnet_command_loop h batch results w0 = (Raise e1, w1) ->
        exists sent failed skipped,
          batch = sent ++ failed :: skipped
          /\ trace w1 = trace w0 ++ map (EvSend h) (sent ++ [failed])).
Proof.
  intros Hne Hin Hraise.
  rewrite (execute_commands_once self commands w Hin).
  split; [reflexivity|].
  split; [exact (execute_commands_body_error self commands _ e Hne Hraise)|].
  intros h batch results w0 w1 e1 [Hloop | Hloop].
  - destruct (ssh_command_loop_stops h batch results w0 w1 e1 Hloop)
      as (sent & failed & skipped & Hb & Ht & _).
    exists sent, failed, skipped. split; assumption.
  - destruct (telnet_command_loop_stops h batch results w0 w1 e1 Hloop)
      as (sent & failed & skipped & Hb & Ht & _).
    exists sent, failed, skipped. split; assumption.
Qed.

(** C10, as the code has it.  Every failure inside the batch (creating
    the connection, the transport, the wait for the prompt) is caught by
    the body of [execute_commands] and returned as the one-element list
    [["Error: " + str(e)]]; the only exception [execute_commands] lets
    through is the [TimeoutError] of its [with_timeout] wrapper.  The
    retry wrapper re-attempts a batch that overran the budget of 24
    seconds: the first of the three attempts that stays within the
    budget ends the call with its result, and the [TimeoutError] reaches
    the caller only once each of the three attempts has overrun the
    budget - the call then ends in the state the third run of the batch
    leaves.  [execute_router_commands] catches that exception as well
    and never raises. *)
Theorem execute_commands_raises_only_timeout (self : RouterConnection)
        (commands : list string) (w : World D) :
  (forall e, fst (execute_commands self commands w) = Raise e ->
             exn_class e = "TimeoutError")
  /\ (now (snd (execute_commands_body self commands
                  (emit (EvCall "execute_commands") w)))
      - now (emit (EvCall "execute_commands") w) <= TIMEOUTS.command * 2 ->
      is_return (fst (execute_commands self commands w)) = true)
  /\ is_return (fst (execute_commands_body self commands w)) = true
  /\ (forall e, commands <> [] ->
        fst (get_connection self (run_batch (_optimize_commands commands)) w)
        = Raise e ->
        fst (execute_commands_body self commands w)
        = Return [String.append "Error: " (exn_msg e)])
  /\ (forall format_target settings target,
        is_return (fst (execute_router_commands format_target settings target
                          commands w)) = true)
  /\ (forall k : nat,
        (k < 3)%nat ->
        (forall i, (i < k)%nat ->
                   over_budget self commands (batch_attempt self commands i w)) ->
        ~ over_budget self commands (batch_attempt self commands k w) ->
        execute_commands self commands w
        = execute_commands_body self commands (batch_attempt self commands k w))
  /\ (forall e,
        fst (execute_commands self commands w) = Raise e ->
        (forall i, (i < 3)%nat ->
                   over_budget self commands (batch_attempt self commands i w))
        /\ execute_commands self commands w
           = (Raise (Exception "TimeoutError" "execute_commands excedeu timeout de 24s"),
              snd (execute_commands_body self commands
                     (batch_attempt self commands 2 w)))).
Proof.
  split; [|split; [|split; [|split; [|split; [|split]]]]].
  - intros e. unfold execute_commands, retry_on_failure.
    apply (retry_loop_raises (fun e => exn_class e = "TimeoutError")).
    + unfold RETRY_CONFIG.base_delay. cbn. discriminate.
    + intros w0 e0 Hr.
      exact (proj1 (with_timeout_raises _ _ _ w0 e0
                      (execute_commands_body_returns self commands w0) Hr)).
    + repeat constructor; lia.
    + discriminate.
  - intros Hin. rewrite (execute_commands_once self commands w Hin).
    apply execute_commands_body_returns.
  - apply execute_commands_body_returns.
  - intros e Hne Hraise. exact (execute_commands_body_error self commands w e Hne Hraise).
  - intros format_target settings target. unfold execute_router_commands.
    destruct (format_commands format_target target commands) as [formatted | e];
      [|reflexivity].
    destruct settings as [router | e]; [|reflexivity].
    destruct (execute_commands router formatted (set_pool [] w)) as [[r | e] w1];
      reflexivity.
  - intros k Hk Hover Hin. exact (execute_commands_reattempts self commands w k Hk Hover Hin).
  - intros e Hraise.
    assert (Hall : forall i, (i < 3)%nat ->
                     over_budget self commands (batch_attempt self commands i w)).
    { assert (Hdec : forall w_i, over_budget self commands w_i
                                 \/ ~ over_budget self commands w_i).
      { intros w_i. unfold over_budget.
        destruct (Z.lt_ge_cases (TIMEOUTS.command * 2)
                    (now (snd (execute_commands_body self commands w_i)) - now w_i));
          [left; assumption | right; lia]. }
      assert (Hreturns : forall k, (k < 3)%nat ->
                (forall i, (i < k)%nat ->
                   over_budget self commands (batch_attempt self commands i w)) ->
                over_budget self commands (batch_attempt self commands k w)).
      { intros k Hk Hbefore.
        destruct (Hdec (batch_attempt self commands k w)) as [Hover | Hin]; [exact Hover|].
        exfalso.
        rewrite (execute_commands_reattempts self commands w k Hk Hbefore Hin) in Hraise.
        pose proof (execute_commands_body_returns self commands
                      (batch_attempt self commands k w)) as Hret.
        rewrite Hraise in Hret. discriminate Hret. }
      assert (H0 := Hreturns 0%nat ltac:(lia) ltac:(intros i Hi; lia)).
      assert (H1 : over_budget self commands (batch_attempt self commands 1 w)).
      { apply Hreturns; [lia|]. intros i Hi. assert (i = 0%nat) as -> by lia. exact H0. }
      assert (H2 : over_budget self commands (batch_attempt self commands 2 w)).
      { apply Hreturns; [lia|]. intros i Hi.
        destruct i as [|[|i]]; [exact H0 | exact H1 | lia]. }
      intros i Hi. destruct i as [|[|[|i]]]; [exact H0 | exact H1 | exact H2 | lia]. }
    split; [exact Hall | exact (execute_commands_gives_up self commands w Hall)].
Qed.

End ExecutorTheorems.

(** The failing input of C2 on the scripted device: the second of three
    commands drops the session.  Two commands are sent, the body runs
    once, the connection is closed and the caller gets the error list. *)
Lemma transport_failure_not_retried_witness :
  fst (execute_commands ssh_router
         ["display version"; "display device"; "display cpu-usage"]
         (sim_world true 1 "display device | no-more"))
  = Return ["Error: Socket is closed"]
  /\ sends_of (trace (snd (execute_commands ssh_router
                             ["display version"; "display device"; "display cpu-usage"]
                             (sim_world true 1 "display device | no-more"))))
     = ["display version | no-more"; "display device | no-more"]
  /\ call_count (trace (snd (execute_commands ssh_router
                               ["display version"; "display device"; "display cpu-usage"]
                               (sim_world true 1 "display device | no-more"))))
     = 1%nat
  /\ closed_of (trace (snd (execute_commands ssh_router
                              ["display version"; "display device"; "display cpu-usage"]
                              (sim_world true 1 "display device | no-more"))))
     = [1%nat].
Proof.
  destruct (transport_failure_not_retried ssh_router
              ["display version"; "display device"; "display cpu-usage"]
              (sim_world true 1 "display device | no-more")
              (Exception "OSError" "Socket is closed")) as (Hrun & Hres & _).
  - discriminate.
  - vm_compute. discriminate.
  - vm_compute. reflexivity.
  - split; [exact Hres|]. rewrite Hrun. vm_compute. repeat split; reflexivity.
Defined.

(** C10 as worded fails when the batch is slow: three commands that
    take 12 seconds each need 36 seconds against a budget of 24, every
    attempt ends in the [TimeoutError] of the wrapper, and the third one
    reaches the caller of [execute_commands]. *)
Lemma execute_commands_timeout_propagates :
  fst (execute_commands ssh_router
         ["display cpu-usage"; "display memory-usage"; "display device"]
         (sim_world true 12 EmptyString))
  = Raise (Exception "TimeoutError" "execute_commands excedeu timeout de 24s")
  /\ call_count (trace (snd (execute_commands ssh_router
                               ["display cpu-usage"; "display memory-usage";
                                "display device"]
                               (sim_world true 12 EmptyString)))) = 3%nat.
Proof.
  split; vm_compute; reflexivity.
Qed.

(* ====================================================================== *)
(** * The connection pool *)
(* ====================================================================== *)

Lemma is_expired_later (t t' : Z) (ci : ConnectionInfo) :
  t <= t' -> is_expired t ci = true -> is_expired t' ci = true.
Proof.
  unfold is_expired. intros Ht Hexp.
  apply orb_true_iff in Hexp. apply orb_true_iff.
  destruct Hexp as [Hidle | Hage]; [left | right];
    apply Z.gtb_lt; apply Z.gtb_lt in Hidle || apply Z.gtb_lt in Hage; lia.
Qed.

Lemma is_expired_mark_used (t : Z) (ci : ConnectionInfo) :
  is_expired t ci = false -> is_expired t (mark_used t ci) = false.
Proof.
  unfold is_expired, mark_used. cbn [last_used created_at]. intros Hexp.
  apply orb_false_iff in Hexp. destruct Hexp as [_ Hage].
  rewrite Hage, orb_false_r. rewrite Z.sub_diag. reflexivity.
Qed.

Lemma closed_of_app (evs evs' : list event) :
  closed_of (evs ++ evs') = closed_of evs ++ closed_of evs'.
Proof.
  induction evs as [|ev evs IH]; [reflexivity|].
  destruct ev; cbn [app closed_of]; rewrite IH; reflexivity.
Qed.

Section PoolFacts.

Context {D : Type} `{Environment D}.

Lemma close_all_app (handles handles' : list handle) (d : D) :
  close_all (handles ++ handles') d = close_all handles' (close_all handles d).
Proof. unfold close_all. apply fold_left_app. Qed.

Lemma create_new_connection_trace (self : RouterConnection) (w : World D) :
  trace (snd (_create_new_connection self w)) = trace w
  /\ pool (snd (_create_new_connection self w)) = pool w.
Proof.
  unfold _create_new_connection.
  destruct (String.eqb (router_protocol self) "ssh").
  - destruct (connect_ssh (env w)) as [[h | e] d]; split; reflexivity.
  - destruct (connect_telnet (env w)) as [[h | e] d]; split; reflexivity.
Qed.

Lemma create_new_connection_fresh (self : RouterConnection) (w w' : World D)
      (ci : ConnectionInfo) :
  _create_new_connection self w = (Return ci, w') ->
  created_at ci = now w' /\ last_used ci = now w'.
Proof.
  unfold _create_new_connection.
  destruct (String.eqb (router_protocol self) "ssh").
  - destruct (connect_ssh (env w)) as [[h | e] d]; intros [= <- <-];
      split; reflexivity.
  - destruct (connect_telnet (env w)) as [[h | e] d]; intros [= <- <-];
      split; reflexivity.
Qed.

(** What [get_connection] yields is not expired at the instant of the
    yield: it is the front of the queue, found unexpired with the
    timestamps it had in the queue, or a connection created just now. *)
Lemma acquire_not_expired (self : RouterConnection) (w w' : World D)
      (ci : ConnectionInfo) :
  acquire self w = (Return ci, w') ->
  is_expired (now w') ci = false
  /\ ((exists head rest,
         pool w = head :: rest
         /\ is_expired (now w) head = false
         /\ ci = mark_used (now w) head)
      \/ (created_at ci = now w' /\ last_used ci = now w')).
Proof.
  unfold acquire.
  destruct (pool w) as [|head rest] eqn:Hpool.
  - destruct (_create_new_connection self w) as [[c | e] w2] eqn:Hc; [|discriminate].
    intros [= <- <-].
    destruct (create_new_connection_fresh _ _ _ _ Hc) as [Hcr Hlu].
    split; [|right; split; [exact Hcr | reflexivity]].
    unfold is_expired, mark_used. cbn [last_used created_at].
    rewrite Hcr, !Z.sub_diag. reflexivity.
  - destruct (is_expired (now (set_pool rest w)) head
              || negb (_test_connection_health head (set_pool rest w))) eqn:Hbad.
    + destruct (_create_new_connection self
                  (_close_connection head (set_pool rest w)))
        as [[c | e] w2] eqn:Hc; [|discriminate].
      intros [= <- <-].
      destruct (create_new_connection_fresh _ _ _ _ Hc) as [Hcr Hlu].
      split; [|right; split; [exact Hcr | reflexivity]].
      unfold is_expired, mark_used. cbn [last_used created_at].
      rewrite Hcr, !Z.sub_diag. reflexivity.
    + intros [= <- <-]. apply orb_false_iff in Hbad. destruct Hbad as [Hfresh _].
      change (now (set_pool rest w)) with (now w) in *.
      split; [apply is_expired_mark_used; exact Hfresh|].
      left. exists head, rest. repeat split. exact Hfresh.
Qed.

(** An expired connection at the front of the queue is closed and
    dropped; the caller gets a newly created connection or the exception
    of its creation. *)
Lemma acquire_expired_head (self : RouterConnection) (w : World D)
      (head : ConnectionInfo) (rest : list ConnectionInfo) :
  pool w = head :: rest ->
  is_expired (now w) head = true ->
  trace (snd (acquire self w)) = trace w ++ [EvClose (connection head)]
  /\ pool (snd (acquire self w)) = rest
  /\ acquire self w
     = match _create_new_connection self
               (mk_world (close_handle (connection head) (env w)) rest
                         (trace w ++ [EvClose (connection head)])) with
       | (Return conn_info, w2) => (Return (mark_used (now w2) conn_info), w2)
       | (Raise e, w2) => (Raise e, w2)
       end.
Proof.
  intros Hpool Hexp. unfold acquire. rewrite Hpool.
  change (now (set_pool rest w)) with (now w). rewrite Hexp. cbn [orb].
  change (mk_world (close_handle (connection head) (env w)) rest
                   (trace w ++ [EvClose (connection head)]))
    with (_close_connection head (set_pool rest w)).
  pose proof (create_new_connection_trace self
                (_close_connection head (set_pool rest w))) as [Ht Hp].
  destruct (_create_new_connection self (_close_connection head (set_pool rest w)))
    as [[c | e] w2]; cbn [snd] in *; rewrite Ht, Hp; repeat split; reflexivity.
Qed.

(** Along any run of the pool, nothing expired is ever yielded. *)
Lemma run_pool_yields_unexpired (self : RouterConnection) (steps : list (pool_step D)) :
  forall w : World D,
    Forall (fun yielded => is_expired (fst yielded) (snd yielded) = false)
           (fst (run_pool self steps w)).
Proof.
  induction steps as [|step rest IH]; intros w; cbn [run_pool].
  - constructor.
  - destruct step as [| conn_info raised | | f]; try apply IH.
    destruct (acquire self w) as [[conn_info | e] w1] eqn:Hacq; [|apply IH].
    specialize (IH w1). destruct (run_pool self rest w1) as [yields w2].
    cbn [fst] in *. constructor; [|exact IH].
    exact (proj1 (acquire_not_expired self w w1 conn_info Hacq)).
Qed.

(** The [finally] clause closes a connection that expired while in use
    and does not queue it. *)
Lemma release_expired (ci : ConnectionInfo) (raised : bool) (w : World D) :
  is_expired (now w) ci = true ->
  pool (release ci raised w) = pool w
  /\ trace (release ci raised w) = trace w ++ [EvClose (connection ci)]
  /\ env (release ci raised w) = close_handle (connection ci) (env w).
Proof.
  intros Hexp. unfold release.
  assert (Hexp' : is_expired (now w) (if raised then mark_unhealthy ci else ci) = true).
  { destruct raised; exact Hexp. }
  rewrite Hexp'. cbn [negb]. rewrite andb_false_r.
  destruct raised; repeat split; reflexivity.
Qed.

End PoolFacts.

Section SweepFacts.

Context {D : Type} `{Environment D}.

(** Closing a connection takes no negative time. *)
Hypothesis close_takes_time : forall h d, clock d <= clock (close_handle h d).

Lemma drain_pool_spec (queue : list ConnectionInfo) :
  forall (active : list ConnectionInfo) (w : World D) (t0 : Z),
    t0 <= now w ->
    exists evs,
      trace (snd (drain_pool queue active w)) = trace w ++ evs
      /\ env (snd (drain_pool queue active w)) = close_all (closed_of evs) (env w)
      /\ pool (snd (drain_pool queue active w))
         = match queue with [] => pool w | _ :: _ => [] end
      /\ (forall c, In c queue -> is_expired t0 c = true ->
                    In (connection c) (closed_of evs))
      /\ (forall c, In c (fst (drain_pool queue active w)) ->
                    In c active
                    \/ (In c queue /\ is_expired t0 c = false /\ is_healthy c = true)).
Proof.
  induction queue as [|ci rest IH]; intros active w t0 Ht0; cbn [drain_pool].
  - exists []. rewrite app_nil_r. repeat split; try reflexivity.
    + intros c [].
    + intros c Hc. left. exact Hc.
  - change (now (set_pool rest w)) with (now w).
    destruct (negb (is_expired (now w) ci) && is_healthy ci) eqn:Hkeep.
    + apply andb_true_iff in Hkeep. destruct Hkeep as [Hfresh Hhealthy].
      apply negb_true_iff in Hfresh.
      assert (Hfresh0 : is_expired t0 ci = false).
      { destruct (is_expired t0 ci) eqn:E; [|reflexivity].
        rewrite (is_expired_later t0 (now w) ci Ht0 E) in Hfresh. discriminate. }
      destruct (IH (active ++ [ci]) (set_pool rest w) t0 Ht0)
        as (evs & Htrace & Henv & Hpool & Hclosed & Hactive).
      exists evs. split; [exact Htrace|]. split; [exact Henv|]. split; [|split].
      * rewrite Hpool. destruct rest; reflexivity.
      * intros c [<- | Hc] Hexp; [congruence | exact (Hclosed c Hc Hexp)].
      * intros c Hc. destruct (Hactive c Hc) as [Hin | (Hin & Hexp & Hh)].
        -- apply in_app_or in Hin. destruct Hin as [Hin | [<- | []]];
             [left; exact Hin | right; repeat split; [left; reflexivity | | ]; assumption].
        -- right. repeat split; [right; exact Hin | exact Hexp | exact Hh].
    + assert (Ht1 : t0 <= now (_close_connection ci (set_pool rest w))).
      { unfold now in *. unfold _close_connection.
        cbn [emit set_env set_pool env].
        pose proof (close_takes_time (connection ci) (env w)). lia. }
      destruct (IH active (_close_connection ci (set_pool rest w)) t0 Ht1)
        as (evs & Htrace & Henv & Hpool & Hclosed & Hactive).
      exists (EvClose (connection ci) :: evs). split; [|split; [|split; [|split]]].
      * rewrite Htrace. cbn [_close_connection emit set_env set_pool trace].
        rewrite <- app_assoc. reflexivity.
      * rewrite Henv. reflexivity.
      * rewrite Hpool. destruct rest; reflexivity.
      * intros c [<- | Hc] Hexp; cbn [closed_of];
          [left; reflexivity | right; exact (Hclosed c Hc Hexp)].
      * intros c Hc. destruct (Hactive c Hc) as [Hin | (Hin & Hexp & Hh)];
          [left; exact Hin | right; repeat split; [right; exact Hin | exact Hexp | exact Hh]].
Qed.

Lemma refill_pool_spec (active : list ConnectionInfo) :
  forall w : World D,
    (exists evs, trace (refill_pool active w) = trace w ++ evs
                 /\ env (refill_pool active w) = close_all (closed_of evs) (env w))
    /\ (forall c, In c (pool (refill_pool active w)) -> In c (pool w) \/ In c active).
Proof.
  induction active as [|ci rest IH]; intros w; cbn [refill_pool].
  - split; [exists []; rewrite app_nil_r; split; reflexivity
           | intros c Hc; left; exact Hc].
  - unfold put_nowait.
    destruct (List.length (pool w) <? CONNECTION_POOL_CONFIG.max_connections)%nat.
    + destruct (IH (set_pool (pool w ++ [ci]) w)) as [(evs & Htrace & Henv) Hpool].
      split; [exists evs; split; [exact Htrace | exact Henv]|].
      intros c Hc. destruct (Hpool c Hc) as [Hin | Hin]; [|right; right; exact Hin].
      cbn [set_pool pool] in Hin. apply in_app_or in Hin.
      destruct Hin as [Hin | [<- | []]]; [left; exact Hin | right; left; reflexivity].
    + destruct (IH (_close_connection ci w)) as [(evs & Htrace & Henv) Hpool].
      split.
      * exists (EvClose (connection ci) :: evs). split.
        -- rewrite Htrace.
           cbn [_close_connection emit set_env trace]. rewrite <- app_assoc. reflexivity.
        -- rewrite Henv. reflexivity.
      * intros c Hc. destruct (Hpool c Hc) as [Hin | Hin];
          [left; exact Hin | right; right; exact Hin].
Qed.

(** The periodic sweep closes every expired connection of the queue and
    leaves in the queue only connections that were neither expired nor
    unhealthy. *)
Lemma cleanup_expired_connections_spec (w : World D) :
  exists evs,
    trace (_cleanup_expired_connections w) = trace w ++ evs
    /\ env (_cleanup_expired_connections w) = close_all (closed_of evs) (env w)
    /\ (forall c, In c (pool w) -> is_expired (now w) c = true ->
                  In (connection c) (closed_of evs)
                  /\ ~ In c (pool (_cleanup_expired_connections w)))
    /\ (forall c, In c (pool (_cleanup_expired_connections w)) ->
                  In c (pool w) /\ is_expired (now w) c = false
                  /\ is_healthy c = true).
Proof.
  unfold _cleanup_expired_connections.
  destruct (drain_pool_spec (pool w) [] w (now w) (Z.le_refl _))
    as (evs1 & Htrace1 & Henv1 & Hpool1 & Hclosed & Hactive).
  destruct (drain_pool (pool w) [] w) as [active w1] eqn:Hdrain.
  cbn [fst snd] in *.
  destruct (refill_pool_spec active w1) as [(evs2 & Htrace2 & Henv2) Hpool2].
  assert (Hkept : forall c, In c (pool (refill_pool active w1)) ->
                            In c (pool w) /\ is_expired (now w) c = false
                            /\ is_healthy c = true).
  { intros c Hc. destruct (Hpool2 c Hc) as [Hin | Hin].
    - rewrite Hpool1 in Hin. destruct (pool w) eqn:Hp; contradiction.
    - destruct (Hactive c Hin) as [[] | Hok]. exact Hok. }
  exists (evs1 ++ evs2). split; [|split; [|split]].
  - rewrite Htrace2, Htrace1, app_assoc. reflexivity.
  - rewrite Henv2, Henv1, closed_of_app, close_all_app. reflexivity.
  - intros c Hc Hexp. split.
    + rewrite closed_of_app. apply in_or_app. left. exact (Hclosed c Hc Hexp).
    + intros Hin. destruct (Hkept c Hin) as (_ & Hfresh & _). congruence.
  - exact Hkept.
Qed.

End SweepFacts.

Section PoolTheorems.

Context {D : Type} `{Environment D}.

(** C4.  In any state of the process (closing a connection taking no
    negative time), with closing meaning the [close()] of the
    connection's handle on the outside world:
    - whatever [get_connection] yields is not expired at that instant: it
      is the front of the queue, unexpired with the timestamps it had
      there, or a connection created just now;
    - an expired connection found at the front of the queue is dropped
      from the queue and its handle is closed, before anything else is
      done: the caller gets the connection created in the world in which
      that handle is closed (or the exception of its creation);
    - the periodic sweep closes the handle of every expired connection
      of the queue, the outside world it leaves is the one it found with
      the handles of its close events closed in their order, and it keeps
      only connections that are neither expired nor unhealthy;
    - a connection that expired while in use has its handle closed on
      release and is not queued again;
    - hence along any run of acquisitions, releases, sweeps and changes
      of the outside world, no connection is yielded that is expired at
      the instant of its yield. *)
Theorem expired_connection_never_yielded (self : RouterConnection) (w : World D) :
  (forall h d, clock d <= clock (close_handle h d)) ->
  (forall ci w',
      acquire self w = (Return ci, w') ->
      is_expired (now w') ci = false
      /\ ((exists head rest,
             pool w = head :: rest
             /\ is_expired (now w) head = false
             /\ ci = mark_used (now w) head)
          \/ (created_at ci = now w' /\ last_used ci = now w')))
  /\ (forall head rest,
        pool w = head :: rest ->
        is_expired (now w) head = true ->
        trace (snd (acquire self w)) = trace w ++ [EvClose (connection head)]
        /\ pool (snd (acquire self w)) = rest
        /\ acquire self w
           = match _create_new_connection self
                     (mk_world (close_handle (connection head) (env w)) rest
                               (trace w ++ [EvClose (connection head)])) with
             | (Return conn_info, w2) => (Return (mark_used (now w2) conn_info), w2)
             | (Raise e, w2) => (Raise e, w2)
             end)
  /\ (exists evs,
        trace (_cleanup_expired_connections w) = trace w ++ evs
        /\ env (_cleanup_expired_connections w) = close_all (closed_of evs) (env w)
        /\ (forall c, In c (pool w) -> is_expired (now w) c = true ->
                      In (connection c) (closed_of evs)
                      /\ ~ In c (pool (_cleanup_expired_connections w)))
        /\ (forall c, In c (pool (_cleanup_expired_connections w)) ->
                      In c (pool w) /\ is_expired (now w) c = false
                      /\ is_healthy c = true))
  /\ (forall ci raised,
        is_expired (now w) ci = true ->
        pool (release ci raised w) = pool w
        /\ trace (release ci raised w) = trace w ++ [EvClose (connection ci)]
        /\ env (release ci raised w) = close_handle (connection ci) (env w))
  /\ (forall steps : list (pool_step D),
        Forall (fun yielded => is_expired (fst yielded) (snd yielded) = false)
               (fst (run_pool self steps w))).
Proof.
  intros Hclose. split; [|split; [|split; [|split]]].
  - intros ci w' Hacq. exact (acquire_not_expired self w w' ci Hacq).
  - intros head rest Hpool Hexp. exact (acquire_expired_head self w head rest Hpool Hexp).
  - exact (cleanup_expired_connections_spec Hclose w).
  - intros ci raised Hexp. exact (release_expired ci raised w Hexp).
  - intros steps. apply run_pool_yields_unexpired.
Qed.

End PoolTheorems.

Lemma expired_connection_never_yielded_witness :
  is_expired 2000 stale_connection = true
  /\ fst (@acquire audited audited_environment ssh_router audited_world_stale_pool)
     = Return (mk_conn 2%nat "ssh" 2000 2000 true 1)
  /\ is_expired 2000 (mk_conn 2%nat "ssh" 2000 2000 true 1) = false
  /\ trace (snd (@acquire audited audited_environment ssh_router
                   audited_world_stale_pool))
     = [EvClose 1%nat]
  /\ closed_handles (env (snd (@acquire audited audited_environment ssh_router
                                 audited_world_stale_pool)))
     = [1%nat]
  /\ pool (@_cleanup_expired_connections audited audited_environment
             audited_world_stale_pool) = []
  /\ closed_handles (env (@_cleanup_expired_connections audited audited_environment
                            audited_world_stale_pool))
     = [1%nat]
  /\ closed_handles (env (@release audited audited_environment stale_connection false
                            audited_world_stale_pool))
     = [1%nat].
Proof.
  destruct (@expired_connection_never_yielded audited audited_environment
              ssh_router audited_world_stale_pool)
    as (Hyield & Hhead & (evs & Htrace_sweep & Henv_sweep & Hswept & Hkept)
        & Hrelease & _).
  - intros h d. cbn. lia.
  - destruct (Hhead stale_connection [] eq_refl eq_refl) as (Htrace & _ & Hacq).
    destruct (Hrelease stale_connection false eq_refl) as (_ & _ & Henv_release).
    split; [reflexivity|].
    split; [rewrite Hacq; reflexivity|].
    split; [exact (proj1 (Hyield (mk_conn 2%nat "ssh" 2000 2000 true 1)
                                 (snd (@acquire audited audited_environment ssh_router
                                         audited_world_stale_pool))
                                 eq_refl))|].
    split; [exact Htrace|].
    split; [rewrite Hacq; reflexivity|].
    split.
    + destruct (pool (@_cleanup_expired_connections audited audited_environment
                        audited_world_stale_pool))
        as [|c rest] eqn:Hp; [reflexivity|].
      destruct (Hkept c (or_introl eq_refl)) as ([<- | []] & Hfresh & _).
      discriminate Hfresh.
    + split; [|rewrite Henv_release; reflexivity].
      assert (Hevs : evs = [EvClose 1%nat]).
      { apply (app_inv_head (trace audited_world_stale_pool)).
        rewrite <- Htrace_sweep. reflexivity. }
      rewrite Henv_sweep, Hevs. reflexivity.
Defined.
(* ====================================================================== *)
(** * The background poller *)
(* ====================================================================== *)

Section FallbackFacts.

Import Cache.

Lemma dict_get_set_other (key k0 : string) (e : entry) (m : memory) :
  k0 <> key -> dict_get k0 (dict_set key e m) = dict_get k0 m.
Proof.
  intros Hne. induction m as [|[k e'] rest IH]; cbn [dict_set dict_get].
  - destruct (String.eqb key k0) eqn:E; [|reflexivity].
    apply String.eqb_eq in E. congruence.
  - destruct (String.eqb k key) eqn:E; cbn [dict_get].
    + apply String.eqb_eq in E. subst k.
      destruct (String.eqb key k0) eqn:E'; [|reflexivity].
      apply String.eqb_eq in E'. congruence.
    + destruct (String.eqb k k0); [reflexivity | exact IH].
Qed.

(** One write at instant [t] into a local tier with at most [n < 50]
    entries created at [t] or later: the entry is stored, the entries
    written at [t] before it stay, and at most one more entry is recent. *)
Lemma set_at_instant (c : SmartCache) (up : bool) (t : Z) (key : string) (v : value)
                     (ttl : Z) (n : nat) :
  NoDup (keys (memory_cache c)) ->
  (recent_count t (memory_cache c) <= n)%nat ->
  (n < 50)%nat ->
  0 < ttl ->
  NoDup (keys (memory_cache (set up t key v ttl c)))
  /\ (recent_count t (memory_cache (set up t key v ttl c)) <= S n)%nat
  /\ dict_get key (memory_cache (set up t key v ttl c)) = Some (mk_entry v (t + ttl) t)
  /\ (forall k0 e0,
        k0 <> key ->
        dict_get k0 (memory_cache c) = Some e0 ->
        created_at e0 = t ->
        _is_valid_cache_entry t e0 = true ->
        dict_get k0 (memory_cache (set up t key v ttl c)) = Some e0).
Proof.
  intros Hnd Hrecent Hn Httl.
  assert (Hcount : (recent_count t (dict_set key (mk_entry v (t + ttl) t) (memory_cache c))
                    <= S n)%nat).
  { pose proof (recent_count_dict_set t key (mk_entry v (t + ttl) t) (memory_cache c)).
    lia. }
  split; [apply set_memory_NoDup, Hnd|].
  split.
  { cbn [set memory_cache].
    pose proof (recent_count_cleanup t t
                  (dict_set key (mk_entry v (t + ttl) t) (memory_cache c))). lia. }
  split; [apply set_stores_locally; [exact Hnd | lia | exact Httl]|].
  intros k0 e0 Hne Hget Hcreated Hvalid. cbn [set memory_cache].
  apply cleanup_keeps.
  - apply dict_set_NoDup, Hnd.
  - rewrite (dict_get_set_other _ _ _ _ Hne). exact Hget.
  - exact Hvalid.
  - rewrite Hcreated. lia.
Qed.

End FallbackFacts.

Section PollerTheorems.

Context {D : Type} `{Environment D}.

Variable _update_data_type : string -> PollerState D -> PollerState D.

(** C7.  When the connectivity test at start-up answers [False], the
    initial collection pass returns normally and has written, at its
    instant [t], five records into the cache, each with a TTL of 60
    seconds, so that each is in the local tier with expiry [t + 60]:
    - ["router_interfaces"]: the empty list;
    - ["pppoe_stats"]: total, active, peak and max_users, all 0;
    - ["system_metrics"]: cpu 0, memory 0, uptime, version and serial
      "Unknown", temperature 0, power_status "Normal", model "NE8000";
    - ["network_traffic"]: inbound, outbound, total, peak_in and
      peak_out, all 0.0;
    - ["router_status"]: online [False], last_error "Connection failed".
    (The local tier is a dictionary in which at most 45 entries carry a
    creation time of [t] or later.) *)
Theorem initial_collection_fallback (router : RouterConnection) (p : PollerState D) :
  fst (test_connection router (world p)) = Return false ->
  NoDup (Cache.keys (Cache.memory_cache (router_cache p))) ->
  (Cache.recent_count (now (snd (test_connection router (world p))))
                      (Cache.memory_cache (router_cache p)) <= 45)%nat ->
  fst (_initial_data_collection _update_data_type router p) = Return tt
  /\ Cache.dict_get "router_interfaces"
       (Cache.memory_cache
          (router_cache (snd (_initial_data_collection _update_data_type router p))))
     = Some (Cache.mk_entry (VList [])
               (now (snd (test_connection router (world p))) + 60)
               (now (snd (test_connection router (world p)))))
  /\ Cache.dict_get "pppoe_stats"
       (Cache.memory_cache
          (router_cache (snd (_initial_data_collection _update_data_type router p))))
     = Some (Cache.mk_entry
               (VDict [("total", VInt 0); ("active", VInt 0); ("peak", VInt 0);
                       ("max_users", VInt 0)])
               (now (snd (test_connection router (world p))) + 60)
               (now (snd (test_connection router (world p)))))
  /\ Cache.dict_get "system_metrics"
       (Cache.memory_cache
          (router_cache (snd (_initial_data_collection _update_data_type router p))))
     = Some (Cache.mk_entry
               (VDict [("cpu", VInt 0); ("memory", VInt 0); ("uptime", VStr "Unknown");
                       ("version", VStr "Unknown"); ("serial", VStr "Unknown");
                       ("temperature", VInt 0); ("power_status", VStr "Normal");
                       ("model", VStr "NE8000")])
               (now (snd (test_connection router (world p))) + 60)
               (now (snd (test_connection router (world p)))))
  /\ Cache.dict_get "network_traffic"
       (Cache.memory_cache
          (router_cache (snd (_initial_data_collection _update_data_type router p))))
     = Some (Cache.mk_entry
               (VDict [("inbound", VFloat 0); ("outbound", VFloat 0);
                       ("total", VFloat 0); ("peak_in", VFloat 0);
                       ("peak_out", VFloat 0)])
               (now (snd (test_connection router (world p))) + 60)
               (now (snd (test_connection router (world p)))))
  /\ Cache.dict_get "router_status"
       (Cache.memory_cache
          (router_cache (snd (_initial_data_collection _update_data_type router p))))
     = Some (Cache.mk_entry
               (VDict [("online", VBool false);
                       ("last_error", VStr "Connection failed")])
               (now (snd (test_connection router (world p))) + 60)
               (now (snd (test_connection router (world p))))).
Proof.
  intros Htest Hnd Hrecent. unfold _initial_data_collection.
  destruct (test_connection router (world p)) as [r w1]. cbn [fst snd] in *.
  subst r. cbn [fst snd].
  set (t := now w1) in *.
  unfold _set_fallback_data, fallback_data, router_cache_set.
  cbn [fold_left fst snd world router_cache]. fold t.
  set (up := redis_up (env w1)).
  set (c0 := router_cache p) in *.
  assert (Hvalid : forall v, Cache._is_valid_cache_entry t (Cache.mk_entry v (t + 60) t) = true).
  { intros v. apply Z.ltb_lt. cbn. lia. }
  destruct (set_at_instant c0 up t "router_interfaces" (VList []) 60 45
              Hnd Hrecent ltac:(lia) ltac:(lia)) as (Hnd1 & Hr1 & Hg1 & _).
  set (c1 := Cache.set up t "router_interfaces" (VList []) 60 c0) in *.
  match goal with |- context [Cache.set up t "pppoe_stats" ?v 60 c1] =>
    set (v2 := v) in *;
    destruct (set_at_instant c1 up t "pppoe_stats" v2 60 46
                Hnd1 Hr1 ltac:(lia) ltac:(lia)) as (Hnd2 & Hr2 & Hg2 & Hk2);
    set (c2 := Cache.set up t "pppoe_stats" v2 60 c1) in *
  end.
  match goal with |- context [Cache.set up t "system_metrics" ?v 60 c2] =>
    set (v3 := v) in *;
    destruct (set_at_instant c2 up t "system_metrics" v3 60 47
                Hnd2 Hr2 ltac:(lia) ltac:(lia)) as (Hnd3 & Hr3 & Hg3 & Hk3);
    set (c3 := Cache.set up t "system_metrics" v3 60 c2) in *
  end.
  match goal with |- context [Cache.set up t "network_traffic" ?v 60 c3] =>
    set (v4 := v) in *;
    destruct (set_at_instant c3 up t "network_traffic" v4 60 48
                Hnd3 Hr3 ltac:(lia) ltac:(lia)) as (Hnd4 & Hr4 & Hg4 & Hk4);
    set (c4 := Cache.set up t "network_traffic" v4 60 c3) in *
  end.
  destruct (set_at_instant c4 up t "router_status" offline_status 60 49
              Hnd4 Hr4 ltac:(lia) ltac:(lia)) as (Hnd5 & Hr5 & Hg5 & Hk5).
  set (c5 := Cache.set up t "router_status" offline_status 60 c4) in *.
  assert (Hi : Cache.dict_get "router_interfaces" (Cache.memory_cache c5)
               = Some (Cache.mk_entry (VList []) (t + 60) t)).
  { apply Hk5; [discriminate | | reflexivity | apply Hvalid].
    apply Hk4; [discriminate | | reflexivity | apply Hvalid].
    apply Hk3; [discriminate | | reflexivity | apply Hvalid].
    apply Hk2; [discriminate | | reflexivity | apply Hvalid].
    exact Hg1. }
  split; [reflexivity|]. split; [exact Hi|].
  split; [|split; [|split]].
  - apply Hk5; [discriminate | | reflexivity | apply Hvalid].
    apply Hk4; [discriminate | | reflexivity | apply Hvalid].
    apply Hk3; [discriminate | | reflexivity | apply Hvalid].
    exact Hg2.
  - apply Hk5; [discriminate | | reflexivity | apply Hvalid].
    apply Hk4; [discriminate | | reflexivity | apply Hvalid].
    exact Hg3.
  - apply Hk5; [discriminate | | reflexivity | apply Hvalid].
    exact Hg4.
  - exact Hg5.
Qed.

End PollerTheorems.

Lemma initial_collection_fallback_witness :
  fst (test_connection ssh_router (world sim_poller_unreachable)) = Return false
  /\ map (fun key =>
            Cache.dict_get key
              (Cache.memory_cache
                 (router_cache
                    (snd (_initial_data_collection (fun _ p => p) ssh_router
                            sim_poller_unreachable)))))
         ["router_interfaces"; "pppoe_stats"; "system_metrics"; "network_traffic";
          "router_status"; "traffic_history"]
     = [Some (Cache.mk_entry (VList []) 60 0);
        Some (Cache.mk_entry
                (VDict [("total", VInt 0); ("active", VInt 0); ("peak", VInt 0);
                        ("max_users", VInt 0)]) 60 0);
        Some (Cache.mk_entry
                (VDict [("cpu", VInt 0); ("memory", VInt 0); ("uptime", VStr "Unknown");
                        ("version", VStr "Unknown"); ("serial", VStr "Unknown");
                        ("temperature", VInt 0); ("power_status", VStr "Normal");
                        ("model", VStr "NE8000")]) 60 0);
        Some (Cache.mk_entry
                (VDict [("inbound", VFloat 0); ("outbound", VFloat 0);
                        ("total", VFloat 0); ("peak_in", VFloat 0);
                        ("peak_out", VFloat 0)]) 60 0);
        Some (Cache.mk_entry
                (VDict [("online", VBool false);
                        ("last_error", VStr "Connection failed")]) 60 0);
        None].
Proof.
  destruct (initial_collection_fallback (fun _ p => p) ssh_router sim_poller_unreachable)
    as (_ & Hinterfaces & Hpppoe & Hmetrics & Htraffic & Hstatus).
  - vm_compute. reflexivity.
  - constructor.
  - cbn. lia.
  - split; [vm_compute; reflexivity|].
    cbn [map]. rewrite Hinterfaces, Hpppoe, Hmetrics, Htraffic, Hstatus.
    reflexivity.
Defined.
(* ====================================================================== *)
(** * The parsers *)
(* ====================================================================== *)

(** An empty or error-tagged output gives no interface. *)
Lemma parse_interface_output_error_input (now : Z) (output : string) :
  Str.is_empty output = true \/ Str.contains "Error:" output = true ->
  Parsers.parse_interface_output_optimized now output = [].
Proof.
  unfold Parsers.parse_interface_output_optimized.
  intros [-> | ->]; [reflexivity | rewrite orb_true_r; reflexivity].
Qed.

(** Results that are all empty or error-tagged give the zeroed record. *)
Lemma parse_pppoe_stats_error_input (now : Z) (results : list string) :
  Forall (fun r => Str.is_empty r = true \/ Str.contains "Error:" r = true) results ->
  Parsers.parse_pppoe_stats_optimized now results = Return (Parsers.zeroed now).
Proof.
  unfold Parsers.parse_pppoe_stats_optimized. intros Hall.
  generalize (Parsers.zeroed now).
  induction Hall as [|r rest Hr _ IH]; intros stats; cbn [Parsers.pppoe_results].
  - reflexivity.
  - replace (Str.is_empty r || Str.contains "Error:" r) with true; [apply IH|].
    destruct Hr as [-> | ->]; [reflexivity | rewrite orb_true_r; reflexivity].
Qed.

(** C8, the failing input.  On a result line that names the total of
    users and carries a superscript digit, [part.isdigit()] holds, the
    conversion [int(part)] is attempted and raises a [ValueError]: the
    parser does raise. *)
Theorem parse_pppoe_stats_raises_on_superscript_digit (now : Z) :
  Str.isdigit superscript_two = true
  /\ Str.int_of superscript_two = None
  /\ Parsers.parse_pppoe_stats_optimized now
       [String.append "Total users: " superscript_two]
     = Raise (Exception "ValueError"
                (String.append "invalid literal for int() with base 10: '"
                               (String.append superscript_two "'"))).
Proof.
  split; [reflexivity | split; reflexivity].
Qed.

Lemma execute_commands_raises_only_timeout_witness :
  fst (execute_commands ssh_router ["display version"] (sim_world false 1 EmptyString))
  = Return ["Error: timed out"]
  /\ is_return (fst (execute_router_commands (fun _ cmd => Return cmd)
                       (Return ssh_router) "GE0/0/1" ["display version"]
                       (sim_world false 1 EmptyString))) = true
  /\ @over_budget sim slow_start_environment ssh_router ["display version"]
       (@batch_attempt sim slow_start_environment ssh_router ["display version"] 0
          (sim_world true 1 EmptyString))
  /\ fst (@execute_commands sim slow_start_environment ssh_router ["display version"]
             (sim_world true 1 EmptyString))
     = Return ["reply to display version | no-more"]
  /\ trace (snd (@execute_commands sim slow_start_environment ssh_router
                    ["display version"] (sim_world true 1 EmptyString)))
     = [EvCall "execute_commands"; EvSend 1%nat "display version | no-more";
        EvSleep (Qmin ((3 # 2) * (2 # 1) ^ 0) (8 # 1));
        EvCall "execute_commands"; EvSend 1%nat "display version | no-more"].
Proof.
  destruct (execute_commands_raises_only_timeout ssh_router ["display version"]
              (sim_world false 1 EmptyString)) as (_ & Hin & _ & _ & Hcompat & _).
  destruct (@execute_commands_raises_only_timeout sim slow_start_environment
              ssh_router ["display version"] (sim_world true 1 EmptyString))
    as (_ & _ & _ & _ & _ & Hagain & _).
  assert (Hfirst : @over_budget sim slow_start_environment ssh_router ["display version"]
                     (@batch_attempt sim slow_start_environment ssh_router
                        ["display version"] 0 (sim_world true 1 EmptyString)))
    by (vm_compute; reflexivity).
  assert (Hrun := Hagain 1%nat ltac:(lia)
                    ltac:(intros i Hi; assert (i = 0%nat) as -> by lia; exact Hfirst)
                    ltac:(vm_compute; discriminate)).
  split; [|split; [apply Hcompat | split; [exact Hfirst|]]].
  - assert (Hret := Hin ltac:(vm_compute; discriminate)).
    destruct (execute_commands ssh_router ["display version"] (sim_world false 1 EmptyString))
      as [[results | e] w1] eqn:Hrun0; [|discriminate Hret].
    vm_compute in Hrun0. injection Hrun0 as <- _. reflexivity.
  - rewrite Hrun. split; vm_compute; reflexivity.
Defined.

(* ====================================================================== *)
(** * More on command normalisation *)
(* ====================================================================== *)

Lemma contains_append_r (p a b : string) :
  Str.contains p b = true -> Str.contains p (String.append a b) = true.
Proof.
  intros Hb. induction a as [|c a IH]; [exact Hb|].
  cbn [String.append]. apply contains_cons. exact IH.
Qed.

Lemma is_empty_false_iff (s : string) : Str.is_empty s = false <-> s <> EmptyString.
Proof.
  destruct s; cbn; split; try congruence; intros; discriminate.
Qed.

Lemma strip_nonempty_tight (s : string) :
  Str.is_empty (Str.strip s) = false ->
  nonblank (head_char (Str.strip s)) = true
  /\ nonblank (last_char (Str.strip s)) = true.
Proof.
  intros Hne. destruct (strip_tight s) as [He | Ht]; [|exact Ht].
  rewrite He in Hne. discriminate.
Qed.

(** One command that survives the normalisation is in normal form and is
    left alone by the test for the suffix. *)
Lemma add_no_more_normalised (cmd : string) :
  Str.is_empty (Str.strip cmd) = false ->
  normalised_command (add_no_more (Str.strip cmd))
  /\ add_no_more (add_no_more (Str.strip cmd)) = add_no_more (Str.strip cmd).
Proof.
  intros Hne. destruct (strip_nonempty_tight cmd Hne) as [Hhead Hlast].
  set (c := Str.strip cmd) in *.
  assert (Hc : c <> EmptyString) by (apply is_empty_false_iff; exact Hne).
  destruct (needs_no_more c) eqn:Hn.
  - assert (Hv : add_no_more c = String.append c " | no-more").
    { unfold add_no_more. rewrite Hn. reflexivity. }
    assert (Hpipe : Str.contains "|" (String.append c " | no-more") = true).
    { apply contains_append_r. reflexivity. }
    assert (Hfix : add_no_more (String.append c " | no-more")
                   = String.append c " | no-more").
    { unfold add_no_more. rewrite needs_no_more_spec, Hpipe, andb_false_r. reflexivity. }
    rewrite Hv. split; [|exact Hfix]. repeat split.
    + apply strip_fixed.
      * rewrite head_char_append by exact Hc. exact Hhead.
      * rewrite last_char_append by discriminate. reflexivity.
    + destruct c; [contradiction | reflexivity].
    + intros _. exact Hpipe.
  - assert (Hv : add_no_more c = c).
    { unfold add_no_more. rewrite Hn. reflexivity. }
    rewrite !Hv. split; [|reflexivity]. repeat split.
    + apply strip_idempotent.
    + exact Hne.
    + intros Hd. rewrite needs_no_more_spec, Hd in Hn. cbn [andb] in Hn.
      apply negb_false_iff in Hn. exact Hn.
Qed.

Lemma optimize_commands_normalised (commands : list string) :
  Forall normalised_command (_optimize_commands commands).
Proof.
  induction commands as [|cmd rest IH]; cbn [_optimize_commands]; [constructor|].
  destruct (Str.is_empty (Str.strip cmd)) eqn:He; [exact IH|].
  constructor; [exact (proj1 (add_no_more_normalised cmd He)) | exact IH].
Qed.

Lemma optimize_commands_fixed (commands : list string) :
  Forall normalised_command commands -> _optimize_commands commands = commands.
Proof.
  induction 1 as [|cmd rest (Hs & He & Hp) _ IH]; cbn [_optimize_commands]; [reflexivity|].
  rewrite Hs, He, IH. f_equal.
  unfold add_no_more. rewrite needs_no_more_spec.
  destruct (Str.startswith "display" cmd) eqn:Hd; [|reflexivity].
  rewrite (Hp eq_refl). reflexivity.
Qed.

(** X1.  Normalising twice is normalising once: the commands the executor
    sends are fixed points of [_optimize_commands]. *)
Theorem optimize_commands_idempotent (commands : list string) :
  _optimize_commands (_optimize_commands commands) = _optimize_commands commands.
Proof.
  apply optimize_commands_fixed, optimize_commands_normalised.
Qed.

Lemma optimize_commands_length (commands : list string) :
  (List.length (_optimize_commands commands) <= List.length commands)%nat.
Proof.
  induction commands as [|cmd rest IH]; cbn [_optimize_commands]; [lia|].
  destruct (Str.is_empty (Str.strip cmd)); cbn [List.length]; lia.
Qed.

(** X2.  What leaves the normalisation: never more commands than came in,
    each of them trimmed and not empty, and no display command without a
    pipe. *)
Theorem optimize_commands_output_shape (commands : list string) :
  (List.length (_optimize_commands commands) <= List.length commands)%nat
  /\ Forall (fun cmd =>
               Str.strip cmd = cmd
               /\ Str.is_empty cmd = false
               /\ (Str.startswith "display" cmd = true ->
                   Str.contains "|" cmd = true))
            (_optimize_commands commands).
Proof.
  split; [apply optimize_commands_length | apply optimize_commands_normalised].
Qed.

(* ====================================================================== *)
(** * More on output cleaning *)
(* ====================================================================== *)

(** Trimming the text of trimmed, non-empty lines changes nothing. *)
Lemma strip_text_trimmed (lines : list string) :
  Forall (fun l => Str.strip l = l /\ Str.is_empty l = false) lines ->
  Str.strip (text lines) = text lines.
Proof.
  intros Hall. destruct lines as [|l ls]; [reflexivity|].
  assert (Htight : forall x, In x (l :: ls) ->
                     x <> EmptyString
                     /\ nonblank (head_char x) = true /\ nonblank (last_char x) = true).
  { intros x Hx. destruct (proj1 (Forall_forall _ _) Hall x Hx) as [Hs He].
    split; [apply is_empty_false_iff; exact He|].
    rewrite <- Hs in He. rewrite <- Hs. exact (strip_nonempty_tight x He). }
  assert (Hne : Forall (fun x => x <> EmptyString) (l :: ls)).
  { apply Forall_forall. intros x Hx. exact (proj1 (Htight x Hx)). }
  apply strip_fixed.
  - rewrite head_char_text by exact (Forall_inv Hne).
    exact (proj1 (proj2 (Htight l (or_introl eq_refl)))).
  - rewrite last_char_text by exact Hne.
    exact (proj2 (proj2 (Htight _ (last_in_cons l ls EmptyString)))).
Qed.

Lemma clean_telnet_lines_emitted (command : string) (lines : list string) :
  Forall (fun x => has_char Str.newline x = false) lines ->
  Forall (telnet_line command) (clean_telnet_lines command lines).
Proof.
  induction 1 as [|line rest Hline Hrest IH]; cbn [clean_telnet_lines]; [constructor|].
  destruct (Str.contains (Str.strip command) (Str.strip line)) eqn:Hc; [exact IH|].
  destruct (Str.endswith_char ">" (Str.strip line)) eqn:Hp; [exact IH|].
  destruct (Str.is_empty (Str.strip line)) eqn:He; [exact IH|].
  cbn [orb]. constructor; [|exact IH].
  repeat split; try assumption.
  - apply strip_idempotent.
  - apply strip_no_char, Hline.
Qed.

Lemma clean_telnet_lines_fixed (command : string) (lines : list string) :
  Forall (telnet_line command) lines -> clean_telnet_lines command lines = lines.
Proof.
  induction 1 as [|line rest (Hs & He & Hp & _ & Hc) _ IH];
    cbn [clean_telnet_lines]; [reflexivity|].
  rewrite Hs, Hc, Hp, He, IH. reflexivity.
Qed.

Lemma clean_telnet_empty_output (command : string) :
  _clean_telnet_output EmptyString command = EmptyString.
Proof.
  unfold _clean_telnet_output.
  cbn [Str.split_lines Str.split_on clean_telnet_lines Str.strip Str.rstrip Str.lstrip
       Str.is_empty Str.endswith_char].
  rewrite !orb_true_r. reflexivity.
Qed.

Lemma telnet_lines_trimmed (command : string) (lines : list string) :
  Forall (telnet_line command) lines ->
  Forall (fun l => Str.strip l = l /\ Str.is_empty l = false) lines.
Proof.
  intros Hall. eapply Forall_impl; [|exact Hall].
  intros l (Hs & He & _). split; assumption.
Qed.

(** The cleaned Telnet output is empty or made of the lines the loop
    kept, which splitting gives back. *)
Lemma clean_telnet_output_cases (output command : string) :
  _clean_telnet_output output command = EmptyString
  \/ (Forall (telnet_line command)
             (Str.split_lines (_clean_telnet_output output command))
      /\ Str.split_lines (_clean_telnet_output output command)
         = clean_telnet_lines command (Str.split_lines output)).
Proof.
  unfold _clean_telnet_output.
  pose proof (clean_telnet_lines_emitted command (Str.split_lines output)
                (split_on_no_sep Str.newline output)) as Hem.
  change (Str.join_lines ?l) with (text l).
  rewrite (strip_text_trimmed _ (telnet_lines_trimmed _ _ Hem)).
  destruct (clean_telnet_lines command (Str.split_lines output)) as [|l ls] eqn:E.
  - left. reflexivity.
  - right.
    assert (Hnl : Forall (fun x => has_char Str.newline x = false) (l :: ls)).
    { eapply Forall_impl; [|exact Hem]. intros x (_ & _ & _ & Hx & _). exact Hx. }
    rewrite (split_lines_text l ls Hnl). split; [exact Hem | reflexivity].
Qed.

(** X3.  [_clean_telnet_output] is idempotent for every output and command:
    unlike the SSH cleaner it drops every line that contains the
    command, so a second pass finds nothing left to drop. *)
Theorem clean_telnet_output_idempotent (output command : string) :
  _clean_telnet_output (_clean_telnet_output output command) command
  = _clean_telnet_output output command.
Proof.
  destruct (clean_telnet_output_cases output command) as [He | [Hall Hsplit]].
  - rewrite He. apply clean_telnet_empty_output.
  - unfold _clean_telnet_output at 1.
    rewrite (clean_telnet_lines_fixed command _ Hall).
    change (Str.join_lines ?l) with (text l).
    rewrite text_split_lines.
    unfold _clean_telnet_output.
    change (Str.join_lines ?l) with (text l).
    apply strip_idempotent.
Qed.

(** X4.  Every line of a cleaned Telnet output is trimmed, not empty, not
    ended by [>] and free of the trimmed command. *)
Theorem clean_telnet_output_lines (output command : string) :
  _clean_telnet_output output command = EmptyString
  \/ Forall (fun line =>
               Str.strip line = line
               /\ Str.is_empty line = false
               /\ Str.endswith_char ">" line = false
               /\ Str.contains (Str.strip command) line = false)
            (Str.split_lines (_clean_telnet_output output command)).
Proof.
  destruct (clean_telnet_output_cases output command) as [He | [Hall _]];
    [left; exact He | right].
  eapply Forall_impl; [|exact Hall].
  intros l (Hs & He & Hp & _ & Hc). repeat split; assumption.
Qed.

(** X5.  Every line of a cleaned SSH output is trimmed, not empty and not
    ended by a prompt character: no blank line and no prompt line is
    ever handed to the caller. *)
Theorem clean_ssh_output_lines (output command : string) :
  _clean_ssh_output output command = EmptyString
  \/ Forall (fun line =>
               Str.strip line = line
               /\ Str.is_empty line = false
               /\ Str.endswith_char ">" line = false
               /\ Str.endswith_char "#" line = false
               /\ Str.endswith_char "]" line = false
               /\ Str.endswith_char "<" line = false)
            (Str.split_lines (_clean_ssh_output output command)).
Proof.
  unfold _clean_ssh_output.
  pose proof (clean_ssh_lines_emitted command (Str.split_lines output)
                (split_on_no_sep Str.newline output) true) as Hem.
  change (Str.join_lines ?l) with (text l).
  rewrite (strip_text_emitted _ Hem).
  destruct (clean_ssh_lines command true (Str.split_lines output)) as [|l ls] eqn:E.
  - left. reflexivity.
  - right.
    assert (Hnl : Forall (fun x => has_char Str.newline x = false) (l :: ls)).
    { eapply Forall_impl; [|exact Hem]. intros x (_ & _ & Hx). exact Hx. }
    rewrite (split_lines_text l ls Hnl).
    eapply Forall_impl; [|exact Hem].
    intros x (Hs & Hp & _). unfold ssh_prompt_or_blank in Hp.
    repeat (apply orb_false_iff in Hp; destruct Hp as [Hp ?]).
    repeat split; assumption.
Qed.

(* ====================================================================== *)
(** * More on the cache: bounds, counters, eviction and clearing *)
(* ====================================================================== *)

Section CacheExtras.

Import Cache.

Lemma last_n_length {A : Type} (n : nat) (l : list A) :
  (n <= List.length l)%nat -> List.length (last_n n l) = n.
Proof. intros Hn. unfold last_n. rewrite length_skipn. lia. Qed.

Lemma cleanup_bounds (now : Z) (m : memory) :
  (List.length (_cleanup_memory_cache now m) <= 100)%nat
  /\ Forall (fun kv => _is_valid_cache_entry now (snd kv) = true)
            (_cleanup_memory_cache now m)
  /\ ((100 < List.length (filter (fun kv => _is_valid_cache_entry now (snd kv)) m))%nat ->
      List.length (_cleanup_memory_cache now m) = 50%nat)
  /\ ((List.length (filter (fun kv => _is_valid_cache_entry now (snd kv)) m) <= 100)%nat ->
      _cleanup_memory_cache now m
      = filter (fun kv => _is_valid_cache_entry now (snd kv)) m).
Proof.
  assert (Hvalid : Forall (fun kv => _is_valid_cache_entry now (snd kv) = true)
                          (_cleanup_memory_cache now m)).
  { apply Forall_forall. intros x Hx.
    unfold _cleanup_memory_cache in Hx.
    set (m1 := filter (fun kv => _is_valid_cache_entry now (snd kv)) m) in *.
    assert (H1 : In x m1 -> _is_valid_cache_entry now (snd x) = true).
    { intros Hin. exact (proj2 (proj1 (filter_In _ _ _) Hin)). }
    destruct (100 <? List.length m1)%nat; [|exact (H1 Hx)].
    apply H1. unfold last_n in Hx.
    apply (Permutation_in _ (Permutation_sym (sorted_by_created_perm m1))).
    rewrite <- (firstn_skipn (List.length (sorted_by_created m1) - 50)
                             (sorted_by_created m1)).
    apply in_or_app. right. exact Hx. }
  unfold _cleanup_memory_cache in *.
  set (m1 := filter (fun kv => _is_valid_cache_entry now (snd kv)) m) in *.
  pose proof (Permutation_length (sorted_by_created_perm m1)) as Hlen.
  destruct (100 <? List.length m1)%nat eqn:Hbig.
  - apply Nat.ltb_lt in Hbig.
    assert (H50 : List.length (last_n 50 (sorted_by_created m1)) = 50%nat).
    { apply last_n_length. lia. }
    split; [lia | split; [exact Hvalid | split; [intros _; exact H50 | intros Hle; lia]]].
  - apply Nat.ltb_ge in Hbig.
    split; [exact Hbig | split; [exact Hvalid | split; [intros Hgt; lia | reflexivity]]].
Qed.

(** X6.  The local tier after the eviction: only valid entries, never more
    than 100 of them, exactly 50 when more than 100 valid entries came
    in, and the valid entries in their order otherwise. *)
Theorem cleanup_memory_cache_bounded (now : Z) (m : memory) :
  (List.length (_cleanup_memory_cache now m) <= 100)%nat
  /\ Forall (fun kv => _is_valid_cache_entry now (snd kv) = true)
            (_cleanup_memory_cache now m)
  /\ ((100 < List.length (filter (fun kv => _is_valid_cache_entry now (snd kv)) m))%nat ->
      List.length (_cleanup_memory_cache now m) = 50%nat)
  /\ ((List.length (filter (fun kv => _is_valid_cache_entry now (snd kv)) m) <= 100)%nat ->
      _cleanup_memory_cache now m
      = filter (fun kv => _is_valid_cache_entry now (snd kv)) m).
Proof. exact (cleanup_bounds now m). Qed.


(** X7.  After any [set] the local tier holds at most 100 entries, all of
    them valid at the instant of the call. *)
Theorem set_memory_bounded (c : SmartCache) (up : bool) (now : Z) (key : string)
                           (v : value) (ttl : Z) :
  (List.length (memory_cache (set up now key v ttl c)) <= 100)%nat
  /\ Forall (fun kv => _is_valid_cache_entry now (snd kv) = true)
            (memory_cache (set up now key v ttl c))
  /\ cache_stats (set up now key v ttl c) = cache_stats c.
Proof.
  cbn [set memory_cache cache_stats].
  destruct (cleanup_bounds now
              (dict_set key (mk_entry v (now + ttl) now) (memory_cache c)))
    as (Hlen & Hvalid & _).
  split; [exact Hlen | split; [exact Hvalid | reflexivity]].
Qed.

(** X8.  Every [get] is counted exactly once, as a hit or as a miss; hits
    stay the sum of the hits of the two tiers; a miss returns [None]. *)
Theorem get_counts_once (c : SmartCache) (up : bool) (now : Z) (key : string) :
  CacheAdmin.total_requests (snd (get up now key c)) = CacheAdmin.total_requests c + 1
  /\ redis_hits (cache_stats (snd (get up now key c)))
     + memory_hits (cache_stats (snd (get up now key c)))
     - hits (cache_stats (snd (get up now key c)))
     = redis_hits (cache_stats c) + memory_hits (cache_stats c) - hits (cache_stats c)
  /\ (misses (cache_stats (snd (get up now key c))) <> misses (cache_stats c) ->
      fst (get up now key c) = VNone).
Proof.
  unfold CacheAdmin.total_requests, get.
  destruct (get_redis_tier up now key c) as [x|].
  - cbn. split; [lia | split; [lia | intros Hm; exfalso; apply Hm; reflexivity]].
  - destruct (dict_get key (memory_cache c)) as [e|].
    + destruct (_is_valid_cache_entry now e); cbn.
      * split; [lia | split; [lia | intros Hm; exfalso; apply Hm; reflexivity]].
      * split; [lia | split; [lia | reflexivity]].
    + cbn. split; [lia | split; [lia | reflexivity]].
Qed.

Lemma dict_get_del_other (key k : string) (m : memory) :
  k <> key -> dict_get k (dict_del key m) = dict_get k m.
Proof.
  intros Hne. induction m as [|[k' e] rest IH]; cbn [dict_del dict_get]; [reflexivity|].
  destruct (String.eqb k' key) eqn:E.
  - apply String.eqb_eq in E. subst k'.
    destruct (String.eqb key k) eqn:E'; [|reflexivity].
    apply String.eqb_eq in E'. congruence.
  - cbn [dict_get]. destruct (String.eqb k' k); [reflexivity | exact IH].
Qed.

(** X9.  Lazy eviction.  A [get] never touches Redis nor the local entries of
    other keys; when it falls through to the local tier, the key is
    there afterwards exactly if it was there and still valid - an
    expired entry is removed by the read that finds it. *)
Theorem get_lazy_eviction (c : SmartCache) (up : bool) (now : Z) (key : string) :
  NoDup (keys (memory_cache c)) ->
  redis_client (snd (get up now key c)) = redis_client c
  /\ (forall k, k <> key ->
        dict_get k (memory_cache (snd (get up now key c))) = dict_get k (memory_cache c))
  /\ (get_redis_tier up now key c = None ->
      forall e,
        dict_get key (memory_cache (snd (get up now key c))) = Some e
        <-> (dict_get key (memory_cache c) = Some e
             /\ _is_valid_cache_entry now e = true)).
Proof.
  intros Hnd. unfold get.
  destruct (get_redis_tier up now key c) as [x|] eqn:Hr.
  - cbn. split; [reflexivity | split; [reflexivity | discriminate]].
  - destruct (dict_get key (memory_cache c)) as [e0|] eqn:Hg.
    + destruct (_is_valid_cache_entry now e0) eqn:Hv; cbn [snd redis_client memory_cache].
      * split; [reflexivity | split; [reflexivity|]].
        intros _ e. rewrite Hg. split.
        -- intros [= <-]. split; [reflexivity | exact Hv].
        -- intros [He _]. exact He.
      * split; [reflexivity|]. split.
        -- intros k Hk. apply dict_get_del_other, Hk.
        -- intros _ e. rewrite (dict_get_del_same key _ Hnd). split; [discriminate|].
           intros [[= <-] Hv']. congruence.
    + cbn [snd redis_client memory_cache].
      split; [reflexivity | split; [reflexivity|]].
      intros _ e. rewrite Hg. split; [discriminate | intros [He _]; exact He].
Qed.

(** X10.  A [set] with a TTL of zero or less stores nothing: the entry is
    expired at once and swept by the same call, so the key is absent
    from the local tier afterwards, whatever was there; Redis, which
    refuses such a TTL, is left as it was. *)
Theorem set_nonpositive_ttl_stores_nothing (c : SmartCache) (up : bool) (now : Z)
        (key : string) (v : value) (ttl : Z) :
  NoDup (keys (memory_cache c)) ->
  ttl <= 0 ->
  dict_get key (memory_cache (set up now key v ttl c)) = None
  /\ redis_client (set up now key v ttl c) = redis_client c.
Proof.
  intros Hnd Httl. split.
  - destruct (dict_get key (memory_cache (set up now key v ttl c))) as [e|] eqn:Hg;
      [|reflexivity].
    pose proof (set_nothing_else c up key v ttl now e Hnd Hg) as He.
    destruct (cleanup_bounds now (dict_set key (mk_entry v (now + ttl) now) (memory_cache c)))
      as (_ & Hvalid & _).
    cbn [set memory_cache] in Hg.
    pose proof (proj1 (Forall_forall _ _) Hvalid (key, e) (dict_get_In _ _ _ Hg)) as Hv.
    subst e. unfold _is_valid_cache_entry in Hv. cbn [snd expires_at] in Hv.
    apply Z.ltb_lt in Hv. lia.
  - cbn [set redis_client]. destruct (redis_client c) as [r|]; [|reflexivity].
    unfold redis_setex. destruct up; [|reflexivity].
    assert (Hle : (0 <? ttl) = false) by (apply Z.ltb_ge; exact Httl).
    rewrite Hle. reflexivity.
Qed.

(** X11.  The eviction drops only expired entries and the oldest ones: a
    valid entry that does not survive it was created no later than every
    entry that does. *)
Theorem eviction_drops_oldest (now : Z) (m : memory) (x y : string * entry) :
  In x m ->
  _is_valid_cache_entry now (snd x) = true ->
  ~ In x (_cleanup_memory_cache now m) ->
  In y (_cleanup_memory_cache now m) ->
  created_at (snd x) <= created_at (snd y).
Proof.
  intros Hx Hvalid Hdropped Hy. unfold _cleanup_memory_cache in *.
  set (m1 := filter (fun kv => _is_valid_cache_entry now (snd kv)) m) in *.
  assert (Hx1 : In x m1) by (apply filter_In; split; assumption).
  destruct (100 <? List.length m1)%nat; [|contradiction].
  unfold last_n in *.
  set (k := (List.length (sorted_by_created m1) - 50)%nat) in *.
  pose proof (sorted_by_created_sorted m1) as Hsorted.
  rewrite <- (firstn_skipn k (sorted_by_created m1)) in Hsorted.
  apply (sorted_app_le _ _ Hsorted x y); [|exact Hy].
  assert (Hin : In x (sorted_by_created m1)).
  { apply (Permutation_in _ (sorted_by_created_perm m1)). exact Hx1. }
  rewrite <- (firstn_skipn k (sorted_by_created m1)) in Hin.
  apply in_app_or in Hin. destruct Hin as [Hin | Hin]; [exact Hin | contradiction].
Qed.

End CacheExtras.

Section ClearFacts.

Import Cache.

Lemma dict_get_absent (k : string) (m : memory) :
  ~ In k (keys m) -> dict_get k m = None.
Proof.
  intros Hk. destruct (dict_get k m) as [e|] eqn:Hg; [|reflexivity].
  exfalso. apply Hk. exact (In_keys _ _ _ (dict_get_In _ _ _ Hg)).
Qed.

Lemma delete_keys_get (k : string) (ks : list string) :
  forall m : memory,
    NoDup (keys m) ->
    dict_get k (CacheAdmin.delete_keys ks m)
    = if existsb (String.eqb k) ks then None else dict_get k m.
Proof.
  unfold CacheAdmin.delete_keys.
  induction ks as [|key rest IH]; intros m Hnd; cbn [fold_left existsb]; [reflexivity|].
  rewrite (IH (dict_del key m) (dict_del_NoDup key m Hnd)).
  destruct (String.eqb k key) eqn:E; cbn [orb].
  - apply String.eqb_eq in E. subst key.
    rewrite (dict_get_del_same k m Hnd). destruct (existsb (String.eqb k) rest); reflexivity.
  - apply String.eqb_neq in E. rewrite (dict_get_del_other key k m E). reflexivity.
Qed.

Lemma existsb_filter_keys (pattern k : string) (ks : list string) :
  existsb (String.eqb k) (filter (fun x => Str.contains pattern x) ks)
  = Str.contains pattern k && existsb (String.eqb k) ks.
Proof.
  induction ks as [|x rest IH]; cbn [filter existsb]; [rewrite andb_false_r; reflexivity|].
  destruct (String.eqb k x) eqn:E.
  - apply String.eqb_eq in E. subst x.
    destruct (Str.contains pattern k) eqn:Hc; cbn [existsb orb andb].
    + rewrite String.eqb_refl. reflexivity.
    + rewrite IH. reflexivity.
  - destruct (Str.contains pattern x); cbn [existsb orb]; rewrite ?E; exact IH.
Qed.

Lemma existsb_keys_false (k : string) (m : memory) :
  existsb (String.eqb k) (keys m) = false -> dict_get k m = None.
Proof.
  intros Hex. apply dict_get_absent. intros Hin.
  assert (Ht : existsb (String.eqb k) (keys m) = true).
  { apply existsb_exists. exists k. split; [exact Hin | apply String.eqb_refl]. }
  congruence.
Qed.

(** X12.  [clear(pattern)] with a non-empty pattern: in the local tier the keys
    that contain the pattern are gone and every other key keeps its
    entry; the counters are untouched; Redis keeps every key that its own
    glob matcher does not select, whether or not the key contains the
    pattern. *)
Theorem clear_pattern_effect (glob_match : string -> string -> bool) (up : bool)
        (a : ascii) (p : string) (c : SmartCache) :
  NoDup (keys (memory_cache c)) ->
  (forall k,
     dict_get k (memory_cache (CacheAdmin.clear glob_match up (Some (String a p)) c))
     = if Str.contains (String a p) k then None else dict_get k (memory_cache c))
  /\ cache_stats (CacheAdmin.clear glob_match up (Some (String a p)) c) = cache_stats c
  /\ (forall r key,
        redis_client c = Some r ->
        glob_match (String a p) key = false ->
        exists r',
          redis_client (CacheAdmin.clear glob_match up (Some (String a p)) c) = Some r'
          /\ remote_lookup key r' = remote_lookup key r).
Proof.
  intros Hnd. cbn [CacheAdmin.clear memory_cache cache_stats redis_client].
  split; [|split; [reflexivity|]].
  - intros k. rewrite (delete_keys_get k _ _ Hnd), existsb_filter_keys.
    destruct (Str.contains (String a p) k); cbn [andb]; [|reflexivity].
    destruct (existsb (String.eqb k) (keys (memory_cache c))) eqn:Hex; [reflexivity|].
    exact (existsb_keys_false k _ Hex).
  - intros r key Hr Hglob. rewrite Hr. eexists. split; [reflexivity|].
    destruct up; [|reflexivity].
    unfold CacheAdmin.redis_delete_matching. clear Hr.
    induction r as [|[k x] rest IH]; cbn [filter remote_lookup fst]; [reflexivity|].
    destruct (String.eqb k key) eqn:E.
    + apply String.eqb_eq in E. subst k. rewrite Hglob. cbn [negb remote_lookup].
      rewrite String.eqb_refl. reflexivity.
    + destruct (glob_match (String a p) k); cbn [negb remote_lookup]; rewrite ?E;
        exact IH.
Qed.

(** X13.  [clear()] and [clear] with the empty pattern are the same full
    clearing: the local tier is emptied, and when Redis was flushed (or there is no Redis client)
    every following [get] misses. *)
Theorem clear_all_effect (glob_match : string -> string -> bool) (up : bool)
        (c : SmartCache) :
  CacheAdmin.clear glob_match up (Some EmptyString) c
  = CacheAdmin.clear glob_match up None c
  /\ memory_cache (CacheAdmin.clear glob_match up None c) = []
  /\ (redis_client c = None \/ up = true ->
      forall up' now key,
        fst (get up' now key (CacheAdmin.clear glob_match up None c)) = VNone
        /\ misses (cache_stats (snd (get up' now key
                                       (CacheAdmin.clear glob_match up None c))))
           = misses (cache_stats c) + 1).
Proof.
  split; [reflexivity | split; [reflexivity|]].
  intros Hflushed up' now key. unfold CacheAdmin.clear, get, get_redis_tier, redis_get.
  cbn [redis_client memory_cache cache_stats dict_get].
  destruct (redis_client c) as [r|].
  - destruct Hflushed as [Hnone | ->]; [discriminate|].
    destruct up'; cbn; split; reflexivity.
  - cbn. split; reflexivity.
Qed.

End ClearFacts.

(* ====================================================================== *)
(** * More on the retry wrapper *)
(* ====================================================================== *)

Section RetryExtras.

Context {D : Type} `{Environment D}.

(** X14.  The first success ends the loop.  Let the decorator be
    configured with [n] attempts and a base delay [base >= 0], and let
    the function raise at the attempts [0, ..., k - 1] and return [a] at
    attempt [k < n] - whatever else it does.  Then the wrapper returns
    [a] in the very state this call leaves: the function has been called
    [k + 1] times, with the sleep of [min(base * multiplier^i, max_delay)]
    after the failed attempt [i], and nothing happens after the success
    (no further call, no sleep).  For a function that only adds to the
    trace, the trace is the log of these [k + 1] attempts; when the
    function neither sleeps nor calls a wrapped function itself, the
    events of the wrapped call hold [k + 1] calls and the [k] delays. *)
Theorem retry_on_failure_stops_at_success {A : Type} (max_attempts : option Z)
        (delay : option Q) (n : Z) (base : Q) (name : string) (func : M D A)
        (w : World D) (k : nat) (a : A) (w_after : World D) :
  configured_attempts max_attempts n ->
  configured_delay delay base ->
  (0 <= base)%Q ->
  Z.of_nat k < n ->
  (k <= 1024)%nat ->
  (forall i, (i < k)%nat ->
             is_return (fst (func (attempt_world name func base i w))) = false) ->
  func (attempt_world name func base k w) = (Return a, w_after) ->
  retry_on_failure max_attempts delay name func w = (Return a, w_after)
  /\ (appends func ->
      trace w_after = trace w ++ attempts_log name func base k w)
  /\ (appends func -> unwrapped func ->
      call_count (emitted_by (retry_on_failure max_attempts delay name func) w) = S k
      /\ sleeps_of (emitted_by (retry_on_failure max_attempts delay name func) w)
         = map (fun i => Qmin (base * RETRY_CONFIG.backoff_multiplier ^ Z.of_nat i)%Q
                              RETRY_CONFIG.max_delay)
               (seq 0 k)).
Proof.
  intros Hn Hd Hbase Hk Hsmall Hfail Hok.
  assert (Hrun : retry_on_failure max_attempts delay name func w = (Return a, w_after)).
  2: split; [exact Hrun | split].
  - rewrite <- Hok. unfold retry_on_failure.
    rewrite (configured_attempts_in_force _ _ Hn), (configured_delay_in_force _ _ Hd).
    destruct (Z.to_nat n) as [|m] eqn:Hm; [lia|].
    apply (retry_loop_run name func n base Hbase k m 0 None w); [lia | lia | lia | |].
    + exact Hfail.
    + left. fold (attempt_world name func base k w). rewrite Hok. reflexivity.
  - intros Happ.
    pose proof (attempts_log_trace name func base w Happ k) as Ht.
    rewrite Hok in Ht. exact Ht.
  - intros Happ Hun.
    rewrite (emitted_by_trace (retry_on_failure max_attempts delay name func) w
               (attempts_log name func base k w)).
    + exact (attempts_log_counts name func base w Hun k).
    + rewrite Hrun. cbn [snd].
      pose proof (attempts_log_trace name func base w Happ k) as Ht.
      rewrite Hok in Ht. exact Ht.
Qed.

(** X15.  A misconfigured wrapper.  With a negative number of attempts the
    function is never called and the wrapper raises the [TypeError] of
    [raise None]; with a negative delay and more than one attempt, the
    first failure of the function ends in the [ValueError] of
    [time.sleep], after this one call, and the exception of the function
    is lost. *)
Theorem retry_on_failure_misconfigured {A : Type} (name : string) (func : M D A)
        (w : World D) :
  (forall (n : Z) (delay : option Q),
      n < 0 ->
      retry_on_failure (Some n) delay name func w
      = (Raise (Exception "TypeError" "exceptions must derive from BaseException"), w))
  /\ (forall (max_attempts : option Z) (d : Q) (e : exn) (w1 : World D),
        1 < effective_attempts max_attempts ->
        (d < 0)%Q ->
        func (emit (EvCall name) w) = (Raise e, w1) ->
        retry_on_failure max_attempts (Some d) name func w
        = (Raise (Exception "ValueError" "sleep length must be non-negative"), w1)).
Proof.
  split.
  - intros n delay Hn. unfold retry_on_failure.
    assert (Ha : py_or (Z.eqb 0) (Some n) RETRY_CONFIG.max_attempts = n).
    { apply (effective_attempts_configured n). lia. }
    rewrite Ha. destruct n as [|p|p]; try lia. reflexivity.
  - intros max_attempts d e w1 Hn Hd Hf. unfold retry_on_failure.
    fold (effective_attempts max_attempts).
    set (attempts := effective_attempts max_attempts) in *.
    assert (Hbase : py_or (Qeq_bool 0) (Some d) RETRY_CONFIG.base_delay = d).
    { unfold py_or. destruct (Qeq_bool 0 d) eqn:E; [|reflexivity].
      apply Qeq_bool_iff in E. rewrite <- E in Hd. exfalso. exact (Qlt_irrefl 0 Hd). }
    rewrite Hbase.
    destruct (Z.to_nat attempts) as [|k] eqn:Hk; [lia|].
    cbn [seq]. rewrite retry_loop_cons, Hf.
    assert (Hnot : (Z.of_nat 0 =? attempts - 1) = false) by (apply Z.eqb_neq; lia).
    rewrite Hnot, (retry_delay_in_range d 0 ltac:(lia)). unfold time_sleep.
    assert (Hneg : Qle_bool 0 (backoff_delay d 0) = false).
    { destruct (Qle_bool 0 (backoff_delay d 0)) eqn:E; [|reflexivity].
      apply Qle_bool_iff in E. exfalso.
      apply (Qlt_irrefl 0). eapply Qle_lt_trans; [exact E|].
      unfold backoff_delay. eapply Qle_lt_trans; [apply Q.le_min_l|].
      change (RETRY_CONFIG.backoff_multiplier ^ Z.of_nat 0)%Q with 1%Q.
      rewrite Qmult_1_r. exact Hd. }
    rewrite Hneg. reflexivity.
Qed.

End RetryExtras.

(** A function that is ready at instant 1, under the default
    configuration: the first call, at instant 0, fails; after the sleep
    of 1.5 seconds the second call returns, and that is all. *)
Lemma retry_on_failure_stops_at_success_witness :
  fst (retry_on_failure None None "poll" (flaky_until 1) (sim_world true 1 EmptyString))
  = Return 1
  /\ call_count (trace (snd (retry_on_failure None None "poll" (flaky_until 1)
                              (sim_world true 1 EmptyString)))) = 2%nat
  /\ sleeps_of (trace (snd (retry_on_failure None None "poll" (flaky_until 1)
                             (sim_world true 1 EmptyString))))
     = [Qmin ((3 # 2) * (2 # 1) ^ 0)%Q (8 # 1)].
Proof.
  destruct (@retry_on_failure_stops_at_success sim _ Z None None 3 (3 # 2)%Q "poll"
              (flaky_until 1) (sim_world true 1 EmptyString) 1%nat 1
              (attempt_world "poll" (flaky_until 1) (3 # 2)%Q 1
                 (sim_world true 1 EmptyString)))
    as (Hrun & Htrace & Hcounts).
  - right. split; [left; reflexivity | reflexivity].
  - right. split; [left; reflexivity | reflexivity].
  - discriminate.
  - lia.
  - lia.
  - intros i Hi. assert (i = 0%nat) as -> by lia. reflexivity.
  - reflexivity.
  - assert (Happ : appends (flaky_until 1)).
    { intros w. exists []. unfold flaky_until.
      destruct (now w <? 1); cbn [snd]; rewrite app_nil_r; reflexivity. }
    assert (Hun : unwrapped (flaky_until 1)).
    { intros w. unfold emitted_by, flaky_until.
      destruct (now w <? 1); cbn [snd]; rewrite skipn_all; split; reflexivity. }
    destruct (Hcounts Happ Hun) as [Hc Hs].
    split; [rewrite Hrun; reflexivity | split; [exact Hc | exact Hs]].
Defined.
(* ====================================================================== *)
(** * More on the executor and the pool *)
(* ====================================================================== *)

Lemma sends_of_app (evs evs' : list event) :
  sends_of (evs ++ evs') = sends_of evs ++ sends_of evs'.
Proof.
  induction evs as [|ev evs IH]; [reflexivity|].
  destruct ev; cbn [app sends_of]; rewrite IH; reflexivity.
Qed.

Lemma sends_of_sends (h : handle) (commands : list string) :
  sends_of (map (EvSend h) commands) = commands.
Proof.
  induction commands as [|c rest IH]; [reflexivity|].
  cbn [map sends_of]. rewrite IH. reflexivity.
Qed.

Section ExecutorExtras.

Context {D : Type} `{Environment D}.

Lemma ssh_command_loop_returns (h : handle) (commands : list string) :
  forall (results rs : list string) (w w' : World D),
    ssh_command_loop h commands results w = (Return rs, w') ->
    List.length rs = (List.length results + List.length commands)%nat
    /\ trace w' = trace w ++ map (EvSend h) commands
    /\ pool w' = pool w.
Proof.
  induction commands as [|c rest IH]; intros results rs w w' Hloop; cbn [ssh_command_loop] in Hloop.
  - injection Hloop as <- <-. cbn [List.length map]. rewrite app_nil_r. repeat split; lia.
  - destruct (ssh_exchange h c (env (emit (EvSend h c) w))) as [[raw|e] d]; [|discriminate].
    destruct (IH _ _ _ _ Hloop) as (Hlen & Htr & Hpool).
    rewrite length_app in Hlen. cbn [List.length] in *.
    split; [lia | split].
    + rewrite Htr. cbn [trace set_env emit map]. rewrite <- app_assoc. reflexivity.
    + rewrite Hpool. reflexivity.
Qed.

Lemma telnet_command_loop_returns (h : handle) (commands : list string) :
  forall (results rs : list string) (w w' : World D),
    telnet_command_loop h commands results w = (Return rs, w') ->
    List.length rs = (List.length results + List.length commands)%nat
    /\ trace w' = trace w ++ map (EvSend h) commands
    /\ pool w' = pool w.
Proof.
  induction commands as [|c rest IH]; intros results rs w w' Hloop;
    cbn [telnet_command_loop] in Hloop.
  - injection Hloop as <- <-. cbn [List.length map]. rewrite app_nil_r. repeat split; lia.
  - destruct (telnet_exchange h c (env (emit (EvSend h c) w))) as [[raw|e] d]; [|discriminate].
    destruct (IH _ _ _ _ Hloop) as (Hlen & Htr & Hpool).
    rewrite length_app in Hlen. cbn [List.length] in *.
    split; [lia | split].
    + rewrite Htr. cbn [trace set_env emit map]. rewrite <- app_assoc. reflexivity.
    + rewrite Hpool. reflexivity.
Qed.

Lemma run_batch_returns (commands rs : list string) (ci : ConnectionInfo)
      (w w' : World D) :
  run_batch commands ci w = (Return rs, w') ->
  List.length rs = List.length commands
  /\ trace w' = trace w ++ map (EvSend (connection ci)) commands.
Proof.
  unfold run_batch. destruct (String.eqb (protocol ci) "ssh").
  - unfold _execute_ssh_commands.
    destruct (invoke_shell (connection ci) (env w)) as [[u|e] d]; [|discriminate].
    destruct (wait_for_prompt (connection ci) (env (set_env d w))) as [[u'|e] d2].
    + destruct (ssh_command_loop (connection ci) commands [] (set_env d2 (set_env d w)))
        as [r w3] eqn:Hloop.
      intros [= -> <-].
      destruct (ssh_command_loop_returns _ _ _ _ _ _ Hloop) as (Hlen & Htr & _).
      cbn [List.length] in Hlen. split; [lia|].
      cbn [trace set_env]. exact Htr.
    + discriminate.
  - unfold _execute_telnet_commands. intros Hloop.
    destruct (telnet_command_loop_returns _ _ _ _ _ _ Hloop) as (Hlen & Htr & _).
    cbn [List.length] in Hlen. split; [lia | exact Htr].
Qed.

(** Entering [get_connection] writes nothing to a session. *)
Lemma acquire_sends_nothing (self : RouterConnection) (w : World D) :
  exists evs,
    trace (snd (acquire self w)) = trace w ++ evs /\ sends_of evs = [].
Proof.
  unfold acquire. destruct (pool w) as [|head rest].
  - pose proof (create_new_connection_trace self w) as [Ht _].
    destruct (_create_new_connection self w) as [[ci|e] w2]; cbn [snd] in *;
      exists []; rewrite app_nil_r; split; (exact Ht || reflexivity).
  - destruct (is_expired (now (set_pool rest w)) head
              || negb (_test_connection_health head (set_pool rest w))).
    + pose proof (create_new_connection_trace self
                    (_close_connection head (set_pool rest w))) as [Ht _].
      destruct (_create_new_connection self (_close_connection head (set_pool rest w)))
        as [[ci|e] w2]; cbn [snd] in *;
        exists [EvClose (connection head)]; (split; [exact Ht | reflexivity]).
    + exists []. rewrite app_nil_r. split; reflexivity.
Qed.

(** Leaving it does not either. *)
Lemma release_sends_nothing (ci : ConnectionInfo) (raised : bool) (w : World D) :
  exists evs,
    trace (release ci raised w) = trace w ++ evs /\ sends_of evs = [].
Proof.
  unfold release, put_nowait.
  destruct (is_healthy (if raised then mark_unhealthy ci else ci)
            && negb (is_expired (now w) (if raised then mark_unhealthy ci else ci))).
  - destruct (List.length (pool w) <? CONNECTION_POOL_CONFIG.max_connections)%nat.
    + exists []. rewrite app_nil_r. split; reflexivity.
    + eexists [_]. split; reflexivity.
  - eexists [_]. split; reflexivity.
Qed.

(** X16.  What a batch gives back and what the device received.  The body of
    [execute_commands] always returns a list: either the one-element
    error list, or one output for each normalised command, in which case
    the commands written to the session during the call are exactly the
    normalised commands, in their order. *)
Theorem execute_commands_body_shape (self : RouterConnection)
        (commands : list string) (w : World D) :
  exists results new_events,
    fst (execute_commands_body self commands w) = Return results
    /\ trace (snd (execute_commands_body self commands w)) = trace w ++ new_events
    /\ ((exists e, results = [String.append "Error: " (exn_msg e)])
        \/ (List.length results = List.length (_optimize_commands commands)
            /\ sends_of new_events = _optimize_commands commands)).
Proof.
  unfold execute_commands_body. destruct commands as [|c0 cs].
  - exists [], []. cbn [fst snd]. rewrite app_nil_r.
    split; [reflexivity | split; [reflexivity | right; split; reflexivity]].
  - set (batch := _optimize_commands (c0 :: cs)).
    unfold get_connection.
    destruct (acquire_sends_nothing self w) as (evs1 & Ht1 & Hs1).
    destruct (acquire self w) as [[ci|e] w1]; cbn [snd] in Ht1.
    + destruct (run_batch batch ci w1) as [[rs|e] w2] eqn:Hrun.
      * destruct (run_batch_returns _ _ _ _ _ Hrun) as (Hlen & Ht2).
        destruct (release_sends_nothing ci false w2) as (evs3 & Ht3 & Hs3).
        exists rs, (evs1 ++ map (EvSend (connection ci)) batch ++ evs3).
        cbn [fst snd]. split; [reflexivity | split].
        -- rewrite Ht3, Ht2, Ht1, <- !app_assoc. reflexivity.
        -- right. split; [exact Hlen|].
           rewrite !sends_of_app, Hs1, Hs3, sends_of_sends, app_nil_r. reflexivity.
      * destruct (release_sends_nothing ci true w2) as (evs3 & Ht3 & _).
        assert (Ht2 : exists evs2, trace w2 = trace w1 ++ evs2).
        { clear - Hrun. unfold run_batch in Hrun.
          destruct (String.eqb (protocol ci) "ssh").
          - unfold _execute_ssh_commands in Hrun.
            destruct (invoke_shell (connection ci) (env w1)) as [[u|e0] d].
            + destruct (wait_for_prompt (connection ci) (env (set_env d w1))) as [[u'|e1] d2].
              * destruct (ssh_command_loop (connection ci) batch []
                            (set_env d2 (set_env d w1))) as [r w3] eqn:Hloop.
                injection Hrun as -> <-.
                destruct (ssh_command_loop_stops _ _ _ _ _ _ Hloop)
                  as (sent & failed & skipped & _ & Htr & _).
                eexists. cbn [trace set_env]. exact Htr.
              * injection Hrun as _ <-. exists []. rewrite app_nil_r. reflexivity.
            + injection Hrun as _ <-. exists []. rewrite app_nil_r. reflexivity.
          - unfold _execute_telnet_commands in Hrun.
            destruct (telnet_command_loop_stops _ _ _ _ _ _ Hrun)
              as (sent & failed & skipped & _ & Htr & _).
            eexists. exact Htr. }
        destruct Ht2 as (evs2 & Ht2).
        exists [String.append "Error: " (exn_msg e)], (evs1 ++ evs2 ++ evs3).
        cbn [fst snd]. split; [reflexivity | split].
        -- rewrite Ht3, Ht2, Ht1, <- !app_assoc. reflexivity.
        -- left. exists e. reflexivity.
    + exists [String.append "Error: " (exn_msg e)], evs1.
      cbn [fst snd]. split; [reflexivity | split; [exact Ht1 | left; exists e; reflexivity]].
Qed.

End ExecutorExtras.

Section PoolExtras.

Context {D : Type} `{Environment D}.

Lemma test_connection_health_env (ci : ConnectionInfo) (w w' : World D) :
  env w' = env w -> _test_connection_health ci w' = _test_connection_health ci w.
Proof. intros He. unfold _test_connection_health. rewrite He. reflexivity. Qed.

(** X17.  Reuse.  On an empty pool, a connection released in good health and
    not expired is what the next [get_connection] yields: no new
    connection is opened, nothing is closed, the usage counter goes up by
    one and the pool is empty again.  A connection whose block raised is
    closed and never queued, in every state. *)
Theorem connection_reuse_round_trip (self : RouterConnection) (ci : ConnectionInfo)
        (w : World D) :
  (pool w = [] ->
   is_healthy ci = true ->
   is_expired (now w) ci = false ->
   _test_connection_health ci w = true ->
   acquire self (release ci false w) = (Return (mark_used (now w) ci), w))
  /\ pool (release ci true w) = pool w
  /\ trace (release ci true w) = trace w ++ [EvClose (connection ci)].
Proof.
  split; [|split; reflexivity].
  intros Hpool Hhealthy Hfresh Hprobe.
  assert (Hrel : release ci false w = set_pool [ci] w).
  { unfold release. rewrite Hhealthy, Hfresh. cbn [andb negb].
    unfold put_nowait. rewrite Hpool. reflexivity. }
  rewrite Hrel. clear Hrel.
  destruct w as [d q tr]. cbn [pool] in Hpool. subst q.
  unfold acquire, _test_connection_health, now, set_pool in *.
  cbn [pool env trace] in *.
  rewrite Hfresh, Hprobe. reflexivity.
Qed.

Lemma acquire_pool_length (self : RouterConnection) (w : World D) :
  (List.length (pool (snd (acquire self w))) <= List.length (pool w))%nat.
Proof.
  unfold acquire. destruct (pool w) as [|head rest] eqn:Hp.
  - pose proof (create_new_connection_trace self w) as [_ Hq].
    destruct (_create_new_connection self w) as [[ci|e] w2]; cbn [snd] in *;
      rewrite Hq, Hp; cbn; lia.
  - destruct (is_expired (now (set_pool rest w)) head
              || negb (_test_connection_health head (set_pool rest w))).
    + pose proof (create_new_connection_trace self
                    (_close_connection head (set_pool rest w))) as [_ Hq].
      destruct (_create_new_connection self (_close_connection head (set_pool rest w)))
        as [[ci|e] w2]; cbn [snd] in *; rewrite Hq; cbn; lia.
    + cbn. lia.
Qed.

Lemma put_nowait_bounded (ci : ConnectionInfo) (w w1 : World D) :
  put_nowait ci w = Some w1 ->
  (List.length (pool w1) <= CONNECTION_POOL_CONFIG.max_connections)%nat.
Proof.
  unfold put_nowait.
  destruct (List.length (pool w) <? CONNECTION_POOL_CONFIG.max_connections)%nat eqn:E;
    [|discriminate].
  intros [= <-]. apply Nat.ltb_lt in E. cbn [pool set_pool].
  rewrite length_app. cbn [List.length]. lia.
Qed.

Lemma release_pool_bounded (ci : ConnectionInfo) (raised : bool) (w : World D) :
  (List.length (pool w) <= CONNECTION_POOL_CONFIG.max_connections)%nat ->
  (List.length (pool (release ci raised w)) <= CONNECTION_POOL_CONFIG.max_connections)%nat.
Proof.
  intros Hw. unfold release.
  destruct (is_healthy (if raised then mark_unhealthy ci else ci)
            && negb (is_expired (now w) (if raised then mark_unhealthy ci else ci)));
    [|exact Hw].
  destruct (put_nowait (if raised then mark_unhealthy ci else ci) w) as [w1|] eqn:Hput;
    [exact (put_nowait_bounded _ _ _ Hput) | exact Hw].
Qed.

Lemma refill_pool_bounded (active : list ConnectionInfo) :
  forall w : World D,
    (List.length (pool w) <= CONNECTION_POOL_CONFIG.max_connections)%nat ->
    (List.length (pool (refill_pool active w))
     <= CONNECTION_POOL_CONFIG.max_connections)%nat.
Proof.
  induction active as [|ci rest IH]; intros w Hw; cbn [refill_pool]; [exact Hw|].
  destruct (put_nowait ci w) as [w1|] eqn:Hput.
  - apply IH. exact (put_nowait_bounded _ _ _ Hput).
  - apply IH. exact Hw.
Qed.

Lemma drain_pool_empties (queue : list ConnectionInfo) :
  forall (active : list ConnectionInfo) (w : World D),
    pool (snd (drain_pool queue active w))
    = match queue with [] => pool w | _ :: _ => [] end.
Proof.
  induction queue as [|ci rest IH]; intros active w; cbn [drain_pool]; [reflexivity|].
  destruct (negb (is_expired (now (set_pool rest w)) ci) && is_healthy ci);
    rewrite IH; destruct rest; reflexivity.
Qed.

Lemma cleanup_pool_bounded (w : World D) :
  (List.length (pool (_cleanup_expired_connections w))
   <= CONNECTION_POOL_CONFIG.max_connections)%nat.
Proof.
  unfold _cleanup_expired_connections.
  pose proof (drain_pool_empties (pool w) [] w) as Hd.
  destruct (drain_pool (pool w) [] w) as [active w1]. cbn [snd] in Hd.
  apply refill_pool_bounded. rewrite Hd.
  destruct (pool w); cbn; unfold CONNECTION_POOL_CONFIG.max_connections; lia.
Qed.

(** X18.  The queue never outgrows [max_connections]: whatever callers, the
    cleanup thread and the outside world do, a pool that holds at most
    five idle connections still does afterwards. *)
Theorem run_pool_bounded (self : RouterConnection) (steps : list (pool_step D)) :
  forall w : World D,
    (List.length (pool w) <= CONNECTION_POOL_CONFIG.max_connections)%nat ->
    (List.length (pool (snd (run_pool self steps w)))
     <= CONNECTION_POOL_CONFIG.max_connections)%nat.
Proof.
  induction steps as [|step rest IH]; intros w Hw; [exact Hw|].
  destruct step as [|ci raised| |f]; cbn [run_pool].
  - pose proof (acquire_pool_length self w) as Ha.
    destruct (acquire self w) as [[ci|e] w1]; cbn [snd] in Ha.
    + specialize (IH w1 ltac:(lia)).
      destruct (run_pool self rest w1) as [yields w2]. exact IH.
    + apply IH. lia.
  - apply IH, release_pool_bounded, Hw.
  - apply IH, cleanup_pool_bounded.
  - apply IH. exact Hw.
Qed.

Lemma drain_pool_filter (queue : list ConnectionInfo) :
  (forall h d, clock (close_handle h d) = clock d) ->
  forall (active : list ConnectionInfo) (w : World D),
    fst (drain_pool queue active w)
    = active ++ filter (worth_keeping (now w)) queue
    /\ trace (snd (drain_pool queue active w))
       = trace w ++ map (fun ci => EvClose (connection ci))
                        (filter (fun ci => negb (worth_keeping (now w) ci)) queue).
Proof.
  intros Hclose.
  induction queue as [|ci rest IH]; intros active w; cbn [drain_pool filter map].
  - rewrite !app_nil_r. split; reflexivity.
  - change (now (set_pool rest w)) with (now w).
    fold (worth_keeping (now w) ci).
    destruct (worth_keeping (now w) ci); cbn [negb map].
    + destruct (IH (active ++ [ci]) (set_pool rest w)) as [Hk Ht].
      change (now (set_pool rest w)) with (now w) in Hk, Ht.
      rewrite Hk, Ht, <- app_assoc. split; reflexivity.
    + destruct (IH active (_close_connection ci (set_pool rest w))) as [Hk Ht].
      assert (Hnow : now (_close_connection ci (set_pool rest w)) = now w).
      { unfold now. cbn [_close_connection emit set_env set_pool env]. apply Hclose. }
      rewrite Hnow in Hk, Ht. rewrite Hk, Ht.
      cbn [trace _close_connection emit set_env set_pool].
      rewrite <- app_assoc. split; reflexivity.
Qed.

Lemma refill_pool_room (active : list ConnectionInfo) :
  forall w : World D,
    (List.length (pool w) + List.length active
     <= CONNECTION_POOL_CONFIG.max_connections)%nat ->
    refill_pool active w = set_pool (pool w ++ active) w.
Proof.
  induction active as [|ci rest IH]; intros w Hroom; cbn [refill_pool].
  - rewrite app_nil_r. destruct w; reflexivity.
  - cbn [List.length] in Hroom. unfold put_nowait.
    assert (Hlt : (List.length (pool w) <? CONNECTION_POOL_CONFIG.max_connections)%nat
                  = true) by (apply Nat.ltb_lt; lia).
    rewrite Hlt. rewrite IH.
    + cbn [pool set_pool]. rewrite <- app_assoc. reflexivity.
    + cbn [pool set_pool]. rewrite length_app. cbn [List.length]. lia.
Qed.

(** X19.  The sweep is a filter.  When closing a connection takes no time and
    the queue is within its bound, [_cleanup_expired_connections] keeps
    exactly the connections that are healthy and not expired, in their
    order, and closes exactly the others, in their order: nothing good is
    dropped, nothing is closed twice. *)
Theorem sweep_keeps_the_good (w : World D) :
  (forall h d, clock (close_handle h d) = clock d) ->
  (List.length (pool w) <= CONNECTION_POOL_CONFIG.max_connections)%nat ->
  pool (_cleanup_expired_connections w) = filter (worth_keeping (now w)) (pool w)
  /\ trace (_cleanup_expired_connections w)
     = trace w ++ map (fun ci => EvClose (connection ci))
                      (filter (fun ci => negb (worth_keeping (now w) ci)) (pool w)).
Proof.
  intros Hclose Hbound. unfold _cleanup_expired_connections.
  destruct (drain_pool_filter (pool w) Hclose [] w) as [Hk Ht].
  pose proof (drain_pool_empties (pool w) [] w) as Hp.
  destruct (drain_pool (pool w) [] w) as [active w1]. cbn [fst snd app] in *.
  assert (Hempty : pool w1 = []).
  { rewrite Hp. destruct (pool w); reflexivity. }
  rewrite refill_pool_room.
  - cbn [pool trace set_pool]. rewrite Hempty, Hk, Ht. split; reflexivity.
  - rewrite Hempty, Hk. cbn [List.length].
    pose proof (filter_length_le (worth_keeping (now w)) (pool w)). lia.
Qed.

Lemma shutdown_loop_spec (queue : list ConnectionInfo) :
  forall w : World D,
    pool (shutdown_loop queue w) = match queue with [] => pool w | _ :: _ => [] end
    /\ trace (shutdown_loop queue w)
       = trace w ++ map (fun ci => EvClose (connection ci)) queue.
Proof.
  induction queue as [|ci rest IH]; intros w; cbn [shutdown_loop map].
  - rewrite app_nil_r. split; reflexivity.
  - destruct (IH (_close_connection ci (set_pool rest w))) as [Hp Ht].
    split.
    + rewrite Hp. destruct rest; reflexivity.
    + rewrite Ht. cbn [trace _close_connection emit set_env set_pool].
      rewrite <- app_assoc. reflexivity.
Qed.

(** X20.  [ConnectionPool.shutdown] closes every idle connection once, front
    of the queue first, and leaves the queue empty; it does not disable
    the pool: the next [get_connection] opens a new connection. *)
Theorem shutdown_closes_all (self : RouterConnection) (w : World D) :
  pool (shutdown w) = []
  /\ trace (shutdown w) = trace w ++ map (fun ci => EvClose (connection ci)) (pool w)
  /\ acquire self (shutdown w)
     = match _create_new_connection self (shutdown w) with
       | (Return conn_info, w2) => (Return (mark_used (now w2) conn_info), w2)
       | (Raise e, w2) => (Raise e, w2)
       end.
Proof.
  destruct (shutdown_loop_spec (pool w) w) as [Hp Ht].
  assert (Hempty : pool (shutdown w) = []).
  { unfold shutdown. rewrite Hp. destruct (pool w); reflexivity. }
  split; [exact Hempty | split; [exact Ht|]].
  unfold acquire. rewrite Hempty. reflexivity.
Qed.

End PoolExtras.

Section CallerExtras.

Context {D : Type} `{Environment D}.

(** X21.  [test_connection] never raises and never uses the second attempt of
    its retry wrapper: it is one run of [execute_commands], and it
    answers [True] exactly when that run returned a list whose first
    element does not contain [Error:]. *)
Theorem test_connection_single_run (self : RouterConnection) (w : World D) :
  exists b,
    fst (test_connection self w) = Return b
    /\ snd (test_connection self w)
       = snd (execute_commands self ["display version"]
                (emit (EvCall "test_connection") w))
    /\ (b = true <->
        exists first rest,
          fst (execute_commands self ["display version"]
                 (emit (EvCall "test_connection") w)) = Return (first :: rest)
          /\ Str.contains "Error:" first = false).
Proof.
  unfold test_connection, retry_on_failure.
  change (py_or (Z.eqb 0) (Some 2) RETRY_CONFIG.max_attempts) with 2.
  change (seq 0 (Z.to_nat 2)) with [0%nat; 1%nat].
  rewrite retry_loop_cons. unfold test_connection_body.
  destruct (execute_commands self ["display version"] (emit (EvCall "test_connection") w))
    as [[[|first rest]|e] w1]; cbn [fst snd].
  - exists false. split; [reflexivity | split; [reflexivity|]].
    split; [discriminate | intros (f & r & Hf & _); discriminate].
  - exists (negb (Str.contains "Error:" first)).
    split; [reflexivity | split; [reflexivity|]]. split.
    + intros Hb. exists first, rest. split; [reflexivity|].
      destruct (Str.contains "Error:" first); [discriminate | reflexivity].
    + intros (f & r & [= <- <-] & Hc). rewrite Hc. reflexivity.
  - exists false. split; [reflexivity | split; [reflexivity|]].
    split; [discriminate | intros (f & r & Hf & _); discriminate].
Qed.

Lemma format_commands_plain (format_target : string -> string -> result string)
      (target : string) (commands : list string) :
  Forall (fun cmd => Str.contains "{target}" cmd = false) commands ->
  format_commands format_target target commands = Return commands.
Proof.
  induction 1 as [|cmd rest Hc _ IH]; cbn [format_commands]; [reflexivity|].
  rewrite Hc, IH. reflexivity.
Qed.

(** X22.  [execute_router_commands] works on a pool of its own and leaves the
    caller's queue as it was; when a command cannot be formatted or the
    router settings are missing, nothing at all happens (no connection,
    no command, no retry); commands without the placeholder are passed
    on as they are. *)
Theorem execute_router_commands_isolated
        (format_target : string -> string -> result string)
        (settings : result RouterConnection) (target : string)
        (commands : list string) (w : World D) :
  pool (snd (execute_router_commands format_target settings target commands w)) = pool w
  /\ ((is_return (format_commands format_target target commands) = false
       \/ is_return settings = false) ->
      snd (execute_router_commands format_target settings target commands w) = w
      /\ exists e,
           fst (execute_router_commands format_target settings target commands w)
           = Return [String.append "Error: " (exn_msg e)])
  /\ (forall router,
        settings = Return router ->
        Forall (fun cmd => Str.contains "{target}" cmd = false) commands ->
        fst (execute_router_commands format_target settings target commands w)
        = match fst (execute_commands router commands (set_pool [] w)) with
          | Return results => Return results
          | Raise e => Return [String.append "Error: " (exn_msg e)]
          end).
Proof.
  unfold execute_router_commands. split; [|split].
  - destruct (format_commands format_target target commands) as [formatted|e];
      [|reflexivity].
    destruct settings as [router|e]; [|reflexivity].
    destruct (execute_commands router formatted (set_pool [] w)) as [[results|e] w1];
      reflexivity.
  - intros Hfail.
    destruct (format_commands format_target target commands) as [formatted|e].
    + destruct settings as [router|e].
      * destruct Hfail as [Hf|Hf]; discriminate.
      * split; [reflexivity | exists e; reflexivity].
    + split; [reflexivity | exists e; reflexivity].
  - intros router -> Hplain. rewrite (format_commands_plain _ _ _ Hplain).
    destruct (execute_commands router commands (set_pool [] w)) as [[results|e] w1];
      reflexivity.
Qed.

End CallerExtras.

(* ====================================================================== *)
(** * More on the parsers *)
(* ====================================================================== *)

Lemma all_chars_lstrip (p : ascii -> bool) (s : string) :
  Str.all_chars p s = true -> Str.all_chars p (Str.lstrip s) = true.
Proof.
  induction s as [|c r IH]; [reflexivity|].
  cbn [Str.lstrip]. destruct (Str.isspace c); [|tauto].
  cbn [Str.all_chars]. intros Hc. apply andb_true_iff in Hc. apply IH, Hc.
Qed.

Lemma all_chars_rstrip (p : ascii -> bool) (s : string) :
  Str.all_chars p s = true -> Str.all_chars p (Str.rstrip s) = true.
Proof.
  induction s as [|c r IH]; [reflexivity|].
  cbn [Str.rstrip Str.all_chars]. intros Hc. apply andb_true_iff in Hc.
  destruct Hc as [Hc Hr]. specialize (IH Hr).
  destruct (Str.rstrip r) as [|c' r'].
  - destruct (Str.isspace c); [reflexivity|]. cbn [Str.all_chars]. rewrite Hc. reflexivity.
  - cbn [Str.all_chars] in *. rewrite Hc. exact IH.
Qed.

Lemma all_chars_strip (p : ascii -> bool) (s : string) :
  Str.all_chars p s = true -> Str.all_chars p (Str.strip s) = true.
Proof. intros Hs. apply all_chars_lstrip, all_chars_rstrip, Hs. Qed.

Lemma length_lstrip (s : string) : (String.length (Str.lstrip s) <= String.length s)%nat.
Proof.
  induction s as [|c r IH]; [reflexivity|].
  cbn [Str.lstrip]. destruct (Str.isspace c); cbn [String.length]; lia.
Qed.

Lemma length_rstrip (s : string) : (String.length (Str.rstrip s) <= String.length s)%nat.
Proof.
  induction s as [|c r IH]; [reflexivity|].
  cbn [Str.rstrip]. destruct (Str.rstrip r) as [|c' r'].
  - destruct (Str.isspace c); cbn [String.length]; lia.
  - cbn [String.length] in *. lia.
Qed.

Lemma length_strip (s : string) : (String.length (Str.strip s) <= String.length s)%nat.
Proof.
  unfold Str.strip. pose proof (length_lstrip (Str.rstrip s)).
  pose proof (length_rstrip s). lia.
Qed.

Lemma length_lower (s : string) : String.length (Str.lower s) = String.length s.
Proof. induction s as [|c r IH]; [reflexivity|]. cbn [Str.lower String.length]. rewrite IH. reflexivity. Qed.

Lemma is_ascii_char_lower (c : ascii) :
  Str.is_ascii_char c = true -> Str.is_ascii_char (Str.lower_char c) = true.
Proof.
  destruct c as [[] [] [] [] [] [] [] []]; vm_compute; intros Hc; exact Hc || reflexivity.
Qed.

(** Among the ASCII characters, the digits of [isdigit] are the decimal
    digits. *)
Lemma is_ascii_digit_decimal (c : ascii) :
  Str.is_ascii_char c = true -> Str.isdigit_char c = true ->
  Str.isdecimal_char c = true.
Proof.
  destruct c as [[] [] [] [] [] [] [] []]; vm_compute; intros Ha Hd;
    reflexivity || discriminate.
Qed.

Lemma isascii_lower (s : string) :
  Str.isascii s = true -> Str.isascii (Str.lower s) = true.
Proof.
  unfold Str.isascii. induction s as [|c r IH]; [reflexivity|].
  cbn [Str.lower Str.all_chars]. intros Hc. apply andb_true_iff in Hc.
  destruct Hc as [Hc Hr]. rewrite (is_ascii_char_lower c Hc), (IH Hr). reflexivity.
Qed.

(** The pieces of [s.split(sep)] are made of characters of [s] and are
    no longer than [s]. *)
Lemma split_on_pieces (p : ascii -> bool) (sep : ascii) (s : string) :
  Str.all_chars p s = true ->
  Forall (fun l => Str.all_chars p l = true
                   /\ (String.length l <= String.length s)%nat)
         (Str.split_on sep s).
Proof.
  induction s as [|c r IH]; intros Hs.
  - constructor; [split; [reflexivity | cbn; lia] | constructor].
  - cbn [Str.all_chars] in Hs. apply andb_true_iff in Hs. destruct Hs as [Hc Hr].
    specialize (IH Hr). cbn [Str.split_on].
    destruct (Ascii.eqb c sep).
    + constructor; [split; [reflexivity | cbn; lia]|].
      eapply Forall_impl; [|exact IH]. intros l [Hl Hlen]. split; [exact Hl|].
      cbn [String.length]. lia.
    + destruct (Str.split_on sep r) as [|l ls].
      * constructor; [|constructor]. cbn [Str.all_chars String.length].
        rewrite Hc. split; [reflexivity | lia].
      * inversion IH as [|? ? [Hl Hlen] Hrest]; subst. constructor.
        -- cbn [Str.all_chars String.length]. rewrite Hc, Hl. split; [reflexivity | lia].
        -- eapply Forall_impl; [|exact Hrest]. intros x [Hx Hxl]. split; [exact Hx|].
           cbn [String.length]. lia.
Qed.

Lemma split_ws_cons (c : ascii) (r : string) :
  Str.split_ws (String c r)
  = if Str.isspace c then Str.split_ws r
    else match r with
         | EmptyString => [String c EmptyString]
         | String c' _ =>
             if Str.isspace c' then String c EmptyString :: Str.split_ws r
             else match Str.split_ws r with
                  | w :: ws => String c w :: ws
                  | [] => [String c EmptyString]
                  end
         end.
Proof. reflexivity. Qed.

(** The pieces of [s.split()] are words made of characters of [s], no
    longer than [s]. *)
Lemma split_ws_pieces (p : ascii -> bool) (s : string) :
  Str.all_chars p s = true ->
  Forall (fun w => word w
                   /\ Str.all_chars p w = true
                   /\ (String.length w <= String.length s)%nat)
         (Str.split_ws s).
Proof.
  unfold word.
  induction s as [|c r IH]; intros Hs; [constructor|].
  cbn [Str.all_chars] in Hs. apply andb_true_iff in Hs. destruct Hs as [Hc Hr].
  specialize (IH Hr). rewrite split_ws_cons.
  assert (Hweak : Forall (fun w => (Str.is_empty w = false
                                    /\ Str.all_chars (fun c => negb (Str.isspace c)) w = true)
                                   /\ Str.all_chars p w = true
                                   /\ (String.length w <= String.length (String c r))%nat)
                         (Str.split_ws r)).
  { eapply Forall_impl; [|exact IH]. intros w (Hw & Hp & Hlen).
    split; [exact Hw | split; [exact Hp | cbn [String.length]; lia]]. }
  destruct (Str.isspace c) eqn:Hsp; [exact Hweak|].
  assert (Hone : (Str.is_empty (String c EmptyString) = false
                  /\ Str.all_chars (fun c => negb (Str.isspace c)) (String c EmptyString)
                     = true)
                 /\ Str.all_chars p (String c EmptyString) = true
                 /\ (String.length (String c EmptyString)
                     <= String.length (String c r))%nat).
  { cbn [Str.is_empty Str.all_chars String.length]. rewrite Hsp, Hc.
    split; [split; reflexivity | split; [reflexivity | lia]]. }
  destruct r as [|c' r']; [constructor; [exact Hone | constructor]|].
  destruct (Str.isspace c'); [constructor; [exact Hone | exact Hweak]|].
  destruct (Str.split_ws (String c' r')) as [|w ws]; [constructor; [exact Hone | constructor]|].
  inversion IH as [|? ? ((_ & Hw) & Hp & Hlen) Hrest]; subst.
  inversion Hweak as [|? ? _ Hrest']; subst.
  constructor; [|exact Hrest'].
  cbn [Str.is_empty Str.all_chars String.length] in *. rewrite Hsp, Hc, Hw, Hp.
  split; [split; reflexivity | split; [reflexivity | lia]].
Qed.

Lemma decimal_value_nonneg (s : string) :
  forall acc, 0 <= acc -> Str.all_chars Str.isdecimal_char s = true ->
              0 <= Str.decimal_value acc s.
Proof.
  induction s as [|c r IH]; intros acc Hacc Hs; [exact Hacc|].
  cbn [Str.all_chars] in Hs. apply andb_true_iff in Hs. destruct Hs as [Hc Hr].
  cbn [Str.decimal_value]. apply IH; [|exact Hr].
  unfold Str.isdecimal_char in Hc. apply andb_true_iff in Hc. destruct Hc as [Hlo _].
  apply Nat.leb_le in Hlo. lia.
Qed.

Lemma isascii_digits_decimal (s : string) :
  Str.isascii s = true ->
  Str.all_chars Str.isdigit_char s = true ->
  Str.all_chars Str.isdecimal_char s = true.
Proof.
  unfold Str.isascii. induction s as [|c r IH]; [reflexivity|].
  cbn [Str.all_chars]. intros Hp Hd.
  apply andb_true_iff in Hp. apply andb_true_iff in Hd.
  destruct Hp as [Hpc Hpr], Hd as [Hdc Hdr].
  rewrite (IH Hpr Hdr), andb_true_r.
  exact (is_ascii_digit_decimal c Hpc Hdc).
Qed.

Lemma all_chars_any (s : string) : Str.all_chars (fun _ => true) s = true.
Proof. induction s as [|c r IH]; [reflexivity | exact IH]. Qed.

Section ParserExtras.

Import Parsers.

(** On ASCII parts of at most 4300 characters the search for the first
    number does not raise, and what it finds is not negative. *)
Lemma first_number_ascii (parts : list string) :
  Forall (fun part => Str.isascii part = true
                      /\ (String.length part <= 4300)%nat) parts ->
  first_number parts = Return None
  \/ exists n, first_number parts = Return (Some n) /\ 0 <= n.
Proof.
  induction 1 as [|part rest [Hp Hlen] _ IH]; cbn [first_number]; [left; reflexivity|].
  destruct (Str.isdigit part) eqn:Hd; [|exact IH].
  unfold Str.isdigit in Hd. apply andb_true_iff in Hd. destruct Hd as [Hne Hall].
  pose proof (isascii_digits_decimal part Hp Hall) as Hdec.
  unfold Str.int_of. rewrite Hne, Hdec. apply Nat.leb_le in Hlen. rewrite Hlen.
  cbn [andb]. right. eexists. split; [reflexivity|].
  apply decimal_value_nonneg; [lia | exact Hdec].
Qed.

Lemma pppoe_kept_refl (s : PppoeStats) : pppoe_kept s s.
Proof. unfold pppoe_kept. tauto. Qed.

Lemma pppoe_kept_trans (s1 s2 s3 : PppoeStats) :
  pppoe_kept s1 s2 -> pppoe_kept s2 s3 -> pppoe_kept s1 s3.
Proof.
  unfold pppoe_kept. intros (A1 & A2 & A3 & A4 & A5) (B1 & B2 & B3 & B4 & B5).
  repeat split; try congruence; tauto.
Qed.

Lemma line_parts_ascii (line : string) :
  Str.isascii line = true -> (String.length line <= 4300)%nat ->
  Forall (fun part => Str.isascii part = true /\ (String.length part <= 4300)%nat)
         (Str.split_ws (Str.lower (Str.strip line))).
Proof.
  intros Hp Hlen.
  assert (Hl : Str.isascii (Str.lower (Str.strip line)) = true).
  { apply isascii_lower. apply all_chars_strip. exact Hp. }
  eapply Forall_impl; [|exact (split_ws_pieces Str.is_ascii_char _ Hl)].
  intros part (_ & Hpp & Hpl). split; [exact Hpp|].
  rewrite length_lower in Hpl. pose proof (length_strip line). lia.
Qed.

Lemma pppoe_lines_ascii (lines : list string) :
  Forall (fun line => Str.isascii line = true
                      /\ (String.length line <= 4300)%nat) lines ->
  forall stats, exists stats',
    pppoe_lines lines stats = Return stats' /\ pppoe_kept stats stats'.
Proof.
  induction 1 as [|line rest [Hp Hlen] _ IH]; intros stats; cbn [pppoe_lines].
  - exists stats. split; [reflexivity | apply pppoe_kept_refl].
  - pose proof (first_number_ascii _ (line_parts_ascii line Hp Hlen)) as Hnum.
    destruct (Str.contains "total" (Str.lower (Str.strip line))
              && Str.contains "user" (Str.lower (Str.strip line))).
    + destruct Hnum as [-> | (n & -> & Hn)]; [apply IH|].
      destruct (IH (with_total n stats)) as (s' & Hs' & Hk).
      exists s'. split; [exact Hs'|].
      apply (pppoe_kept_trans stats (with_total n stats) s'); [|exact Hk].
      unfold pppoe_kept, with_total. cbn. tauto.
    + destruct (Str.contains "active" (Str.lower (Str.strip line))
                && Str.contains "session" (Str.lower (Str.strip line))); [|apply IH].
      destruct Hnum as [-> | (n & -> & Hn)]; [apply IH|].
      destruct (IH (with_active n stats)) as (s' & Hs' & Hk).
      exists s'. split; [exact Hs'|].
      apply (pppoe_kept_trans stats (with_active n stats) s'); [|exact Hk].
      unfold pppoe_kept, with_active. cbn. tauto.
Qed.

(** X23.  The positive side of the PPPoE parser.  On ASCII results
    (every character below 128) of at most 4300 characters each,
    [parse_pppoe_stats_optimized] returns a record; its [peak] and
    [authenticated] fields are always 0, its time stamp is the instant of
    the call, and [total] and [active] are not negative. *)
Theorem parse_pppoe_stats_ascii_input (now : Z) (results : list string) :
  Forall (fun r => Str.isascii r = true /\ (String.length r <= 4300)%nat) results ->
  exists stats,
    parse_pppoe_stats_optimized now results = Return stats
    /\ peak stats = 0
    /\ authenticated stats = 0
    /\ stats_last_update stats = now
    /\ 0 <= total stats
    /\ 0 <= active stats.
Proof.
  intros Hall. unfold parse_pppoe_stats_optimized.
  assert (Hrun : forall stats, exists stats',
             pppoe_results results stats = Return stats' /\ pppoe_kept stats stats').
  { induction Hall as [|r rest [Hp Hlen] _ IH]; intros stats; cbn [pppoe_results].
    - exists stats. split; [reflexivity | apply pppoe_kept_refl].
    - destruct (Str.is_empty r || Str.contains "Error:" r); [apply IH|].
      assert (Hlines : Forall (fun line => Str.isascii line = true
                                           /\ (String.length line <= 4300)%nat)
                              (Str.split_lines r)).
      { eapply Forall_impl; [|exact (split_on_pieces Str.is_ascii_char Str.newline r Hp)].
        intros l [Hl Hll]. split; [exact Hl | lia]. }
      destruct (pppoe_lines_ascii _ Hlines stats) as (s1 & -> & Hk1).
      destruct (IH s1) as (s2 & Hs2 & Hk2).
      exists s2. split; [exact Hs2 | exact (pppoe_kept_trans _ _ _ Hk1 Hk2)]. }
  destruct (Hrun (zeroed now)) as (stats & Hs & (K1 & K2 & K3 & K4 & K5)).
  exists stats. cbn in *. repeat split; try assumption; try (apply K4; lia); apply K5; lia.
Qed.

Lemma nth_word (parts : list string) (i : nat) :
  Forall word parts -> (i < List.length parts)%nat -> word (nth i parts EmptyString).
Proof.
  intros Hall Hi. apply (proj1 (Forall_forall _ _) Hall). apply nth_In. exact Hi.
Qed.

(** X24.  Every record of the interface parser stems from a line of at least
    three words: its name, status and protocol are words (the default
    [Unknown] is never used), both utilisations are 0 and the time stamp
    is the instant of the call; there are never more records than
    lines. *)
Theorem parse_interface_output_records (now : Z) (output : string) :
  Forall (fun r => word (name r) /\ word (status r) /\ word (protocol r)
                   /\ utilization_in r = 0 /\ utilization_out r = 0
                   /\ last_update r = now)
         (parse_interface_output_optimized now output)
  /\ (List.length (parse_interface_output_optimized now output)
      <= List.length (Str.split_lines output))%nat.
Proof.
  unfold parse_interface_output_optimized.
  destruct (Str.is_empty output || Str.contains "Error:" output);
    [split; [constructor | cbn; lia]|].
  generalize (Str.split_lines output) as lines.
  induction lines as [|line rest [IH1 IH2]]; [split; [constructor | reflexivity]|].
  cbn [parse_interface_lines].
  destruct (parse_interface_line now line) as [r|] eqn:Hline;
    [|split; [exact IH1 | cbn [List.length]; lia]].
  split; [|cbn [List.length]; lia].
  constructor; [|exact IH1].
  unfold parse_interface_line in Hline.
  destruct (Str.is_empty (Str.strip line) || Str.contains "Interface" (Str.strip line)
            || Str.contains "------" (Str.strip line)); [discriminate|].
  destruct (3 <=? List.length (Str.split_ws (Str.strip line)))%nat eqn:Hlen;
    [|discriminate].
  apply Nat.leb_le in Hlen. injection Hline as <-.
  cbn [name status protocol utilization_in utilization_out last_update].
  assert (Hwords : Forall word (Str.split_ws (Str.strip line))).
  { eapply Forall_impl;
      [|exact (split_ws_pieces (fun _ => true) _ (all_chars_any (Str.strip line)))].
    intros w (Hw & _). exact Hw. }
  assert (H1 : (1 <? List.length (Str.split_ws (Str.strip line)))%nat = true)
    by (apply Nat.ltb_lt; lia).
  assert (H2 : (2 <? List.length (Str.split_ws (Str.strip line)))%nat = true)
    by (apply Nat.ltb_lt; lia).
  rewrite H1, H2.
  split; [apply (nth_word _ _ Hwords); lia|].
  split; [apply (nth_word _ _ Hwords); lia|].
  split; [apply (nth_word _ _ Hwords); lia|].
  split; [reflexivity | split; reflexivity].
Qed.

End ParserExtras.

(* ====================================================================== *)
(** * The poller's updates *)
(* ====================================================================== *)

Section PollerUpdateFacts.

Context {D : Type} `{Environment D}.

(** The retried call with an argument: three calls, the sleeps of 1.5
    and 3 seconds between them, and the [TypeError] at the end. *)
Lemma call_with_argument_retried {A : Type} (name : string) (w : World D) :
  exists e w',
    retry_on_failure None None name (@call_with_argument D A name) w = (Raise e, w')
    /\ exn_class e = "TypeError"
    /\ trace w' = trace w ++ failure_events name RETRY_CONFIG.base_delay 0 3.
Proof.
  assert (Hbase : (0 <= RETRY_CONFIG.base_delay)%Q) by (vm_compute; discriminate).
  pose proof (retry_loop_run name (@call_with_argument D A name) 3
                RETRY_CONFIG.base_delay Hbase 2 2 0 None w eq_refl
                ltac:(lia) ltac:(lia) (fun i _ => eq_refl) (or_intror eq_refl)) as Hrun.
  unfold retry_on_failure.
  change (py_or (Z.eqb 0) None RETRY_CONFIG.max_attempts) with 3.
  change (py_or (Qeq_bool 0) None RETRY_CONFIG.base_delay) with RETRY_CONFIG.base_delay.
  change (seq 0 (Z.to_nat 3)) with (seq 0 3).
  rewrite Hrun. cbn [call_with_argument].
  eexists _, _. split; [reflexivity | split; [reflexivity|]].
  cbn [attempt_world_from call_with_argument snd trace emit slept set_env
       failure_events Nat.add].
  rewrite <- !app_assoc. reflexivity.
Qed.

(** X25.  The updates of the interfaces, the PPPoE statistics and the system
    metrics never write to the cache.  Each of them calls its getter with
    an argument the getter does not take; the [TypeError] is retried
    three times and then caught by the update, which leaves
    [router_cache] as it found it - also when the router answered every
    command. *)
Theorem updates_never_write_cache (isoformat : Z -> string)
        (_parse_interface_utilization : value -> string -> value)
        (router : RouterConnection) (p : PollerState D) :
  router_cache (_update_interfaces isoformat _parse_interface_utilization router p)
  = router_cache p
  /\ router_cache (_update_pppoe_stats isoformat router p) = router_cache p
  /\ router_cache (_update_system_metrics isoformat router p) = router_cache p.
Proof.
  split; [|split].
  - unfold _update_interfaces.
    destruct (execute_commands router _ (world p)) as [[results|e] w1]; [|reflexivity].
    destruct (batch_ok results); [|reflexivity].
    destruct (@call_with_argument_retried value "get_interfaces_optimized" w1)
      as (e & w' & -> & _). reflexivity.
  - unfold _update_pppoe_stats.
    destruct (execute_commands router _ (world p)) as [[results|e] w1]; [|reflexivity].
    destruct (batch_ok results); [|reflexivity].
    destruct (@call_with_argument_retried value "get_pppoe_stats_optimized" w1)
      as (e & w' & -> & _). reflexivity.
  - unfold _update_system_metrics.
    destruct (execute_commands router _ (world p)) as [[results|e] w1]; [|reflexivity].
    destruct (batch_ok results); [|reflexivity].
    destruct (@call_with_argument_retried value "get_system_metrics_optimized" w1)
      as (e & w' & -> & _). reflexivity.
Qed.

End PollerUpdateFacts.

(* ====================================================================== *)
(** * The interface getter and the cache *)
(* ====================================================================== *)

Section GetterFacts.

Context {D : Type} `{Environment D}.

Import Cache.

(** X26.  Cache first, by truth value.  Take the cache as a write of the
    interface list [v] at [set_time] leaves it (TTL 45 s) and a call of
    the getter before the entry expires, Redis holding nothing older
    under the key.  A non-empty [v] is returned without any contact with
    the router - the settings are not even read, the process state is
    left alone, and the read counts as one hit.  An empty [v] is not
    served: the getter goes on to [RouterConnection()], and raises what
    that constructor raises. *)
Theorem get_interfaces_cache_first (isoformat : Z -> string)
        (settings : result RouterConnection) (w : World D) (c : SmartCache)
        (up_set : bool) (set_time : Z) (v : value) :
  NoDup (keys (memory_cache c)) ->
  (recent_count set_time (memory_cache c) < 50)%nat ->
  set_time <= now w < set_time + CACHE_TTLS.interfaces ->
  remote_not_stale "router_interfaces"
    (mk_entry v (set_time + CACHE_TTLS.interfaces) set_time)
    (set up_set set_time "router_interfaces" v CACHE_TTLS.interfaces c) ->
  let p := mk_poller w (set up_set set_time "router_interfaces" v
                            CACHE_TTLS.interfaces c) in
  (truthy v = true ->
   fst (get_interfaces_optimized_body isoformat settings p) = Return v
   /\ world (snd (get_interfaces_optimized_body isoformat settings p)) = w
   /\ memory_cache (router_cache (snd (get_interfaces_optimized_body isoformat settings p)))
      = memory_cache (router_cache p)
   /\ hits (cache_stats (router_cache
                           (snd (get_interfaces_optimized_body isoformat settings p))))
      = hits (cache_stats c) + 1)
  /\ (truthy v = false ->
      forall e, settings = Raise e ->
                fst (get_interfaces_optimized_body isoformat settings p) = Raise e).
Proof.
  intros Hnd Hrecent Hnow Hfresh p.
  set (c1 := set up_set set_time "router_interfaces" v CACHE_TTLS.interfaces c) in *.
  set (e := mk_entry v (set_time + CACHE_TTLS.interfaces) set_time) in *.
  assert (Hget : dict_get "router_interfaces" (memory_cache c1) = Some e).
  { apply set_stores_locally; [exact Hnd | exact Hrecent | reflexivity]. }
  assert (Hvalid : _is_valid_cache_entry (now w) e = true).
  { apply Z.ltb_lt. cbn [expires_at e]. lia. }
  destruct (get_fresh_entry c1 (redis_up (env w)) (now w) "router_interfaces" e
              Hfresh Hget Hvalid) as (Hv & Hm & _ & Hh & _).
  unfold get_interfaces_optimized_body, router_cache_get.
  cbn [world router_cache p].
  destruct (get (redis_up (env w)) (now w) "router_interfaces" c1) as [v' c2].
  cbn [fst snd data e] in Hv, Hm, Hh. subst v'.
  split.
  - intros Ht. rewrite Ht. cbn [fst snd world router_cache].
    split; [reflexivity | split; [reflexivity | split; [exact Hm | exact Hh]]].
  - intros Hf e0 ->. rewrite Hf. reflexivity.
Qed.

(** X27.  The PPPoE getter contains the failure of its parser.  With the router
    settings present its body never raises; when the batch succeeded and
    the parser raises on its results, the getter answers with the default
    record (zeros and an [error] field) and writes nothing to the cache. *)
Theorem get_pppoe_stats_contains_parser_error (isoformat : Z -> string)
        (router : RouterConnection) (p : PollerState D) :
  is_return (fst (get_pppoe_stats_optimized_body isoformat (Return router) p)) = true
  /\ (forall results w1 e,
        truthy (fst (router_cache_get "pppoe_stats" p)) = false ->
        execute_commands router OPTIMIZED_COMMANDS.pppoe (set_pool [] (world p))
        = (Return results, w1) ->
        batch_ok results = true ->
        Parsers.parse_pppoe_stats_optimized (now w1) results = Raise e ->
        fst (get_pppoe_stats_optimized_body isoformat (Return router) p)
        = Return (pppoe_unavailable isoformat (now w1))
        /\ router_cache (snd (get_pppoe_stats_optimized_body isoformat (Return router) p))
           = router_cache (snd (router_cache_get "pppoe_stats" p))).
Proof.
  unfold get_pppoe_stats_optimized_body, router_cache_get.
  destruct (get (redis_up (env (world p))) (now (world p)) "pppoe_stats" (router_cache p))
    as [v c1].
  cbn [fst snd world router_cache].
  split.
  - destruct (truthy v); [reflexivity|].
    destruct (execute_commands router OPTIMIZED_COMMANDS.pppoe (set_pool [] (world p)))
      as [[results|e] w1]; [|reflexivity].
    destruct (batch_ok results); [|reflexivity].
    destruct (Parsers.parse_pppoe_stats_optimized (now w1) results); reflexivity.
  - intros results w1 e -> -> -> ->. split; reflexivity.
Qed.

End GetterFacts.

(* ====================================================================== *)
(** * The theorems above on concrete inputs *)
(* ====================================================================== *)

Lemma cache_two_keys_NoDup : NoDup (Cache.keys (Cache.memory_cache cache_two_keys)).
Proof.
  constructor; [|constructor; [|constructor]].
  - intros [Heq | []]. discriminate Heq.
  - intros [].
Defined.

Lemma get_lazy_eviction_witness :
  Cache.dict_get "pppoe_stats"
    (Cache.memory_cache (snd (Cache.get false 21 "pppoe_stats" cache_two_keys_local)))
  = None
  /\ Cache.dict_get "router_status"
       (Cache.memory_cache (snd (Cache.get false 21 "pppoe_stats" cache_two_keys_local)))
     = Some (Cache.mk_entry (VBool true) 60 0).
Proof.
  destruct (get_lazy_eviction cache_two_keys_local false 21 "pppoe_stats"
              cache_two_keys_NoDup) as (_ & Hother & _).
  split; [reflexivity|].
  rewrite (Hother "router_status"); [reflexivity | discriminate].
Defined.

Lemma clear_pattern_effect_witness :
  Cache.dict_get "pppoe_stats"
    (Cache.memory_cache (CacheAdmin.clear exact_match true (Some "pppoe") cache_two_keys))
  = None
  /\ Cache.dict_get "router_status"
       (Cache.memory_cache (CacheAdmin.clear exact_match true (Some "pppoe") cache_two_keys))
     = Some (Cache.mk_entry (VBool true) 60 0)
  /\ fst (Cache.get true 5 "pppoe_stats"
            (CacheAdmin.clear exact_match true (Some "pppoe") cache_two_keys))
     = Cache.pppoe_sample.
Proof.
  destruct (clear_pattern_effect exact_match true "p" "ppoe" cache_two_keys
              cache_two_keys_NoDup) as (Hlocal & _ & _).
  split; [exact (Hlocal "pppoe_stats")|].
  split; [exact (Hlocal "router_status") | reflexivity].
Defined.

Lemma clear_all_effect_witness :
  fst (Cache.get true 5 "pppoe_stats" (CacheAdmin.clear exact_match true None cache_two_keys))
  = VNone.
Proof.
  destruct (clear_all_effect exact_match true cache_two_keys) as (_ & _ & Hmiss).
  exact (proj1 (Hmiss (or_intror eq_refl) true 5 "pppoe_stats")).
Defined.

Lemma retry_on_failure_misconfigured_witness :
  retry_on_failure (Some (-1)) None "poll" (@failing unit "boom")
                   (sim_world true 1 EmptyString)
  = (Raise (Exception "TypeError" "exceptions must derive from BaseException"),
     sim_world true 1 EmptyString)
  /\ fst (retry_on_failure None (Some (-1 # 1)%Q) "poll" (@failing unit "boom")
                           (sim_world true 1 EmptyString))
     = Raise (Exception "ValueError" "sleep length must be non-negative").
Proof.
  destruct (retry_on_failure_misconfigured "poll" (@failing unit "boom")
              (sim_world true 1 EmptyString)) as [Hattempts Hdelay].
  split; [apply Hattempts; lia|].
  rewrite (Hdelay None (-1 # 1)%Q (Exception "RuntimeError" "boom")
             (emit (EvCall "poll") (sim_world true 1 EmptyString)));
    reflexivity.
Defined.

Lemma connection_reuse_round_trip_witness :
  acquire ssh_router (release used_connection false (sim_world true 1 EmptyString))
  = (Return (mk_conn 1%nat "ssh" 0 0 true 4), sim_world true 1 EmptyString).
Proof.
  exact (proj1 (connection_reuse_round_trip ssh_router used_connection
                  (sim_world true 1 EmptyString))
               eq_refl eq_refl eq_refl eq_refl).
Defined.

Lemma run_pool_bounded_witness :
  (List.length
     (pool (snd (run_pool ssh_router
                   [StepAcquire; StepRelease used_connection false; StepSweep]
                   (sim_world true 1 EmptyString))))
   <= CONNECTION_POOL_CONFIG.max_connections)%nat.
Proof.
  apply (run_pool_bounded ssh_router
           [StepAcquire; StepRelease used_connection false; StepSweep]
           (sim_world true 1 EmptyString)).
  cbn. unfold CONNECTION_POOL_CONFIG.max_connections. lia.
Defined.

Lemma execute_router_commands_isolated_witness :
  snd (execute_router_commands (fun _ cmd => Return cmd) missing_settings
         "GigabitEthernet0/0/1" ["display interface {target}"]
         (sim_world true 1 EmptyString))
  = sim_world true 1 EmptyString.
Proof.
  destruct (execute_router_commands_isolated (fun _ cmd => Return cmd) missing_settings
              "GigabitEthernet0/0/1" ["display interface {target}"]
              (sim_world true 1 EmptyString)) as (_ & Hfail & _).
  apply Hfail. right. reflexivity.
Defined.

Lemma parse_pppoe_stats_ascii_input_witness :
  exists stats,
    Parsers.parse_pppoe_stats_optimized 0 ["Total users: 7"; "Active sessions: 5"]
    = Return stats
    /\ Parsers.peak stats = 0
    /\ Parsers.authenticated stats = 0
    /\ Parsers.stats_last_update stats = 0
    /\ 0 <= Parsers.total stats
    /\ 0 <= Parsers.active stats.
Proof.
  apply (parse_pppoe_stats_ascii_input 0 ["Total users: 7"; "Active sessions: 5"]).
  constructor; [|constructor; [|constructor]];
    (split; [reflexivity | apply Nat.leb_le; reflexivity]).
Defined.

Lemma get_interfaces_cache_first_witness :
  fst (get_interfaces_optimized_body (fun _ => EmptyString) missing_settings
         (mk_poller (sim_world true 1 EmptyString)
            (Cache.set false 0 "router_interfaces" interfaces_sample
                       CACHE_TTLS.interfaces Cache.empty_local)))
  = Return interfaces_sample
  /\ fst (get_interfaces_optimized_body (fun _ => EmptyString) missing_settings
            (mk_poller (sim_world true 1 EmptyString)
               (Cache.set false 0 "router_interfaces" (VList [])
                          CACHE_TTLS.interfaces Cache.empty_local)))
     = Raise incomplete_settings.
Proof.
  assert (Hnd : NoDup (Cache.keys (Cache.memory_cache Cache.empty_local))) by constructor.
  assert (Hrecent : (Cache.recent_count 0 (Cache.memory_cache Cache.empty_local) < 50)%nat)
    by (cbn; lia).
  assert (Hnow : 0 <= now (sim_world true 1 EmptyString) < 0 + CACHE_TTLS.interfaces)
    by (cbn; unfold CACHE_TTLS.interfaces; lia).
  split.
  - destruct (get_interfaces_cache_first (fun _ => EmptyString) missing_settings
                (sim_world true 1 EmptyString) Cache.empty_local false 0
                interfaces_sample Hnd Hrecent Hnow) as [Hserved _].
    + intros r x d Hr. discriminate Hr.
    + exact (proj1 (Hserved eq_refl)).
  - destruct (get_interfaces_cache_first (fun _ => EmptyString) missing_settings
                (sim_world true 1 EmptyString) Cache.empty_local false 0
                (VList []) Hnd Hrecent Hnow) as [_ Hempty].
    + intros r x d Hr. discriminate Hr.
    + exact (Hempty eq_refl _ eq_refl).
Defined.

Lemma eviction_drops_oldest_witness :
  List.length (Cache._cleanup_memory_cache 500 memory_101) = 50%nat
  /\ Cache.created_at (Cache.mk_entry VNone 1000 0)
     <= Cache.created_at (Cache.mk_entry VNone 1000 100).
Proof.
  split; [vm_compute; reflexivity|].
  apply (eviction_drops_oldest 500 memory_101
           ("0", Cache.mk_entry VNone 1000 0) ("100", Cache.mk_entry VNone 1000 100)).
  - left. vm_compute. reflexivity.
  - reflexivity.
  - vm_compute. intros Hin.
    repeat (destruct Hin as [Hin | Hin]; [discriminate Hin|]). exact Hin.
  - vm_compute. do 49 right. left. reflexivity.
Defined.

Lemma get_pppoe_stats_contains_parser_error_witness :
  fst (@get_pppoe_stats_optimized_body sim garbled_environment (fun _ => EmptyString)
         (Return ssh_router) (mk_poller (sim_world true 1 EmptyString) Cache.empty_local))
  = Return (@pppoe_unavailable (fun _ => EmptyString) 2)
  /\ router_cache
       (snd (@get_pppoe_stats_optimized_body sim garbled_environment
               (fun _ => EmptyString) (Return ssh_router)
               (mk_poller (sim_world true 1 EmptyString) Cache.empty_local)))
     = Cache.mk_cache None [] (Cache.mk_stats 0 1 0 0).
Proof.
  destruct (@get_pppoe_stats_contains_parser_error sim garbled_environment
              (fun _ => EmptyString) ssh_router
              (mk_poller (sim_world true 1 EmptyString) Cache.empty_local))
    as [_ Hcontained].
  eapply Hcontained.
  - reflexivity.
  - vm_compute. reflexivity.
  - vm_compute. reflexivity.
  - vm_compute. reflexivity.
Defined.

Lemma sweep_keeps_the_good_witness :
  pool (_cleanup_expired_connections sim_world_stale_pool) = []
  /\ trace (_cleanup_expired_connections sim_world_stale_pool) = [EvClose 1%nat].
Proof.
  assert (Hclose : forall (h : handle) (d : sim), clock (close_handle h d) = clock d)
    by (intros h d; reflexivity).
  assert (Hbound : (List.length (pool sim_world_stale_pool)
                    <= CONNECTION_POOL_CONFIG.max_connections)%nat)
    by (cbn; unfold CONNECTION_POOL_CONFIG.max_connections; lia).
  exact (sweep_keeps_the_good sim_world_stale_pool Hclose Hbound).
Defined.

Lemma set_nonpositive_ttl_stores_nothing_witness :
  Cache.dict_get "pppoe_stats"
    (Cache.memory_cache (Cache.set true 5 "pppoe_stats" Cache.pppoe_sample_later 0
                                   cache_two_keys))
  = None
  /\ Cache.redis_client (Cache.set true 5 "pppoe_stats" Cache.pppoe_sample_later 0
                                   cache_two_keys)
     = Cache.redis_client cache_two_keys.
Proof.
  apply (set_nonpositive_ttl_stores_nothing cache_two_keys true 5 "pppoe_stats"
           Cache.pppoe_sample_later 0 cache_two_keys_NoDup).
  lia.
Defined.
